(** * Verification of the transmitter control loop (src/main.cpp)

    The program is one [main] function: an initialisation prologue followed
    by an endless control loop.  Each loop iteration first advances the ADC
    polling machine by one step and then runs one case of the broadcast
    machine (MEASURING, TESTING or BROADCASTING).

    The embedding below follows the source line by line:
    - [unsigned int] variables are integers [Z] wrapped modulo 2^32, array
      indices are [nat];
    - [float] variables are IEEE-754 binary32 values, computed with the
      Standard Library's executable specification [SpecFloat] at precision
      24 and exponent bound 128 (round to nearest, ties to even);
    - the two arrays are lists whose accesses are bounds-checked: an access
      outside the array, like a float-to-int conversion of a value that
      does not fit, is undefined behaviour in C++ and makes the step
      return [None];
    - [measurements] is a local array that the program never initialises:
      a slot holds stack residue until the loop assigns it, and the model
      keeps the two kinds of content apart;
    - what the loop observes of the hardware in one iteration (ADC flags,
      ADC result register, the two timer readings) is an [Env] record, and a
      run of the loop is driven by a list of such records;
    - what the loop only sends to the hardware changes no program
      variable: the DAC writes and buffer executions of [transmit] and the
      LEDs are modelled beside the state, after the control loop; the
      report line of TESTING and the ADC start command are left out. *)

From Stdlib Require Import ZArith QArith Qround List Bool Lia.
From Stdlib Require Import Floats.SpecFloat.
From stdpp Require Import base option list.

Local Open Scope Z_scope.

(** ** Machine integers *)

Definition wrap32 (z : Z) : Z := z mod 2 ^ 32.

(** ** binary32 arithmetic *)

Module F32.

Definition prec : Z := 24.
Definition emax : Z := 128.

Definition float := spec_float.

Definition fmul : float -> float -> float := SFmul prec emax.
Definition fdiv : float -> float -> float := SFdiv prec emax.
Definition fsub : float -> float -> float := SFsub prec emax.

(** Modelled from the spec: [abs] is declared by a header that is not part
    of the sources (mbed.h and what it includes); the specification reads
    [abs(freq - frequencies[j])] as the absolute value of the float
    difference, and so does this definition. *)
Definition fabs : float -> float := SFabs.

Definition flt : float -> float -> bool := SFltb.
Definition fle : float -> float -> bool := SFleb.

(** Conversion of an integer to [float] (rounds when the integer needs
    more than 24 significant bits). *)
Definition of_Z (z : Z) : float := binary_normalize prec emax z 0 false.

(** Conversion of an [unsigned int] to [float]. *)
Definition of_uint (z : Z) : float := of_Z (wrap32 z).

(** The literal [0.5f], that is 1 * 2^-1. *)
Definition half : float := binary_normalize prec emax 1 (-1) false.

Definition pinf : float := S754_infinity false.

(** Integer part of a finite float, rounded towards zero. *)
Definition trunc (x : float) : Z :=
  match x with
  | S754_finite s m e => cond_Zopp s (Z.shiftl (Zpos m) e)
  | _ => 0
  end.

(** The cast [(int)x]: truncation towards zero; undefined when [x] is an
    infinity, a NaN, or when the truncated value is not an [int]. *)
Definition to_int (x : float) : option Z :=
  match x with
  | S754_zero _ => Some 0
  | S754_finite _ _ _ =>
      let t := trunc x in
      if (- 2 ^ 31 <=? t) && (t <? 2 ^ 31) then Some t else None
  | S754_infinity _ | S754_nan => None
  end.

(** The rational number a float denotes (0 for infinities and NaN, which
    denote no number). *)
Definition to_Q (x : float) : Q :=
  match x with
  | S754_finite s m (Zneg p) => Qmake (cond_Zopp s (Zpos m)) (2 ^ p)
  | S754_finite s m e => inject_Z (cond_Zopp s (Zpos m) * 2 ^ e)
  | _ => inject_Z 0
  end.

(** Sign bit of a float, when it has one. *)
Definition sign_of (x : float) : option bool :=
  match x with
  | S754_zero s | S754_infinity s | S754_finite s _ _ => Some s
  | S754_nan => None
  end.

End F32.

Import F32.

(** ** Constants of the program *)

Definition MAX_OPCODES : nat := 80.
Definition NOP : Z := 0xBF00.
Definition RET : Z := 0x4770.

Definition MEASURING : Z := 2.
Definition TESTING : Z := 1.
Definition BROADCASTING : Z := 0.

Definition sample_rate : Z := 22050.
Definition measure_limit : nat := (MAX_OPCODES - 1)%nat.

(** The table of carrier frequencies as the initialiser lists it. *)
Definition listed_frequencies : list Z :=
  [ 531000; 540000; 549000; 558000; 567000; 576000; 585000; 594000;
    603000; 612000; 621000; 630000; 639000; 648000; 651000; 666000;
    675000; 684000; 693000; 702000; 711000; 720000; 729000; 738000;
    747000; 756000; 765000; 774000; 783000; 792000; 801000; 810000;
    819000; 828000; 837000; 846000; 855000; 864000; 873000; 882000;
    891000; 900000; 909000; 918000; 927000; 936000; 945000; 954000;
    963000; 972000; 981000; 981000; 989000; 990000; 999000; 1008000;
    1017000; 1026000; 1035000; 1044000; 1053000; 1062000; 1071000; 1080000;
    1089000; 1098000; 1107000; 1115000; 1116000; 1125000; 1134000; 1143000;
    1152000; 1161000; 1170000; 1179000; 1188000; 1197000; 1206000; 1215000 ].

(** [frequencies[i] -= sample_rate / 2.0f], the loop run once before the
    control loop; the table is never written again. *)
Definition shift_frequency (f : float) : float :=
  fsub f (fdiv (of_uint sample_rate) (of_Z 2)).

Definition frequencies : list float :=
  map (fun f => shift_frequency (of_Z f)) listed_frequencies.

Definition frequencies_n : nat := length frequencies.

(** ** Program state *)

(** A slot of the [measurements] array.  The array is a local that is not
    initialised: until a slot is assigned it holds whatever the stack held
    there. *)
Inductive Cell :=
| Indeterminate (residue : Z)
| Recorded (elapsed : Z).

Definition cell_value (c : Cell) : Z :=
  match c with Indeterminate z => z | Recorded z => z end.

Record State := mkState {
  opcodes : list Z;
  measurements : list Cell;
  index : nat;
  read_state : Z;
  ready_state : Z;
  periods : Z;
  adc_value : Z;
  start : Z;
  end_ : Z;
  best_index : nat;
  best_frequency : nat;
  desired : float;
  best_diff : float;
  freq : float;
  diff : float
}.

(** What one loop iteration reads from the hardware. *)
Record Env := mkEnv {
  adc_active : bool;   (* ADC0->SC2 & ADC_SC2_ADACT_MASK is non-zero *)
  adc_coco : bool;     (* ADC0->SC1[0] has ADC_SC1_COCO_MASK set *)
  adc_result : Z;      (* ADC0->R[0] *)
  t_start : Z;         (* timer.read_us() before the burst *)
  t_end : Z            (* timer.read_us() after the burst *)
}.

(** ** Array accesses and loops *)

(** [a[i] = v]; outside the array the behaviour is undefined. *)
Definition store {A} (a : list A) (i : nat) (v : A) : option (list A) :=
  if decide (i < length a)%nat then Some (<[i:=v]> a) else None.

(** [for (i = 0; i < n; i++) body], with a body that may be undefined. *)
Fixpoint for_each {A} (body : nat -> A -> option A) (ixs : list nat) (a : A)
  : option A :=
  match ixs with
  | [] => Some a
  | i :: rest => a' ← body i a; for_each body rest a'
  end.

Definition for_range {A} (n : nat) (body : nat -> A -> option A) (a : A)
  : option A :=
  for_each body (seq 0 n) a.

(** ** Prologue: the state on entry to the control loop *)

Definition init (stack : nat -> Z) : State :=
  {| opcodes := <[0%nat:=RET]> (replicate MAX_OPCODES NOP);
     measurements := (fun i => Indeterminate (stack i)) <$> seq 0 MAX_OPCODES;
     index := 0;
     read_state := 0;
     ready_state := MEASURING;
     periods := 100000;
     adc_value := 0;
     start := 0;
     end_ := 0;
     best_index := 0;
     best_frequency := 0;
     desired := of_Z 558000;
     best_diff := of_Z 558000;
     freq := S754_zero false;
     diff := S754_zero false |}.

(** ** The ADC polling machine (first switch of the loop) *)

Definition adc_step (e : Env) (rs v : Z) : Z * Z :=
  match rs with
  | 0 => (1, v)
  | 1 => if negb (adc_active e) then (2, v) else (1, v)
  | 2 => if adc_coco e then (3, v) else (2, v)
  | 3 => (0, wrap32 (adc_result e))
  | _ => (rs, v)
  end.

Definition poll_adc (e : Env) (s : State) : State :=
  let '(rs, v) := adc_step e (read_state s) (adc_value s) in
  {| opcodes := opcodes s; measurements := measurements s; index := index s;
     read_state := rs; ready_state := ready_state s; periods := periods s;
     adc_value := v; start := start s; end_ := end_ s;
     best_index := best_index s; best_frequency := best_frequency s;
     desired := desired s; best_diff := best_diff s;
     freq := freq s; diff := diff s |}.

(** ** The broadcast machine (second switch of the loop) *)

(** [periods * 1000000.0f / elapsed] with both integers [unsigned int]. *)
Definition achieved (p elapsed : Z) : float :=
  fdiv (fmul (of_uint p) (of_Z 1000000)) (of_uint elapsed).

(** Body of the inner evaluation loop, for offset [i] and target [j]. *)
Definition eval_body (i j : nat) (s : State) : option State :=
  c ← measurements s !! i;
  f ← frequencies !! j;
  let freq' := achieved (periods s) (cell_value c) in
  let diff' := fabs (fsub freq' f) in
  if flt diff' (best_diff s) then
    Some {| opcodes := opcodes s; measurements := measurements s;
            index := index s; read_state := read_state s;
            ready_state := ready_state s; periods := periods s;
            adc_value := adc_value s; start := start s; end_ := end_ s;
            best_index := i; best_frequency := j;
            desired := desired s; best_diff := diff';
            freq := freq'; diff := diff' |}
  else
    Some {| opcodes := opcodes s; measurements := measurements s;
            index := index s; read_state := read_state s;
            ready_state := ready_state s; periods := periods s;
            adc_value := adc_value s; start := start s; end_ := end_ s;
            best_index := best_index s; best_frequency := best_frequency s;
            desired := desired s; best_diff := best_diff s;
            freq := freq'; diff := diff' |}.

(** The two nested loops of the evaluation pass, for offsets below [rows]. *)
Definition scan (rows : nat) (s : State) : option State :=
  for_range rows (fun i => for_range frequencies_n (fun j => eval_body i j)) s.

(** The pass as the program runs it: [i < measure_limit - 1]. *)
Definition evaluate (s : State) : option State :=
  scan (measure_limit - 1)%nat s.

(** The statements that follow the evaluation pass. *)
Definition handoff (s : State) : option State :=
  c ← measurements s !! index s;
  let freq' := achieved (periods s) (cell_value c) in
  ops ← store (opcodes s) (index s) NOP;
  ops' ← store ops (best_index s) RET;
  d ← frequencies !! best_frequency s;
  Some {| opcodes := ops'; measurements := measurements s;
          index := best_index s; read_state := read_state s;
          ready_state := TESTING; periods := 250000;
          adc_value := adc_value s; start := start s; end_ := end_ s;
          best_index := best_index s; best_frequency := best_frequency s;
          desired := d; best_diff := best_diff s;
          freq := freq'; diff := diff s |}.

(** [end - start] as stored into an [unsigned int]. *)
Definition elapsed (e : Env) : Z :=
  wrap32 (wrap32 (t_end e) - wrap32 (t_start e)).

(** The timed burst and the three assignments that follow it:
    [measurements[index] = end - start; opcodes[index] = 0xBF00;
     opcodes[++index] = 0x4770].  The burst itself only drives the DAC and
    executes the opcode buffer; it changes no program variable. *)
Definition advance (e : Env) (s : State) : option State :=
  ms ← store (measurements s) (index s) (Recorded (elapsed e));
  ops ← store (opcodes s) (index s) NOP;
  let index' := S (index s) in
  ops' ← store ops index' RET;
  Some {| opcodes := ops'; measurements := ms; index := index';
          read_state := read_state s; ready_state := ready_state s;
          periods := periods s; adc_value := adc_value s;
          start := wrap32 (t_start e); end_ := wrap32 (t_end e);
          best_index := best_index s; best_frequency := best_frequency s;
          desired := desired s; best_diff := best_diff s;
          freq := freq s; diff := diff s |}.

Definition measuring (e : Env) (s : State) : option State :=
  s' ← advance e s;
  if decide (index s' = measure_limit) then s'' ← evaluate s'; handoff s''
  else Some s'.

(** [(int)(0.5f * freq / sample_rate)] *)
Definition final_periods (f : float) (rate : Z) : option Z :=
  to_int (fdiv (fmul half f) (of_uint rate)).

Definition testing (e : Env) (s : State) : option State :=
  let start' := wrap32 (t_start e) in
  let end' := wrap32 (t_end e) in
  let freq' := achieved (periods s) (elapsed e) in
  p ← final_periods freq' sample_rate;
  Some {| opcodes := opcodes s; measurements := measurements s;
          index := index s; read_state := read_state s;
          ready_state := BROADCASTING; periods := wrap32 p;
          adc_value := adc_value s; start := start'; end_ := end';
          best_index := best_index s; best_frequency := best_frequency s;
          desired := desired s; best_diff := best_diff s;
          freq := freq'; diff := diff s |}.

(** One iteration of [while(true)]. *)
Definition step (e : Env) (s : State) : option State :=
  let s1 := poll_adc e s in
  match ready_state s1 with
  | 2 => measuring e s1
  | 1 => testing e s1
  | _ => Some s1
  end.

(** The loop driven by a script of hardware observations. *)
Fixpoint run (script : list Env) (s : State) : option State :=
  match script with
  | [] => Some s
  | e :: rest => s' ← step e s; run rest s'
  end.

(** * Vocabulary of the specification *)

(** ** Floats *)

(** A float that is not negative: sign bit clear, or NaN. *)
Definition not_negative (x : float) : bool :=
  match sign_of x with Some s => negb s | None => true end.

Definition is_finite (x : float) : bool :=
  match x with S754_finite _ _ _ => true | _ => false end.

(** A float that is zero, or finite with at most [K] as the number of
    digits of its mantissa plus its exponent (so below 2^K in magnitude). *)
Definition small (K : Z) (x : float) : Prop :=
  match x with
  | S754_zero _ => True
  | S754_finite _ m e => Zpos (digits2_pos m) + e <= K
  | _ => False
  end.

(** A float that is infinite, or finite with at least [B] as the number of
    digits of its mantissa plus its exponent (so at least 2^(B-1)). *)
Definition big (B : Z) (x : float) : Prop :=
  match x with
  | S754_finite _ m e => B <= Zpos (digits2_pos m) + e
  | S754_infinity _ => True
  | _ => False
  end.

(** ** The opcode buffer and the evaluation pass *)

(** The buffer with the return word at slot [k] and no-ops elsewhere. *)
Definition one_hot (k : nat) : list Z := <[k:=RET]> (replicate MAX_OPCODES NOP).

(** [|achieved - target|] for offset [i] and target [j], from the recorded
    times [ms] and the burst length [p]. *)
Definition candidate (ms : list Cell) (p : Z) (i j : nat) : option float :=
  c ← ms !! i;
  f ← frequencies !! j;
  Some (fabs (fsub (achieved p (cell_value c)) f)).

(** The variables the evaluation pass does not assign. *)
Definition same_frame (s s' : State) : Prop :=
  opcodes s' = opcodes s /\ measurements s' = measurements s /\
  index s' = index s /\ read_state s' = read_state s /\
  ready_state s' = ready_state s /\ periods s' = periods s /\
  adc_value s' = adc_value s /\ start s' = start s /\ end_ s' = end_ s /\
  desired s' = desired s.

(** Scan order of the nested loops: offsets ascending, then targets. *)
Definition lex_before (i j bi bj : nat) : Prop :=
  (i < bi)%nat \/ (i = bi /\ (j < bj)%nat).

(** No pair was accepted: the three result variables are untouched. *)
Definition unbeaten (s0 s : State) : Prop :=
  best_diff s = best_diff s0 /\ best_index s = best_index s0 /\
  best_frequency s = best_frequency s0.

(** A pair was accepted: the result variables name it, it is strictly
    below the seed, and no pair scanned earlier is as good. *)
Definition winner (s0 s : State) : Prop :=
  candidate (measurements s0) (periods s0) (best_index s) (best_frequency s)
    = Some (best_diff s) /\
  flt (best_diff s) (best_diff s0) = true /\
  forall i j d,
    lex_before i j (best_index s) (best_frequency s) ->
    candidate (measurements s0) (periods s0) i j = Some d ->
    fle d (best_diff s) = false.

(** Loop invariant on entry to the body for offset [i] and target [j]. *)
Definition pass_inv (s0 : State) (i j : nat) (s : State) : Prop :=
  same_frame s0 s /\
  (forall i' j' d,
      lex_before i' j' i j ->
      candidate (measurements s0) (periods s0) i' j' = Some d ->
      flt d (best_diff s) = false) /\
  (unbeaten s0 s \/
   (lex_before (best_index s) (best_frequency s) i j /\ winner s0 s)).

(** Pair [(i, j)] is strictly better than [bound]. *)
Definition beats (ms : list Cell) (p : Z) (bound : float) (i j : nat) : bool :=
  match candidate ms p i j with
  | Some d => flt d bound
  | None => false
  end.

(** Some pair with an offset below [rows] is strictly better than [bound]. *)
Definition some_pair_beats (ms : list Cell) (p : Z) (bound : float)
  (rows : nat) : bool :=
  existsb (fun i => existsb (beats ms p bound i) (seq 0 frequencies_n))
    (seq 0 rows).

(** ** The ADC machine on its own *)

(** The polling state and latest value after the iterations of [script],
    from the pair [st]. *)
Fixpoint adc_run (script : list Env) (st : Z * Z) : Z * Z :=
  match script with
  | [] => st
  | e :: rest => adc_run rest (adc_step e (fst st) (snd st))
  end.

(** The polling states in which the iterations of [script] find the
    machine, oldest first. *)
Fixpoint adc_states (script : list Env) (st : Z * Z) : list Z :=
  match script with
  | [] => []
  | e :: rest => fst st :: adc_states rest (adc_step e (fst st) (snd st))
  end.

(** ** States along a run *)

(** The array after the iterations of [script] (at most one per slot):
    slot [i] holds the time of iteration [i] once that iteration has run,
    and the stack residue before. *)
Definition meas_after (stack : nat -> Z) (script : list Env) : list Cell :=
  (fun i => match script !! i with
            | Some e => Recorded (elapsed e)
            | None => Indeterminate (stack i)
            end) <$> seq 0 MAX_OPCODES.

(** The value [best_diff] starts from. *)
Definition seed : float := of_Z 558000.

(** The state after [script], while every iteration so far was a plain
    MEASURING iteration. *)
Definition measuring_inv (stack : nat -> Z) (script : list Env) (s : State)
  : Prop :=
  opcodes s = one_hot (length script) /\
  measurements s = meas_after stack script /\
  index s = length script /\
  ready_state s = MEASURING /\
  periods s = 100000 /\
  best_index s = 0%nat /\ best_frequency s = 0%nat /\
  best_diff s = seed /\ desired s = seed /\
  (read_state s, adc_value s) = adc_run script (0, 0).

(** What the evaluation pass leaves in the result variables, for recorded
    times [ms], burst length [p] and the offsets below [rows]:
    no scanned pair is strictly better than [best_diff]; and either no pair
    was accepted, or the accepted pair is named by the result variables, is
    strictly below the seed, and no pair scanned before it is as good. *)
Definition evaluated (ms : list Cell) (p : Z) (rows : nat) (s : State) : Prop :=
  (forall i j d,
      (i < rows)%nat -> candidate ms p i j = Some d ->
      flt d (best_diff s) = false) /\
  ((best_diff s = seed /\ best_index s = 0%nat /\ best_frequency s = 0%nat) \/
   ((best_index s < rows)%nat /\
    candidate ms p (best_index s) (best_frequency s) = Some (best_diff s) /\
    flt (best_diff s) seed = true /\
    forall i j d,
      lex_before i j (best_index s) (best_frequency s) ->
      candidate ms p i j = Some d -> fle d (best_diff s) = false)).

(** The state on entry to the TESTING iteration. *)
Definition testing_inv (stack : nat -> Z) (script : list Env) (s : State)
  : Prop :=
  ready_state s = TESTING /\
  periods s = 250000 /\
  index s = best_index s /\
  opcodes s = one_hot (index s) /\
  (index s < measure_limit - 1)%nat /\
  measurements s = meas_after stack script /\
  freq s = achieved 100000 (stack measure_limit) /\
  frequencies !! best_frequency s = Some (desired s) /\
  evaluated (meas_after stack script) 100000 (measure_limit - 1) s /\
  (read_state s, adc_value s) = adc_run script (0, 0).

(** The phase the loop is in after [n] iterations. *)
Definition phase_after (n : nat) : Z :=
  if (n <? measure_limit)%nat then MEASURING
  else if (n =? measure_limit)%nat then TESTING
  else BROADCASTING.

(** The state once TESTING has run: the phase is BROADCASTING and the
    opcode buffer is as the hand-over left it. *)
Definition broadcasting_inv (stack : nat -> Z) (script : list Env) (s : State)
  : Prop :=
  ready_state s = BROADCASTING /\
  exists s0,
    run (take measure_limit script) (init stack) = Some s0 /\
    testing_inv stack (take measure_limit script) s0 /\
    index s = index s0 /\ opcodes s = opcodes s0.

(** ** Scripts used to exercise the theorems *)

(** A bench script: the burst at offset [i] takes 151624 + 400 i
    microseconds; the ADC is idle with a finished conversion of 40000. *)
Definition bench (i : nat) : Env :=
  mkEnv false true 40000 0 (151624 + 400 * Z.of_nat i).

Definition bench_script (n : nat) : list Env := bench <$> seq 0 n.

Definition clean_stack : nat -> Z := fun _ => 0.

(** The states the bench script leads to, evaluated once. *)
Definition bench_3 : State :=
  Eval vm_compute in
    default (init clean_stack) (run (bench_script 3) (init clean_stack)).

Definition bench_4 : State :=
  Eval vm_compute in default bench_3 (step (bench 3) bench_3).

Definition bench_79 : State :=
  Eval vm_compute in
    default (init clean_stack) (run (bench_script 79) (init clean_stack)).

Definition bench_80 : State :=
  Eval vm_compute in default bench_79 (step (bench 79) bench_79).

Definition bench_81 : State :=
  Eval vm_compute in default bench_80 (step (bench 80) bench_80).

(** The script on which nothing beats the seed: every burst is timed at
    one microsecond. *)
Definition flat_script : list Env := replicate 79 (mkEnv false true 40000 0 1).

Definition flat_state : State :=
  Eval vm_compute in
    default (init clean_stack) (run flat_script (init clean_stack)).

(** The bench script with the burst at offset 77 timed at zero
    microseconds. *)
Definition zero_script : list Env :=
  bench_script 77 ++ [mkEnv false true 40000 0 0; bench 78].

Definition zero_state : State :=
  Eval vm_compute in
    default (init clean_stack) (run zero_script (init clean_stack)).

(** * The transmitter and the delay primitive *)

(** [exec(opcodes)] calls the buffer as a function.  The two instruction
    words are read as the comment above [measurements] reads them: 0xBF00
    does nothing and falls through to the next slot, 0x4770 returns to the
    caller.  The result is the number of no-ops run before the return; any
    other word, and running past the last slot, leave it undefined. *)
Fixpoint execute (ops : list Z) : option nat :=
  match ops with
  | [] => None
  | w :: rest =>
      if decide (w = RET) then Some 0%nat
      else if decide (w = NOP) then S <$> execute rest
      else None
  end.

(** What the loop sends to the DAC and how long it then waits. *)
Inductive Event :=
| Dac (level : Z)
| Delay (nops : nat).

(** [transmit(value)] with [WAVEFORM == SQUARE]: the level, a delay, zero,
    a delay.  The level is recorded as the [int] argument passed. *)
Definition transmit (ops : list Z) (value : Z) : option (list Event) :=
  d1 ← execute ops;
  d2 ← execute ops;
  Some [Dac value; Delay d1; Dac 0; Delay d2].

(** [n] calls of [transmit] in a row. *)
Fixpoint transmit_times (n : nat) (ops : list Z) (value : Z)
  : option (list Event) :=
  match n with
  | O => Some []
  | S n' =>
      p ← transmit ops value;
      r ← transmit_times n' ops value;
      Some (p ++ r)
  end.

(** [for (unsigned int i = periods; i; i--) transmit(adc_value)]. *)
Definition burst (ops : list Z) (count value : Z) : option (list Event) :=
  transmit_times (Z.to_nat (wrap32 count)) ops value.

(** An [unsigned int] passed where an [int] is expected. *)
Definition sint32 (z : Z) : Z := (z + 2 ^ 31) mod 2 ^ 32 - 2 ^ 31.

(** The events of one loop iteration: each of the three phases transmits
    one burst, after the ADC step and before any assignment of the phase. *)
Definition emit (e : Env) (s : State) : option (list Event) :=
  let s1 := poll_adc e s in
  match ready_state s1 with
  | 2 | 1 | 0 => burst (opcodes s1) (periods s1) (sint32 (adc_value s1))
  | _ => Some []
  end.

(** The variables that only MEASURING and TESTING assign: everything but
    the two ADC variables. *)
Definition same_calibration (s s' : State) : Prop :=
  opcodes s' = opcodes s /\ measurements s' = measurements s /\
  index s' = index s /\ ready_state s' = ready_state s /\
  periods s' = periods s /\ start s' = start s /\ end_ s' = end_ s /\
  best_index s' = best_index s /\ best_frequency s' = best_frequency s /\
  desired s' = desired s /\ best_diff s' = best_diff s /\
  freq s' = freq s /\ diff s' = diff s.

(** An environment whose ADC answers at once: the conversion is never seen
    active and is complete when polled. *)
Definition responsive (e : Env) : Prop :=
  adc_active e = false /\ adc_coco e = true.

(** The number of iterations of [script] that find the machine in
    START_CONVERSION (they write the start command to the ADC), and the
    number that find it in LATCH_VALUE (they read the result register). *)
Definition conversions_started (script : list Env) : nat :=
  count_occ Z.eq_dec (adc_states script (0, 0)) 0.

Definition values_latched (script : list Env) : nat :=
  count_occ Z.eq_dec (adc_states script (0, 0)) 3.

(** A script whose ADC never reports a conversion complete. *)
Definition stalled_script : list Env :=
  replicate 5 (mkEnv true false 40000 0 151624).

Definition stalled_state : State :=
  Eval vm_compute in
    default (init clean_stack) (run stalled_script (init clean_stack)).

(** A state with the two ADC variables replaced. *)
Definition with_adc (r v : Z) (s : State) : State :=
  {| opcodes := opcodes s; measurements := measurements s; index := index s;
     read_state := r; ready_state := ready_state s; periods := periods s;
     adc_value := v; start := start s; end_ := end_ s;
     best_index := best_index s; best_frequency := best_frequency s;
     desired := desired s; best_diff := best_diff s;
     freq := freq s; diff := diff s |}.

(** Two observations with the same timer readings, and two with the same
    ADC registers. *)
Definition same_timers (e e' : Env) : Prop :=
  t_start e = t_start e' /\ t_end e = t_end e'.

Definition same_adc (e e' : Env) : Prop :=
  adc_active e = adc_active e' /\ adc_coco e = adc_coco e' /\
  adc_result e = adc_result e'.

(** * The signal LEDs *)

Definition LED_ON : Z := 0.
Definition LED_OFF : Z := 1.

(** The three [DigitalOut] objects, as the values last assigned to them. *)
Record Leds := mkLeds { red : Z; green : Z; blue : Z }.

(** [red = LED_ON, green = LED_OFF, blue = LED_OFF] before the loop. *)
Definition leds_init : Leds := mkLeds LED_ON LED_OFF LED_OFF.

(** The LEDs after one iteration, along the path [step] takes: cyan after
    the hand-over (blue alone while the evaluation pass before it runs),
    green at the end of TESTING, unchanged elsewhere. *)
Definition signal (e : Env) (s : State) (l : Leds) : option Leds :=
  let s1 := poll_adc e s in
  match ready_state s1 with
  | 2 =>
      s' ← advance e s1;
      if decide (index s' = measure_limit) then
        (* blue, [mkLeds LED_OFF LED_OFF LED_ON], while the pass runs *)
        s'' ← evaluate s';
        _ ← handoff s'';
        Some (mkLeds LED_OFF LED_ON LED_ON)
      else Some l
  | 1 =>
      _ ← testing e s1;
      Some (mkLeds LED_OFF LED_ON LED_OFF)
  | _ => Some l
  end.

(** The loop with the LEDs beside the program variables. *)
Fixpoint run_leds (script : list Env) (s : State) (l : Leds)
  : option (State * Leds) :=
  match script with
  | [] => Some (s, l)
  | e :: rest =>
      l' ← signal e s l;
      s' ← step e s;
      run_leds rest s' l'
  end.

(** The colour the comments of the source give each phase: red for
    MEASURING, cyan for TESTING, green for BROADCASTING. *)
Definition colour (phase : Z) : Leds :=
  if decide (phase = MEASURING) then mkLeds LED_ON LED_OFF LED_OFF
  else if decide (phase = TESTING) then mkLeds LED_OFF LED_ON LED_ON
  else mkLeds LED_OFF LED_ON LED_OFF.

(** A TESTING observation whose burst takes 2^26 microseconds, and the
    state it leads to from the bench script. *)
Definition slow : Env := mkEnv false true 40000 0 67108864.

Definition slow_state : State :=
  Eval vm_compute in default bench_79 (step slow bench_79).

(** * Vocabulary for rounding to nearest *)

(** The number [A / B] lies in [[m, m + 1)] at location [l]: on [m], below,
    at or above the midpoint. *)
Definition inbetween (A B m : Z) (l : location) : Prop :=
  match l with
  | loc_Exact => A = m * B
  | loc_Inexact Lt => m * B < A /\ 2 * A < (2 * m + 1) * B
  | loc_Inexact Eq => 2 * A = (2 * m + 1) * B
  | loc_Inexact Gt => (2 * m + 1) * B < 2 * A /\ A < (m + 1) * B
  end.

(** Checks, for a burst of [E] microseconds, that the truncated quotient
    of TESTING is the integer part of the exact quotient. *)
Definition floor_agrees (E : Z) : bool :=
  let f := fdiv (S754_finite false 15258789 14) (of_Z E) in
  match to_int (fdiv (fmul half f) (S754_finite false 11289600 (-9))) with
  | Some p => p =? Qfloor ((1 # 2) * to_Q f / inject_Z 22050)
  | None => false
  end.

(** * Lemmas and theorems *)

(** ** Sanity checks of the float model *)

Example of_Z_558000 : of_Z 558000 = S754_finite false 8928000 (-4).
Proof. reflexivity. Qed.

Example half_repr : half = S754_finite false 8388608 (-24).
Proof. reflexivity. Qed.

Example to_int_example : to_int (fdiv (fmul half (of_Z 558000)) (of_uint 22050)) = Some 12.
Proof. vm_compute. reflexivity. Qed.

(** ** The order on floats used by [diff < best_diff] *)

Section FloatOrder.

Lemma flt_irrefl (x : float) : flt x x = false.
Proof.
  unfold flt, SFltb.
  destruct x as [s|s| |s m e]; simpl; try reflexivity.
  - destruct s; reflexivity.
  - rewrite Z.compare_refl.
    change (Pos.compare_cont Eq m m) with (Pos.compare m m).
    rewrite Pos.compare_refl. destruct s; reflexivity.
Qed.

Local Ltac order_cases e1 e2 e3 m1 m2 m3 :=
  change (Pos.compare_cont Eq) with Pos.compare;
  destruct (Z.compare_spec e1 e2), (Z.compare_spec e2 e3),
    (Z.compare_spec e1 e3);
  subst; try lia; try discriminate; try reflexivity;
  destruct (Pos.compare_spec m1 m2), (Pos.compare_spec m2 m3),
    (Pos.compare_spec m1 m3);
  subst; simpl; try lia; try discriminate; try reflexivity.

Lemma flt_trans (x y z : float) :
  flt x y = true -> flt y z = true -> flt x z = true.
Proof.
  unfold flt, SFltb.
  destruct x as [sx|sx| |sx mx ex], y as [sy|sy| |sy my ey],
    z as [sz|sz| |sz mz ez];
    simpl; try discriminate;
    destruct sx; try discriminate; try reflexivity;
    destruct sy; try discriminate; try reflexivity;
    destruct sz; try discriminate; try reflexivity.
  - order_cases ex ey ez mx my mz.
  - order_cases ex ey ez mx my mz.
Qed.

Lemma fle_flt_trans (x y z : float) :
  fle x y = true -> flt y z = true -> flt x z = true.
Proof.
  unfold fle, flt, SFleb, SFltb.
  destruct x as [sx|sx| |sx mx ex], y as [sy|sy| |sy my ey],
    z as [sz|sz| |sz mz ez];
    simpl; try discriminate;
    destruct sx; try discriminate; try reflexivity;
    destruct sy; try discriminate; try reflexivity;
    destruct sz; try discriminate; try reflexivity.
  - order_cases ex ey ez mx my mz.
  - order_cases ex ey ez mx my mz.
Qed.

End FloatOrder.

(** ** Signs of computed floats, and the cast to [int] *)

Section FloatSign.

Lemma round_aux_sign s m e l :
  sign_of (binary_round_aux prec emax s m e l) = Some s
  \/ binary_round_aux prec emax s m e l = S754_nan.
Proof.
  unfold binary_round_aux.
  destruct (shr_fexp prec emax m e l) as [mrs' e'].
  destruct (shr_fexp prec emax _ e' loc_Exact) as [mrs'' e''].
  destruct (shr_m mrs'') as [|p|p]; [left; reflexivity| |right; reflexivity].
  destruct (e'' <=? emax - prec); left; reflexivity.
Qed.

Lemma round_aux_not_negative m e l :
  not_negative (binary_round_aux prec emax false m e l) = true.
Proof.
  unfold not_negative.
  destruct (round_aux_sign false m e l) as [-> | ->]; reflexivity.
Qed.

Lemma of_Z_not_negative z : 0 <= z -> not_negative (of_Z z) = true.
Proof.
  intros Hz. unfold of_Z, binary_normalize.
  destruct z as [|p|p]; [reflexivity| |lia].
  unfold binary_round.
  destruct (shl_align p 0 _) as [mz ez].
  apply round_aux_not_negative.
Qed.

Lemma of_uint_not_negative z : not_negative (of_uint z) = true.
Proof.
  apply of_Z_not_negative. unfold wrap32.
  apply Z.mod_pos_bound. reflexivity.
Qed.

Lemma fmul_not_negative x y :
  not_negative x = true -> not_negative y = true ->
  not_negative (fmul x y) = true.
Proof.
  unfold fmul.
  destruct x as [sx|sx| |sx mx ex], y as [sy|sy| |sy my ey];
    try reflexivity; unfold not_negative at 1 2; simpl;
    destruct sx; try discriminate; destruct sy; try discriminate;
    intros _ _; try reflexivity.
  apply round_aux_not_negative.
Qed.

Lemma fdiv_not_negative x y :
  not_negative x = true -> not_negative y = true ->
  not_negative (fdiv x y) = true.
Proof.
  unfold fdiv.
  destruct x as [sx|sx| |sx mx ex], y as [sy|sy| |sy my ey];
    try reflexivity; unfold not_negative at 1 2; simpl;
    destruct sx; try discriminate; destruct sy; try discriminate;
    intros _ _; try reflexivity.
  destruct (SFdiv_core_binary prec emax (Z.pos mx) ex (Z.pos my) ey)
    as [[mz ez] lz].
  apply round_aux_not_negative.
Qed.

Lemma achieved_not_negative p elapsed :
  not_negative (achieved p elapsed) = true.
Proof.
  unfold achieved.
  apply fdiv_not_negative; [apply fmul_not_negative|];
    first [apply of_uint_not_negative | reflexivity].
Qed.

(** On a float that is not negative, the cast to [int] is the floor of
    the number the float denotes. *)
Lemma to_int_floor x t :
  not_negative x = true -> to_int x = Some t ->
  t = Qfloor (to_Q x) /\ 0 <= t.
Proof.
  destruct x as [s|s| |s m e]; simpl; try discriminate.
  - intros _ [= <-]. split; [reflexivity|lia].
  - unfold not_negative; simpl. destruct s; [discriminate|intros _].
    unfold trunc, cond_Zopp.
    destruct (_ && _); [|discriminate]. intros [= <-].
    destruct e as [|p|p].
    + unfold to_Q, cond_Zopp. rewrite Qfloor_Z.
      change (Z.shiftl (Z.pos m) 0) with (Z.pos m).
      split; lia.
    + unfold to_Q, cond_Zopp. rewrite Qfloor_Z.
      rewrite Z.shiftl_mul_pow2 by lia. split; [reflexivity|].
      apply Z.mul_nonneg_nonneg; [lia|]. apply Z.pow_nonneg. lia.
    + change (Z.shiftl (Z.pos m) (Z.neg p))
        with (Z.shiftr (Z.pos m) (Z.pos p)).
      rewrite Z.shiftr_div_pow2 by lia.
      unfold to_Q, cond_Zopp, Qfloor. rewrite Pos2Z.inj_pow.
      split; [reflexivity|].
      apply Z.div_pos; [lia|]. apply Z.pow_pos_nonneg; lia.
Qed.

End FloatSign.

(** ** Sizes of computed floats *)

(** The size of a finite float is the number of binary digits of its
    mantissa plus its exponent: the float is below 2 to that power.  The
    lemmas bound the size of a rounded result from above and from below,
    through the two shifts and the rounding step of [binary_round_aux]. *)

Lemma digits2_pos_bounds p :
  2 ^ (Zpos (digits2_pos p) - 1) <= Zpos p < 2 ^ Zpos (digits2_pos p).
Proof.
  induction p as [p IH|p IH|]; simpl digits2_pos.
  - rewrite Pos2Z.inj_succ, Z.pow_succ_r by lia.
    replace (Z.succ (Zpos (digits2_pos p)) - 1) with (Z.succ (Zpos (digits2_pos p) - 1)) by lia.
    rewrite Z.pow_succ_r by lia. lia.
  - rewrite Pos2Z.inj_succ, Z.pow_succ_r by lia.
    replace (Z.succ (Zpos (digits2_pos p)) - 1) with (Z.succ (Zpos (digits2_pos p) - 1)) by lia.
    rewrite Z.pow_succ_r by lia. lia.
  - simpl. lia.
Qed.

Lemma Zdigits2_nonneg z : 0 <= Zdigits2 z.
Proof. destruct z; simpl; lia. Qed.

Lemma Zdigits2_upper z k : 0 <= z < 2 ^ k -> 0 <= k -> Zdigits2 z <= k.
Proof.
  intros [H0 H1] Hk. destruct z as [|p|p]; simpl; [lia| |lia].
  pose proof (digits2_pos_bounds p) as [Hl _].
  destruct (Z_le_gt_dec (Zpos (digits2_pos p)) k) as [|Hgt]; [assumption|].
  exfalso.
  assert (2 ^ k <= 2 ^ (Zpos (digits2_pos p) - 1)) by (apply Z.pow_le_mono_r; lia).
  lia.
Qed.

Lemma Zdigits2_lower z k : 0 <= k -> 2 ^ k <= z -> k + 1 <= Zdigits2 z.
Proof.
  intros Hk Hz.
  assert (0 < 2 ^ k) by (apply Z.pow_pos_nonneg; lia).
  destruct z as [|p|p]; simpl; [lia| |lia].
  pose proof (digits2_pos_bounds p) as [_ Hu].
  destruct (Z_lt_le_dec k (Zpos (digits2_pos p))) as [|Hle]; [lia|].
  exfalso.
  assert (2 ^ Zpos (digits2_pos p) <= 2 ^ k) by (apply Z.pow_le_mono_r; lia).
  lia.
Qed.

Lemma Zdigits2_bounds z : 0 < z -> 2 ^ (Zdigits2 z - 1) <= z < 2 ^ Zdigits2 z.
Proof. destruct z as [|p|p]; try lia. intros _. apply digits2_pos_bounds. Qed.

Lemma Zdigits2_mono a b : 0 <= a <= b -> Zdigits2 a <= Zdigits2 b.
Proof.
  intros [H0 H1]. destruct (Z.eq_dec a 0) as [->|Hne]; [apply Zdigits2_nonneg|].
  pose proof (Zdigits2_bounds a ltac:(lia)) as [Hl _].
  pose proof (Zdigits2_lower b (Zdigits2 a - 1)) as H.
  pose proof (Zdigits2_nonneg a).
  assert (1 <= Zdigits2 a). { destruct a; simpl in *; lia. }
  lia.
Qed.

Lemma shr_1_m mrs : 0 <= shr_m mrs -> shr_m (shr_1 mrs) = shr_m mrs / 2.
Proof.
  destruct mrs as [m r s]. cbn [shr_m shr_1]. intros Hm.
  destruct m as [|[p|p|]|p]; cbn [shr_m]; try lia.
  - reflexivity.
  - apply (Z.div_unique _ _ _ 1); lia.
  - apply (Z.div_unique _ _ _ 0); lia.
  - reflexivity.
Qed.

Lemma pow2_xO n : 2 ^ Zpos n~0 = 2 ^ Zpos n * 2 ^ Zpos n.
Proof. rewrite Pos2Z.inj_xO, <- Z.pow_add_r by lia. f_equal. lia. Qed.

Lemma pow2_xI n : 2 ^ Zpos n~1 = 2 * (2 ^ Zpos n * 2 ^ Zpos n).
Proof.
  rewrite Pos2Z.inj_xI, <- Z.pow_add_r by lia.
  rewrite <- Z.pow_succ_r by lia. f_equal. lia.
Qed.

Lemma shr_iter_m n mrs :
  0 <= shr_m mrs ->
  shr_m (SpecFloat.iter_pos shr_1 n mrs) = shr_m mrs / 2 ^ Zpos n.
Proof.
  revert mrs. induction n as [n IH|n IH|]; intros mrs Hm;
    cbn [SpecFloat.iter_pos].
  - assert (0 < 2 ^ Zpos n) by (apply Z.pow_pos_nonneg; lia).
    assert (H1 : 0 <= shr_m (shr_1 mrs)).
    { rewrite shr_1_m by assumption. apply Z.div_pos; lia. }
    assert (H2 : 0 <= shr_m (SpecFloat.iter_pos shr_1 n (shr_1 mrs))).
    { rewrite IH by assumption. apply Z.div_pos; lia. }
    rewrite IH, IH, shr_1_m by assumption.
    rewrite !Z.div_div by lia. rewrite pow2_xI. reflexivity.
  - assert (0 < 2 ^ Zpos n) by (apply Z.pow_pos_nonneg; lia).
    assert (H2 : 0 <= shr_m (SpecFloat.iter_pos shr_1 n mrs)).
    { rewrite IH by assumption. apply Z.div_pos; lia. }
    rewrite IH, IH by assumption.
    rewrite !Z.div_div by lia. rewrite pow2_xO. reflexivity.
  - apply shr_1_m. assumption.
Qed.

(** [shr]: mantissa divided by 2^max(n,0), exponent raised by max(n,0). *)
Lemma shr_spec mrs e n :
  0 <= shr_m mrs ->
  shr_m (fst (shr mrs e n)) = shr_m mrs / 2 ^ Z.max n 0 /\
  snd (shr mrs e n) = e + Z.max n 0.
Proof.
  intros Hm. unfold shr. destruct n as [|p|p]; cbn [fst snd].
  - rewrite Z.max_id. simpl. rewrite Z.div_1_r. lia.
  - rewrite Z.max_l by lia. split; [apply shr_iter_m; assumption|reflexivity].
  - rewrite Z.max_r by lia. simpl. rewrite Z.div_1_r. lia.
Qed.

Lemma shr_record_of_loc_m m l : shr_m (shr_record_of_loc m l) = m.
Proof. destruct l as [|[ | | ]]; reflexivity. Qed.

Lemma round_nearest_even_bounds m l :
  m <= round_nearest_even m l <= m + 1.
Proof.
  unfold round_nearest_even. destruct l as [|[ | | ]]; try lia.
  destruct (Z.even m); lia.
Qed.

Lemma Zdigits2_div_pow2_upper z n :
  0 <= z -> 0 <= n -> Zdigits2 (z / 2 ^ n) <= Z.max (Zdigits2 z - n) 0.
Proof.
  intros Hz Hn.
  assert (Hp : 0 < 2 ^ n) by (apply Z.pow_pos_nonneg; lia).
  destruct (Z.eq_dec z 0) as [->|Hne].
  { rewrite Z.div_0_l by lia. simpl. lia. }
  pose proof (Zdigits2_bounds z ltac:(lia)) as [_ Hu].
  pose proof (Zdigits2_nonneg z).
  destruct (Z_le_gt_dec n (Zdigits2 z)) as [Hle|Hgt].
  - rewrite Z.max_l by lia. apply Zdigits2_upper; [|lia].
    split; [apply Z.div_pos; lia|].
    apply Z.div_lt_upper_bound; [lia|].
    rewrite <- Z.pow_add_r by lia.
    replace (n + (Zdigits2 z - n)) with (Zdigits2 z) by lia. exact Hu.
  - rewrite Z.div_small; [simpl; lia|].
    split; [lia|].
    assert (2 ^ Zdigits2 z <= 2 ^ n) by (apply Z.pow_le_mono_r; lia). lia.
Qed.

Lemma Zdigits2_div_pow2_lower z n :
  0 < z -> 0 <= n < Zdigits2 z -> Zdigits2 z - n <= Zdigits2 (z / 2 ^ n).
Proof.
  intros Hz Hn.
  assert (Hp : 0 < 2 ^ n) by (apply Z.pow_pos_nonneg; lia).
  pose proof (Zdigits2_bounds z Hz) as [Hl _].
  pose proof (Zdigits2_lower (z / 2 ^ n) (Zdigits2 z - 1 - n)) as H.
  assert (2 ^ (Zdigits2 z - 1 - n) <= z / 2 ^ n).
  { apply Z.div_le_lower_bound; [lia|].
    rewrite <- Z.pow_add_r by lia.
    replace (n + (Zdigits2 z - 1 - n)) with (Zdigits2 z - 1) by lia. exact Hl. }
  lia.
Qed.

Lemma round_aux_cases s m e l :
  0 <= m ->
  exists e1 mr e2 m2,
    e1 = Z.max e (fexp prec emax (Zdigits2 m + e)) /\
    m / 2 ^ (e1 - e) <= mr <= m / 2 ^ (e1 - e) + 1 /\
    e2 = Z.max e1 (fexp prec emax (Zdigits2 mr + e1)) /\
    m2 = mr / 2 ^ (e2 - e1) /\
    binary_round_aux prec emax s m e l
    = match m2 with
      | Z0 => S754_zero s
      | Zpos p => if e2 <=? emax - prec then S754_finite s p e2
                  else S754_infinity s
      | Zneg _ => S754_nan
      end.
Proof.
  intros Hm. unfold binary_round_aux, shr_fexp.
  pose proof (shr_spec (shr_record_of_loc m l) e
                (fexp prec emax (Zdigits2 m + e) - e)) as H1.
  rewrite shr_record_of_loc_m in H1. specialize (H1 Hm).
  destruct (shr (shr_record_of_loc m l) e _) as [mrs1 e1].
  cbn [fst snd] in H1. destruct H1 as [Hm1 He1].
  set (mr := round_nearest_even (shr_m mrs1) (loc_of_shr_record mrs1)).
  pose proof (round_nearest_even_bounds (shr_m mrs1) (loc_of_shr_record mrs1))
    as Hmr. fold mr in Hmr.
  assert (Hp1 : 0 < 2 ^ Z.max (fexp prec emax (Zdigits2 m + e) - e) 0)
    by (apply Z.pow_pos_nonneg; lia).
  assert (Hm1' : 0 <= shr_m mrs1) by (rewrite Hm1; apply Z.div_pos; lia).
  pose proof (shr_spec (shr_record_of_loc mr loc_Exact) e1
                (fexp prec emax (Zdigits2 mr + e1) - e1)) as H2.
  rewrite shr_record_of_loc_m in H2. specialize (H2 ltac:(lia)).
  destruct (shr (shr_record_of_loc mr loc_Exact) e1 _) as [mrs2 e2].
  cbn [fst snd] in H2. destruct H2 as [Hm2 He2].
  exists e1, mr, e2, (shr_m mrs2).
  assert (Ee1 : e1 - e = Z.max (fexp prec emax (Zdigits2 m + e) - e) 0) by lia.
  assert (Ee2 : e2 - e1 = Z.max (fexp prec emax (Zdigits2 mr + e1) - e1) 0)
    by lia.
  split; [lia|]. split; [rewrite Ee1, <- Hm1; exact Hmr|].
  split; [lia|]. split; [rewrite Ee2; exact Hm2|]. reflexivity.
Qed.

Lemma fexp_eq x : fexp prec emax x = Z.max (x - 24) (-149).
Proof. reflexivity. Qed.

Lemma round_aux_small s m e l K :
  0 <= m -> e <= K -> Zdigits2 m + e <= K -> -149 <= K <= 104 ->
  small (K + 1) (binary_round_aux prec emax s m e l).
Proof.
  intros Hm He Hmag HK.
  destruct (round_aux_cases s m e l Hm) as (e1 & mr & e2 & m2 & E1 & Hmr & E2 & Em2 & ->).
  rewrite fexp_eq in E1, E2.
  assert (H1 : 0 <= e1 - e) by lia.
  assert (Hp1 : 0 < 2 ^ (e1 - e)) by (apply Z.pow_pos_nonneg; lia).
  pose proof (Zdigits2_div_pow2_upper m (e1 - e) Hm H1) as Hd1.
  assert (Hq1 : 0 <= m / 2 ^ (e1 - e)) by (apply Z.div_pos; lia).
  assert (Hdr : Zdigits2 mr <= Zdigits2 (m / 2 ^ (e1 - e)) + 1).
  { destruct (Z.eq_dec (m / 2 ^ (e1 - e)) 0) as [Hz|Hnz].
    - rewrite Hz in *. simpl Zdigits2 at 2.
      apply Zdigits2_upper; simpl; lia.
    - pose proof (Zdigits2_bounds (m / 2 ^ (e1 - e)) ltac:(lia)) as [_ Hu].
      pose proof (Zdigits2_nonneg (m / 2 ^ (e1 - e))).
      apply Zdigits2_upper; [|lia].
      rewrite Z.pow_add_r by lia. simpl (2 ^ 1). lia. }
  assert (H2 : 0 <= e2 - e1) by lia.
  assert (Hp2 : 0 < 2 ^ (e2 - e1)) by (apply Z.pow_pos_nonneg; lia).
  pose proof (Zdigits2_div_pow2_upper mr (e2 - e1) ltac:(lia) H2) as Hd2.
  rewrite <- Em2 in Hd2.
  destruct m2 as [|p|p]; [exact I| |].
  - destruct (e2 <=? emax - prec) eqn:Hle.
    + simpl. simpl Zdigits2 in Hd2. lia.
    + apply Z.leb_gt in Hle. unfold emax, prec in Hle. lia.
  - assert (0 <= mr / 2 ^ (e2 - e1)) by (apply Z.div_pos; lia). lia.
Qed.

Lemma round_aux_big s m e l :
  0 < m -> -149 < Zdigits2 m + e ->
  big (Zdigits2 m + e) (binary_round_aux prec emax s m e l).
Proof.
  intros Hm Hlo.
  destruct (round_aux_cases s m e l ltac:(lia)) as (e1 & mr & e2 & m2 & E1 & Hmr & E2 & Em2 & ->).
  rewrite fexp_eq in E1, E2.
  pose proof (Zdigits2_bounds m Hm) as [Hl Hu].
  assert (Hd : 1 <= Zdigits2 m) by (destruct m; simpl in *; lia).
  assert (H1 : 0 <= e1 - e < Zdigits2 m) by lia.
  assert (Hp1 : 0 < 2 ^ (e1 - e)) by (apply Z.pow_pos_nonneg; lia).
  pose proof (Zdigits2_div_pow2_lower m (e1 - e) Hm H1) as Hd1.
  assert (Hq1 : 0 < m / 2 ^ (e1 - e)).
  { destruct (m / 2 ^ (e1 - e)) eqn:Eq; simpl in Hd1; try lia.
    pose proof (Z.div_pos m (2 ^ (e1 - e))). lia. }
  assert (Hdr : Zdigits2 (m / 2 ^ (e1 - e)) <= Zdigits2 mr)
    by (apply Zdigits2_mono; lia).
  assert (H2 : 0 <= e2 - e1 < Zdigits2 mr) by lia.
  pose proof (Zdigits2_div_pow2_lower mr (e2 - e1) ltac:(lia) H2) as Hd2.
  rewrite <- Em2 in Hd2.
  destruct m2 as [|p|p].
  - simpl in Hd2. lia.
  - destruct (e2 <=? emax - prec); [|exact I].
    simpl. simpl Zdigits2 in Hd2. lia.
  - assert (Hp2 : 0 < 2 ^ (e2 - e1)) by (apply Z.pow_pos_nonneg; lia).
    assert (0 <= mr / 2 ^ (e2 - e1)) by (apply Z.div_pos; lia). lia.
Qed.

Lemma small_mono K K' x : K <= K' -> small K x -> small K' x.
Proof. destruct x; simpl; intros; try assumption. lia. Qed.

Lemma big_mono B B' x : B' <= B -> big B x -> big B' x.
Proof. destruct x; simpl; intros; try assumption. lia. Qed.

Lemma digits2_pos_iter_xO m d :
  Zpos (digits2_pos (Pos.iter xO m d)) = Zpos (digits2_pos m) + Zpos d.
Proof.
  induction d as [|d IH] using Pos.peano_ind.
  - simpl. lia.
  - rewrite Pos.iter_succ. simpl digits2_pos. lia.
Qed.

Lemma shl_align_mag mx ex ex' :
  Zpos (digits2_pos (fst (shl_align mx ex ex'))) + snd (shl_align mx ex ex')
  = Zpos (digits2_pos mx) + ex.
Proof.
  unfold shl_align. destruct (ex' - ex) as [|d|d] eqn:E; cbn [fst snd]; try lia.
  rewrite digits2_pos_iter_xO. lia.
Qed.

Lemma of_Z_big z : 1 <= z < 2 ^ 32 -> big 1 (of_Z z).
Proof.
  intros [H1 H2]. destruct z as [|p|p]; try lia.
  unfold of_Z, binary_normalize, binary_round.
  pose proof (shl_align_mag p 0 (fexp prec emax (Zpos (digits2_pos p) + 0))) as Hmag.
  destruct (shl_align p 0 _) as [mz ez]. cbn [fst snd] in Hmag.
  assert (Hd : 1 <= Zpos (digits2_pos p) <= 32).
  { split; [lia|]. apply (Zdigits2_upper (Zpos p)); lia. }
  apply (big_mono (Zdigits2 (Zpos mz) + ez)); [simpl; lia|].
  apply round_aux_big; simpl; lia.
Qed.

Lemma div_core_bounds m1 e1 m2 e2 K :
  Zpos (digits2_pos m1) + e1 - (Zpos (digits2_pos m2) + e2) + 1 <= K ->
  -149 <= K ->
  let '(q, e', _) := SFdiv_core_binary prec emax (Zpos m1) e1 (Zpos m2) e2 in
  0 <= q /\ e' <= K /\ Zdigits2 q + e' <= K.
Proof.
  intros HK Hlo. unfold SFdiv_core_binary.
  cbn [Zdigits2].
  set (d1 := Zpos (digits2_pos m1)) in *. set (d2 := Zpos (digits2_pos m2)) in *.
  set (e' := Z.min (fexp prec emax (d1 + e1 - (d2 + e2))) (e1 - e2)).
  assert (He' : e' <= e1 - e2 /\ e' <= K).
  { unfold e'. rewrite fexp_eq. lia. }
  set (s := e1 - e2 - e').
  assert (Hs : 0 <= s) by (unfold s; lia).
  set (m' := match s with Z.pos _ => Z.shiftl (Zpos m1) s | 0 => Zpos m1 | Z.neg _ => 0 end).
  assert (Hm' : m' = Zpos m1 * 2 ^ s).
  { unfold m'. destruct s as [|p|p] eqn:Es; [simpl; lia| |lia].
    apply Z.shiftl_mul_pow2. lia. }
  pose proof (Z.div_eucl_eq m' (Zpos m2) ltac:(lia)) as Hdiv.
  pose proof (Z.mod_pos_bound m' (Zpos m2) ltac:(lia)) as Hmod.
  assert (Hq : fst (Z.div_eucl m' (Zpos m2)) = m' / Zpos m2) by reflexivity.
  destruct (Z.div_eucl m' (Zpos m2)) as [q r]. cbn [fst] in Hq. subst q.
  assert (Hp : 0 < 2 ^ s) by (apply Z.pow_pos_nonneg; lia).
  assert (Hm'0 : 0 <= m') by (rewrite Hm'; lia).
  pose proof (digits2_pos_bounds m1) as [_ Hu1]. fold d1 in Hu1.
  pose proof (digits2_pos_bounds m2) as [Hl2 _]. fold d2 in Hl2.
  assert (Hd1 : 1 <= d1) by (unfold d1; lia).
  assert (Hd2 : 1 <= d2) by (unfold d2; lia).
  assert (Hpd : 0 < 2 ^ (d2 - 1)) by (apply Z.pow_pos_nonneg; lia).
  assert (Hdm' : Zdigits2 m' <= d1 + s).
  { apply Zdigits2_upper; [|lia]. rewrite Hm', Z.pow_add_r by lia.
    split; [lia|]. apply Z.mul_lt_mono_pos_r; lia. }
  assert (Hqle : m' / Zpos m2 <= m' / 2 ^ (d2 - 1)).
  { apply Z.div_le_compat_l; lia. }
  assert (Hq0 : 0 <= m' / Zpos m2) by (apply Z.div_pos; lia).
  pose proof (Zdigits2_div_pow2_upper m' (d2 - 1) Hm'0 ltac:(lia)) as Hdq.
  pose proof (Zdigits2_mono (m' / Zpos m2) (m' / 2 ^ (d2 - 1)) ltac:(lia)) as Hmono.
  split; [exact Hq0|]. split; [lia|]. unfold s in *. lia.
Qed.

Lemma fdiv_small A B x y :
  small A x -> big B y -> -149 <= A - B + 1 <= 104 ->
  small (A - B + 2) (fdiv x y).
Proof.
  intros Hx Hy HK.
  destruct x as [sx|sx| |sx mx ex], y as [sy|sy| |sy my ey];
    simpl in Hx, Hy; try contradiction; try exact I.
  unfold fdiv, SFdiv.
  pose proof (div_core_bounds mx ex my ey (A - B + 1) ltac:(lia) ltac:(lia)) as H.
  destruct (SFdiv_core_binary prec emax (Zpos mx) ex (Zpos my) ey) as [[q e'] l].
  destruct H as (H0 & H1 & H2).
  replace (A - B + 2) with (A - B + 1 + 1) by lia.
  apply round_aux_small; lia.
Qed.

Lemma fmul_half_small A x :
  small A x -> -148 <= A <= 105 ->
  small A (fmul half x).
Proof.
  intros Hx HA. rewrite half_repr.
  destruct x as [sx|sx| |sx mx ex]; simpl in Hx; try contradiction; [exact I|].
  unfold fmul, SFmul.
  pose proof (digits2_pos_bounds mx) as [_ Hu].
  assert (Hd : 1 <= Zpos (digits2_pos mx)) by lia.
  replace A with (A - 1 + 1) by lia.
  apply round_aux_small; try lia.
  assert (Zdigits2 (Zpos (8388608 * mx)) <= 23 + Zpos (digits2_pos mx)); [|lia].
  apply Zdigits2_upper; [|lia].
  rewrite Pos2Z.inj_mul, Z.pow_add_r by lia.
  change (2 ^ 23) with (Zpos 8388608). lia.
Qed.

Lemma shiftl_small m e :
  Zpos (digits2_pos m) + e <= 31 -> 0 <= Z.shiftl (Zpos m) e < 2 ^ 31.
Proof.
  intros H.
  pose proof (digits2_pos_bounds m) as [_ Hu].
  assert (Hd : 1 <= Zpos (digits2_pos m)) by lia.
  destruct (Z_le_gt_dec 0 e) as [He|He].
  - rewrite Z.shiftl_mul_pow2 by lia.
    assert (0 < 2 ^ e) by (apply Z.pow_pos_nonneg; lia).
    split; [lia|].
    apply Z.lt_le_trans with (2 ^ (Zpos (digits2_pos m) + e)).
    + rewrite Z.pow_add_r by lia. apply Z.mul_lt_mono_pos_r; lia.
    + apply Z.pow_le_mono_r; lia.
  - rewrite Z.shiftl_div_pow2 by lia.
    assert (0 < 2 ^ (- e)) by (apply Z.pow_pos_nonneg; lia).
    assert (Ht : 0 <= Zpos m / 2 ^ (- e)) by (apply Z.div_pos; lia).
    split; [exact Ht|].
    pose proof (Zdigits2_div_pow2_upper (Zpos m) (- e) ltac:(lia) ltac:(lia))
      as Hdt.
    cbn [Zdigits2] in Hdt.
    destruct (Z.eq_dec (Zpos m / 2 ^ (- e)) 0) as [->|Hne]; [reflexivity|].
    pose proof (Zdigits2_bounds (Zpos m / 2 ^ (- e)) ltac:(lia)) as [_ Hub].
    apply Z.lt_le_trans with (2 ^ Zdigits2 (Zpos m / 2 ^ (- e))); [exact Hub|].
    apply Z.pow_le_mono_r; lia.
Qed.

Lemma to_int_small x : small 31 x -> is_Some (to_int x).
Proof.
  destruct x as [s|s| |s m e]; cbn [small]; try contradiction.
  - intros _. eexists. reflexivity.
  - intros H. pose proof (shiftl_small m e H) as [H0 H1].
    unfold to_int, trunc.
    destruct (_ && _) eqn:B; [eexists; reflexivity|].
    apply andb_false_iff in B.
    rewrite Z.leb_gt, Z.ltb_ge in B.
    change (2 ^ 31) with 2147483648 in *.
    destruct s; simpl in B; lia.
Qed.

(** With the burst length of TESTING, the repeat count is defined for
    every elapsed time but zero. *)
Lemma final_periods_defined elapsed :
  1 <= elapsed < 2 ^ 32 ->
  is_Some (final_periods (achieved 250000 elapsed) sample_rate).
Proof.
  intros He. unfold final_periods, achieved.
  apply to_int_small.
  assert (Hw : wrap32 elapsed = elapsed) by (apply Z.mod_small; lia).
  assert (H1 : small 39 (fdiv (fmul (of_uint 250000) (of_Z 1000000))
                           (of_uint elapsed))).
  { change 39 with (38 - 1 + 2). apply fdiv_small.
    - vm_compute. discriminate.
    - unfold of_uint. rewrite Hw. apply of_Z_big. exact He.
    - lia. }
  apply (small_mono (39 - 15 + 2)); [lia|].
  apply fdiv_small.
  - apply fmul_half_small; [exact H1|lia].
  - vm_compute. discriminate.
  - lia.
Qed.

Lemma elapsed_range e : 0 <= elapsed e < 2 ^ 32.
Proof. unfold elapsed, wrap32. apply Z.mod_pos_bound. reflexivity. Qed.

Lemma achieved_zero_100000 : achieved 100000 0 = pinf.
Proof. vm_compute. reflexivity. Qed.

Lemma achieved_zero_250000 : achieved 250000 0 = pinf.
Proof. vm_compute. reflexivity. Qed.

(** In TESTING the repeat count is defined exactly when the elapsed time
    is not zero. *)
Lemma final_periods_defined_iff e :
  is_Some (final_periods (achieved 250000 (elapsed e)) sample_rate)
  <-> elapsed e <> 0.
Proof.
  split.
  - intros [p Hp] H0. rewrite H0, achieved_zero_250000 in Hp. discriminate.
  - intros Hne. apply final_periods_defined.
    pose proof (elapsed_range e). lia.
Qed.

(** ** Generic facts about loops and runs *)

Section Loops.

Context {A : Type}.

(** Partial-correctness rule: a relation that every defined iteration
    respects is respected by the whole loop. *)
Lemma for_each_preserves (R : A -> A -> Prop) (body : nat -> A -> option A) :
  (forall a, R a a) ->
  (forall a b c, R a b -> R b c -> R a c) ->
  (forall i a a', body i a = Some a' -> R a a') ->
  forall ixs a a', for_each body ixs a = Some a' -> R a a'.
Proof.
  intros Hrefl Htrans Hbody.
  induction ixs as [|i ixs IH]; intros a a'; simpl.
  - intros [= <-]. apply Hrefl.
  - destruct (body i a) as [b|] eqn:E; simpl; [|discriminate].
    intros H. apply (Htrans _ b); [exact (Hbody _ _ _ E)|exact (IH _ _ H)].
Qed.

Lemma for_each_app (body : nat -> A -> option A) (xs ys : list nat) (a : A) :
  for_each body (xs ++ ys) a = for_each body xs a ≫= for_each body ys.
Proof.
  revert a. induction xs as [|x xs IH]; intros a; simpl; [reflexivity|].
  destruct (body x a) as [a'|]; simpl; [apply IH|reflexivity].
Qed.

(** Invariant rule for a counted loop: the loop is defined and
    establishes [P n] when every iteration is defined and takes [P k]
    to [P (S k)]. *)
Lemma for_range_ind (P : nat -> A -> Prop) (body : nat -> A -> option A) :
  forall n a,
    P 0%nat a ->
    (forall k x, (k < n)%nat -> P k x ->
                 exists x', body k x = Some x' /\ P (S k) x') ->
    exists a', for_range n body a = Some a' /\ P n a'.
Proof.
  unfold for_range.
  induction n as [|n IH]; intros a H0 Hstep.
  - exists a. split; [reflexivity|assumption].
  - destruct (IH a H0) as (a1 & E1 & P1).
    { intros k x Hk. apply Hstep. lia. }
    destruct (Hstep n a1 (Nat.lt_succ_diag_r n) P1) as (a2 & E2 & P2).
    exists a2. split; [|assumption].
    rewrite seq_S, for_each_app, E1. simpl. rewrite E2. reflexivity.
Qed.

End Loops.

Lemma run_app (xs ys : list Env) (s : State) :
  run (xs ++ ys) s = run xs s ≫= run ys.
Proof.
  revert s. induction xs as [|x xs IH]; intros s; simpl; [reflexivity|].
  destruct (step x s) as [s'|]; simpl; [apply IH|reflexivity].
Qed.

Lemma run_snoc (xs : list Env) (e : Env) (s : State) :
  run (xs ++ [e]) s = run xs s ≫= step e.
Proof.
  rewrite run_app. destruct (run xs s) as [s'|]; simpl; [|reflexivity].
  destruct (step e s'); reflexivity.
Qed.

(** ** The opcode buffer *)

Lemma one_hot_length k : length (one_hot k) = MAX_OPCODES.
Proof. unfold one_hot. rewrite length_insert. apply length_replicate. Qed.

Lemma one_hot_move (k j : nat) :
  <[j:=RET]> (<[k:=NOP]> (one_hot k)) = one_hot j.
Proof.
  unfold one_hot. rewrite list_insert_insert_eq, insert_replicate. reflexivity.
Qed.

Lemma one_hot_lookup (k i : nat) :
  (k < MAX_OPCODES)%nat -> (i < MAX_OPCODES)%nat ->
  one_hot k !! i = Some (if decide (i = k) then RET else NOP).
Proof.
  intros Hk Hi. unfold one_hot. destruct (decide (i = k)) as [->|Hne].
  - apply list_lookup_insert_eq. rewrite length_replicate. exact Hk.
  - rewrite list_lookup_insert_ne by congruence.
    apply lookup_replicate_2. exact Hi.
Qed.

Lemma count_occ_replicate_ne (n : nat) :
  count_occ Z.eq_dec (replicate n NOP) RET = 0%nat.
Proof. induction n as [|n IH]; simpl; [reflexivity|exact IH]. Qed.

Lemma count_occ_replicate_eq (n : nat) :
  count_occ Z.eq_dec (replicate n NOP) NOP = n.
Proof. induction n as [|n IH]; simpl; [reflexivity|]. rewrite IH. reflexivity. Qed.

Lemma count_occ_insert_ret (l : list Z) (k : nat) :
  l !! k = Some NOP ->
  count_occ Z.eq_dec (<[k:=RET]> l) RET = S (count_occ Z.eq_dec l RET)
  /\ S (count_occ Z.eq_dec (<[k:=RET]> l) NOP) = count_occ Z.eq_dec l NOP.
Proof.
  revert k. induction l as [|x l IH]; intros k Hk; [discriminate|].
  destruct k as [|k]; simpl in *.
  - injection Hk as ->. simpl. split; reflexivity.
  - destruct (IH k Hk) as [IH1 IH2].
    destruct (Z.eq_dec x RET), (Z.eq_dec x NOP); simpl; lia.
Qed.

(** Exactly one slot of [one_hot k] holds the return word, the 79 others
    hold the no-op word. *)
Lemma one_hot_counts (k : nat) :
  (k < MAX_OPCODES)%nat ->
  count_occ Z.eq_dec (one_hot k) RET = 1%nat
  /\ count_occ Z.eq_dec (one_hot k) NOP = (MAX_OPCODES - 1)%nat.
Proof.
  intros Hk. unfold one_hot.
  destruct (count_occ_insert_ret (replicate MAX_OPCODES NOP) k) as [H1 H2].
  { apply lookup_replicate_2. exact Hk. }
  rewrite count_occ_replicate_ne in H1.
  rewrite count_occ_replicate_eq in H2. split; [exact H1|lia].
Qed.

(** ** The evaluation pass *)

Section EvaluationPass.

Variable s0 : State.

Lemma pass_inv_start : pass_inv s0 0 0 s0.
Proof.
  split; [|split].
  - repeat split.
  - intros i' j' d [Hlt|[_ Hlt]]; lia.
  - left. repeat split.
Qed.

Lemma pass_inv_row_end i s :
  pass_inv s0 i frequencies_n s -> pass_inv s0 (S i) 0 s.
Proof.
  intros (F & B & W). split; [exact F|split].
  - intros i' j' d Hlex Hc. apply (B i' j' d); [|exact Hc].
    destruct Hlex as [Hlt|[_ Hlt]]; [|lia].
    destruct (decide (i' = i)) as [->|Hne]; [|left; lia].
    right. split; [reflexivity|].
    unfold candidate in Hc.
    destruct (measurements s0 !! i); [simpl in Hc|discriminate].
    destruct (frequencies !! j') eqn:Hf; [|discriminate].
    apply lookup_lt_Some in Hf. exact Hf.
  - destruct W as [U|[Hlex Hw]]; [left; exact U|right].
    split; [|exact Hw]. left. destruct Hlex as [Hlt|[-> _]]; lia.
Qed.

Lemma eval_body_spec i j s :
  (i < length (measurements s0))%nat -> (j < frequencies_n)%nat ->
  pass_inv s0 i j s ->
  exists s', eval_body i j s = Some s' /\ pass_inv s0 i (S j) s'.
Proof.
  intros Hi Hj (F & B & W).
  destruct F as (F1 & F2 & F3 & F4 & F5 & F6 & F7 & F8 & F9 & F10).
  destruct (lookup_lt_is_Some_2 _ _ Hi) as [c Hc].
  destruct (lookup_lt_is_Some_2 frequencies j Hj) as [f Hf].
  assert (Hcand : candidate (measurements s0) (periods s0) i j
                  = Some (fabs (fsub (achieved (periods s0) (cell_value c)) f))).
  { unfold candidate. rewrite Hc. simpl. rewrite Hf. reflexivity. }
  unfold eval_body. rewrite F2, Hc. simpl. rewrite Hf. simpl. rewrite F6.
  set (d := fabs (fsub (achieved (periods s0) (cell_value c)) f)) in *.
  assert (Hsplit : forall i' j', lex_before i' j' i (S j) ->
                                 lex_before i' j' i j \/ (i' = i /\ j' = j)).
  { unfold lex_before. intros i' j' H. lia. }
  destruct (flt d (best_diff s)) eqn:T; eexists; (split; [reflexivity|]).
  - split; [repeat split; assumption|split]; simpl.
    + intros i' j' d' Hlex Hc'.
      destruct (Hsplit _ _ Hlex) as [Hold|[-> ->]].
      * destruct (flt d' d) eqn:T'; [|reflexivity].
        rewrite <- (B i' j' d' Hold Hc'). symmetry.
        exact (flt_trans _ _ _ T' T).
      * rewrite Hcand in Hc'. injection Hc' as <-. apply flt_irrefl.
    + right. split; [right; split; [reflexivity|lia]|].
      unfold winner; simpl.
      split; [exact Hcand|split].
      * destruct W as [(U & _ & _)|(_ & _ & Hs & _)].
        -- rewrite <- U. exact T.
        -- exact (flt_trans _ _ _ T Hs).
      * intros i' j' d' Hlex Hc'.
        destruct (fle d' d) eqn:T'; [|reflexivity].
        rewrite <- (B i' j' d' Hlex Hc'). symmetry.
        exact (fle_flt_trans _ _ _ T' T).
  - split; [repeat split; assumption|split]; simpl.
    + intros i' j' d' Hlex Hc'.
      destruct (Hsplit _ _ Hlex) as [Hold|[-> ->]].
      * exact (B i' j' d' Hold Hc').
      * rewrite Hcand in Hc'. injection Hc' as <-. exact T.
    + destruct W as [U|[Hlex Hw]]; [left; exact U|right].
      split; [|exact Hw]. unfold lex_before in *. lia.
Qed.

(** The pass over offsets [0 .. rows-1] is defined whenever those offsets
    are inside the array, and establishes the invariant for all of them. *)
Lemma scan_spec rows :
  (rows <= length (measurements s0))%nat ->
  exists s', scan rows s0 = Some s' /\ pass_inv s0 rows 0 s'.
Proof.
  intros Hrows. unfold scan.
  apply (for_range_ind (fun i s => pass_inv s0 i 0 s)).
  - apply pass_inv_start.
  - intros i s Hi Hinv.
    destruct (for_range_ind (fun j s' => pass_inv s0 i j s')
                (fun j => eval_body i j) frequencies_n s Hinv)
      as (s' & E & Hinv').
    { intros j x Hj Hx. apply eval_body_spec; [lia|exact Hj|exact Hx]. }
    exists s'. split; [exact E|]. apply pass_inv_row_end. exact Hinv'.
Qed.

End EvaluationPass.

Lemma same_frame_refl s : same_frame s s.
Proof. repeat split. Qed.

Lemma same_frame_trans a b c : same_frame a b -> same_frame b c -> same_frame a c.
Proof.
  unfold same_frame. intros H1 H2.
  destruct H1 as (?&?&?&?&?&?&?&?&?&?), H2 as (?&?&?&?&?&?&?&?&?&?).
  repeat split; congruence.
Qed.

Lemma eval_body_frame i j s s' : eval_body i j s = Some s' -> same_frame s s'.
Proof.
  unfold eval_body.
  destruct (measurements s !! i) as [c|]; [simpl|discriminate].
  destruct (frequencies !! j) as [f|]; [simpl|discriminate].
  destruct (flt _ _); intros [= <-]; repeat split.
Qed.

Lemma scan_frame rows s s' : scan rows s = Some s' -> same_frame s s'.
Proof.
  unfold scan, for_range.
  apply for_each_preserves;
    [exact same_frame_refl|exact same_frame_trans|].
  intros i. apply for_each_preserves;
    [exact same_frame_refl|exact same_frame_trans|].
  intros j. apply eval_body_frame.
Qed.

(** ** The ADC machine inside the loop *)

Lemma adc_run_snoc script e st :
  adc_run (script ++ [e]) st
  = adc_step e (fst (adc_run script st)) (snd (adc_run script st)).
Proof.
  revert st. induction script as [|x script IH]; intros st; simpl;
    [reflexivity|apply IH].
Qed.

Lemma poll_adc_fields e s :
  (read_state (poll_adc e s), adc_value (poll_adc e s))
  = adc_step e (read_state s) (adc_value s)
  /\ opcodes (poll_adc e s) = opcodes s
  /\ measurements (poll_adc e s) = measurements s
  /\ index (poll_adc e s) = index s
  /\ ready_state (poll_adc e s) = ready_state s
  /\ periods (poll_adc e s) = periods s
  /\ best_index (poll_adc e s) = best_index s
  /\ best_frequency (poll_adc e s) = best_frequency s
  /\ best_diff (poll_adc e s) = best_diff s
  /\ desired (poll_adc e s) = desired s.
Proof.
  unfold poll_adc. destruct (adc_step e (read_state s) (adc_value s)).
  repeat split.
Qed.

(** ** Single steps of the broadcast machine *)

Lemma store_Some {A} (a : list A) i v :
  (i < length a)%nat -> store a i v = Some (<[i:=v]> a).
Proof. intros H. unfold store. rewrite decide_True by exact H. reflexivity. Qed.

Lemma store_inv {A} (a a' : list A) i v :
  store a i v = Some a' -> (i < length a)%nat /\ a' = <[i:=v]> a.
Proof.
  unfold store. destruct (decide (i < length a)%nat); [|discriminate].
  intros [= <-]. split; [assumption|reflexivity].
Qed.

Lemma handoff_fields s s' :
  handoff s = Some s' ->
  ready_state s' = TESTING /\ periods s' = 250000 /\
  index s' = best_index s /\ best_index s' = best_index s /\
  best_frequency s' = best_frequency s /\ best_diff s' = best_diff s /\
  read_state s' = read_state s /\ adc_value s' = adc_value s /\
  measurements s' = measurements s /\
  opcodes s' = <[best_index s:=RET]> (<[index s:=NOP]> (opcodes s)) /\
  frequencies !! best_frequency s = Some (desired s') /\
  exists c, measurements s !! index s = Some c
            /\ freq s' = achieved (periods s) (cell_value c).
Proof.
  unfold handoff.
  destruct (measurements s !! index s) as [c|]; [simpl|discriminate].
  destruct (store (opcodes s) (index s) NOP) as [ops|] eqn:E1;
    [simpl|discriminate].
  destruct (store ops (best_index s) RET) as [ops'|] eqn:E2;
    [simpl|discriminate].
  destruct (frequencies !! best_frequency s) as [d|]; [simpl|discriminate].
  intros [= <-]; simpl.
  apply store_inv in E1 as [_ ->]. apply store_inv in E2 as [_ ->].
  repeat split. exists c. split; reflexivity.
Qed.

Lemma half_not_negative : not_negative half = true.
Proof. reflexivity. Qed.

Lemma to_int_range x t : to_int x = Some t -> - 2 ^ 31 <= t < 2 ^ 31.
Proof.
  unfold to_int. destruct x as [?|?| |? ? ?]; try discriminate.
  - intros [= <-]. lia.
  - destruct (_ && _) eqn:B; [|discriminate]. intros [= <-].
    apply andb_prop in B as [B1 B2].
    apply Z.leb_le in B1. apply Z.ltb_lt in B2. split; assumption.
Qed.

(** The tuned repeat count is the floor of the float quotient, and fits
    an [unsigned int] unchanged. *)
Lemma final_periods_floor f rate p :
  not_negative f = true ->
  final_periods f rate = Some p ->
  p = Qfloor (to_Q (fdiv (fmul half f) (of_uint rate))) /\ 0 <= p < 2 ^ 32.
Proof.
  intros Hf E. unfold final_periods in E.
  assert (Hn : not_negative (fdiv (fmul half f) (of_uint rate)) = true).
  { apply fdiv_not_negative; [apply fmul_not_negative|].
    - exact half_not_negative.
    - exact Hf.
    - apply of_uint_not_negative. }
  destruct (to_int_floor _ _ Hn E) as [H1 H2].
  pose proof (to_int_range _ _ E) as Hr. split; [exact H1|].
  change (2 ^ 31) with 2147483648 in Hr. change (2 ^ 32) with 4294967296.
  lia.
Qed.

Lemma testing_fields e s s' :
  testing e s = Some s' ->
  ready_state s' = BROADCASTING /\
  index s' = index s /\ opcodes s' = opcodes s /\
  best_index s' = best_index s /\
  read_state s' = read_state s /\ adc_value s' = adc_value s /\
  measurements s' = measurements s /\
  freq s' = achieved (periods s) (elapsed e) /\
  final_periods (freq s') sample_rate = Some (periods s').
Proof.
  unfold testing.
  destruct (final_periods _ sample_rate) as [p|] eqn:E; [simpl|discriminate].
  intros [= <-]; simpl. repeat split.
  rewrite E. f_equal.
  destruct (final_periods_floor _ _ _ (achieved_not_negative _ _) E)
    as (_ & Hp).
  unfold wrap32. symmetry. apply Z.mod_small. exact Hp.
Qed.

Lemma step_measuring e s :
  ready_state s = MEASURING -> step e s = measuring e (poll_adc e s).
Proof.
  intros H. unfold step.
  destruct (poll_adc_fields e s) as (_ & _ & _ & _ & -> & _).
  rewrite H. reflexivity.
Qed.

Lemma step_testing e s :
  ready_state s = TESTING -> step e s = testing e (poll_adc e s).
Proof.
  intros H. unfold step.
  destruct (poll_adc_fields e s) as (_ & _ & _ & _ & -> & _).
  rewrite H. reflexivity.
Qed.

Lemma step_broadcasting e s :
  ready_state s = BROADCASTING -> step e s = Some (poll_adc e s).
Proof.
  intros H. unfold step.
  destruct (poll_adc_fields e s) as (_ & _ & _ & _ & -> & _).
  rewrite H. reflexivity.
Qed.

Lemma advance_fields e s s' :
  advance e s = Some s' ->
  opcodes s' = <[S (index s):=RET]> (<[index s:=NOP]> (opcodes s)) /\
  measurements s' = <[index s:=Recorded (elapsed e)]> (measurements s) /\
  index s' = S (index s) /\ read_state s' = read_state s /\
  ready_state s' = ready_state s /\ periods s' = periods s /\
  adc_value s' = adc_value s /\ best_index s' = best_index s /\
  best_frequency s' = best_frequency s /\ best_diff s' = best_diff s /\
  desired s' = desired s /\ freq s' = freq s.
Proof.
  unfold advance.
  destruct (store (measurements s) _ _) as [ms|] eqn:E1; [simpl|discriminate].
  destruct (store (opcodes s) _ _) as [ops|] eqn:E2; [simpl|discriminate].
  destruct (store ops _ _) as [ops'|] eqn:E3; [simpl|discriminate].
  intros [= <-]; simpl.
  apply store_inv in E1 as [_ ->]. apply store_inv in E2 as [_ ->].
  apply store_inv in E3 as [_ ->]. repeat split.
Qed.

Lemma advance_defined e s :
  (index s < length (measurements s))%nat ->
  (S (index s) < length (opcodes s))%nat ->
  is_Some (advance e s).
Proof.
  intros H1 H2. unfold advance.
  rewrite (store_Some (measurements s)) by exact H1. simpl.
  rewrite (store_Some (opcodes s)) by lia. simpl.
  rewrite store_Some by (rewrite length_insert; exact H2). simpl.
  eexists. reflexivity.
Qed.

(** ** The measurement array along a run *)

Lemma meas_after_length stack script :
  length (meas_after stack script) = MAX_OPCODES.
Proof. unfold meas_after. rewrite length_fmap. apply length_seq. Qed.

Lemma meas_after_lookup stack script i :
  (i < MAX_OPCODES)%nat ->
  meas_after stack script !! i
  = Some match script !! i with
         | Some e => Recorded (elapsed e)
         | None => Indeterminate (stack i)
         end.
Proof.
  intros Hi. unfold meas_after.
  rewrite list_lookup_fmap, lookup_seq_lt by exact Hi. reflexivity.
Qed.

Lemma meas_after_snoc stack script e :
  (length script < MAX_OPCODES)%nat ->
  <[length script:=Recorded (elapsed e)]> (meas_after stack script)
  = meas_after stack (script ++ [e]).
Proof.
  intros Hk. apply list_eq. intros i.
  destruct (decide (i < MAX_OPCODES)%nat) as [Hi|Hi].
  - rewrite (meas_after_lookup _ (script ++ [e])) by exact Hi.
    destruct (decide (i = length script)) as [->|Hne].
    + rewrite list_lookup_insert_eq by (rewrite meas_after_length; exact Hk).
      rewrite lookup_app_r, Nat.sub_diag by lia. reflexivity.
    + rewrite list_lookup_insert_ne by congruence.
      rewrite meas_after_lookup by exact Hi.
      destruct (decide (i < length script)%nat) as [Hlt|Hge].
      * rewrite lookup_app_l by exact Hlt. reflexivity.
      * rewrite (lookup_ge_None_2 script) by lia.
        rewrite (lookup_ge_None_2 (script ++ [e]))
          by (rewrite length_app; simpl; lia).
        reflexivity.
  - rewrite !lookup_ge_None_2;
      rewrite ?length_insert, ?meas_after_length; [reflexivity|lia|lia].
Qed.

(** ** The MEASURING phase *)

Lemma measuring_inv_init stack : measuring_inv stack [] (init stack).
Proof. repeat split. Qed.

Lemma adc_pair_step e s script :
  (read_state s, adc_value s) = adc_run script (0, 0) ->
  (read_state (poll_adc e s), adc_value (poll_adc e s))
  = adc_run (script ++ [e]) (0, 0).
Proof.
  intros H. rewrite adc_run_snoc, <- H. simpl.
  apply poll_adc_fields.
Qed.

Lemma measuring_inv_step stack script e s :
  (S (length script) < measure_limit)%nat ->
  measuring_inv stack script s ->
  exists s', step e s = Some s' /\ measuring_inv stack (script ++ [e]) s'.
Proof.
  intros Hk (I1 & I2 & I3 & I4 & I5 & I6 & I7 & I8 & I9 & I10).
  unfold measure_limit, MAX_OPCODES in Hk.
  rewrite (step_measuring _ _ I4).
  pose proof (adc_pair_step e s script I10) as Hadc.
  destruct (poll_adc_fields e s)
    as (_ & P1 & P2 & P3 & P4 & P5 & P6 & P7 & P8 & P9).
  set (s1 := poll_adc e s) in *.
  destruct (advance_defined e s1) as [s' E].
  { rewrite P2, P3, I2, I3, meas_after_length. unfold MAX_OPCODES. lia. }
  { rewrite P1, P3, I1, I3, one_hot_length. unfold MAX_OPCODES. lia. }
  destruct (advance_fields _ _ _ E)
    as (A1 & A2 & A3 & A4 & A5 & A6 & A7 & A8 & A9 & A10 & A11 & _).
  exists s'. split.
  - unfold measuring. rewrite E. simpl.
    rewrite decide_False; [reflexivity|].
    rewrite A3, P3, I3. unfold measure_limit, MAX_OPCODES. lia.
  - assert (Hlen : length (script ++ [e]) = S (length script))
      by (rewrite length_app; simpl; lia).
    unfold measuring_inv. rewrite Hlen.
    repeat split; try congruence.
    + rewrite A1, P1, P3, I1, I3. apply one_hot_move.
    + rewrite A2, P2, P3, I2, I3. apply meas_after_snoc.
      unfold MAX_OPCODES. lia.
Qed.

Lemma run_measuring stack script :
  (length script < measure_limit)%nat ->
  exists s, run script (init stack) = Some s /\ measuring_inv stack script s.
Proof.
  induction script as [|e script IH] using rev_ind; intros Hk.
  - exists (init stack). split; [reflexivity|apply measuring_inv_init].
  - rewrite length_app in Hk. simpl in Hk.
    destruct IH as (s & E & Hinv); [lia|].
    destruct (measuring_inv_step stack script e s) as (s' & E' & Hinv');
      [lia|exact Hinv|].
    exists s'. split; [|exact Hinv'].
    rewrite run_snoc, E. exact E'.
Qed.

(** ** The hand-over from MEASURING to TESTING *)

Lemma candidate_target_bound ms p i j d :
  candidate ms p i j = Some d -> (j < frequencies_n)%nat.
Proof.
  unfold candidate. destruct (ms !! i); [simpl|discriminate].
  destruct (frequencies !! j) eqn:Hf; [|discriminate].
  intros _. exact (lookup_lt_Some _ _ _ Hf).
Qed.

Lemma handoff_defined s :
  (index s < length (measurements s))%nat ->
  (index s < length (opcodes s))%nat ->
  (best_index s < length (opcodes s))%nat ->
  (best_frequency s < frequencies_n)%nat ->
  is_Some (handoff s).
Proof.
  intros H1 H2 H3 H4. unfold handoff.
  destruct (lookup_lt_is_Some_2 _ _ H1) as [c ->]. simpl.
  rewrite (store_Some (opcodes s)) by exact H2. simpl.
  rewrite store_Some by (rewrite length_insert; exact H3). simpl.
  destruct (lookup_lt_is_Some_2 frequencies _ H4) as [d ->]. simpl.
  eexists. reflexivity.
Qed.

Lemma handoff_step stack script e s :
  S (length script) = measure_limit ->
  measuring_inv stack script s ->
  exists s', step e s = Some s' /\ testing_inv stack (script ++ [e]) s'.
Proof.
  intros Hk (I1 & I2 & I3 & I4 & I5 & I6 & I7 & I8 & I9 & I10).
  unfold measure_limit, MAX_OPCODES in Hk. simpl in Hk.
  rewrite (step_measuring _ _ I4).
  pose proof (adc_pair_step e s script I10) as Hadc.
  destruct (poll_adc_fields e s)
    as (_ & P1 & P2 & P3 & P4 & P5 & P6 & P7 & P8 & P9).
  set (s1 := poll_adc e s) in *.
  destruct (advance_defined e s1) as [s2 E].
  { rewrite P2, P3, I2, I3, meas_after_length. unfold MAX_OPCODES. lia. }
  { rewrite P1, P3, I1, I3, one_hot_length. unfold MAX_OPCODES. lia. }
  destruct (advance_fields _ _ _ E)
    as (A1 & A2 & A3 & A4 & A5 & A6 & A7 & A8 & A9 & A10 & A11 & _).
  assert (Hms : measurements s2 = meas_after stack (script ++ [e])).
  { rewrite A2, P2, P3, I2, I3. apply meas_after_snoc.
    unfold MAX_OPCODES. lia. }
  assert (Hops : opcodes s2 = one_hot (S (length script))).
  { rewrite A1, P1, P3, I1, I3. apply one_hot_move. }
  assert (Hidx : index s2 = S (length script)) by congruence.
  destruct (scan_spec s2 (measure_limit - 1)) as (s3 & E3 & F & B & W).
  { rewrite Hms, meas_after_length. unfold measure_limit, MAX_OPCODES. lia. }
  destruct F as (F1 & F2 & F3 & F4 & F5 & F6 & F7 & F8 & F9 & F10).
  assert (Hp : periods s2 = 100000) by congruence.
  assert (Hseed : best_diff s2 = seed) by congruence.
  assert (Hev : evaluated (meas_after stack (script ++ [e])) 100000
                  (measure_limit - 1) s3).
  { rewrite Hms, Hp in B. split.
    - intros i j d Hi. apply B. left. exact Hi.
    - destruct W as [(U1 & U2 & U3)|(Hlex & W1 & W2 & W3)].
      + left. repeat split; congruence.
      + right. rewrite Hms, Hp in W1, W3. rewrite Hseed in W2.
        repeat split; try assumption.
        destruct Hlex as [Hlt|[_ Hlt]]; [exact Hlt|lia]. }
  assert (Hbi : (best_index s3 < measure_limit - 1)%nat).
  { destruct Hev as [_ [(_ & -> & _)|(Hlt & _)]]; [|exact Hlt].
    unfold measure_limit, MAX_OPCODES. lia. }
  assert (Hbf : (best_frequency s3 < frequencies_n)%nat).
  { destruct Hev as [_ [(_ & _ & ->)|(_ & Hc & _)]].
    - unfold frequencies_n. simpl. lia.
    - exact (candidate_target_bound _ _ _ _ _ Hc). }
  unfold measure_limit, MAX_OPCODES in Hbi. simpl in Hbi.
  destruct (handoff_defined s3) as [s4 E4].
  { rewrite F2, F3, Hms, Hidx, meas_after_length. unfold MAX_OPCODES. lia. }
  { rewrite F1, F3, Hops, Hidx, one_hot_length. unfold MAX_OPCODES. lia. }
  { rewrite F1, Hops, one_hot_length. unfold MAX_OPCODES. lia. }
  { exact Hbf. }
  destruct (handoff_fields _ _ E4)
    as (H1 & H2 & H3 & H4 & H5 & H6 & H7 & H8 & H9 & H10 & H11 & c & Hc & H12).
  exists s4. split.
  - unfold measuring. rewrite E. simpl.
    rewrite decide_True by (rewrite Hidx; exact Hk).
    unfold evaluate. rewrite E3. simpl. exact E4.
  - unfold testing_inv. rewrite H4.
    split; [exact H1|]. split; [exact H2|]. split; [exact H3|].
    split; [rewrite H10, F1, F3, Hops, Hidx, H3; apply one_hot_move|].
    split; [rewrite H3; exact Hbi|].
    split; [congruence|].
    split.
    { rewrite H12, F6, Hp. f_equal.
      rewrite F2, F3, Hms, Hidx, Hk in Hc.
      rewrite meas_after_lookup in Hc
        by (unfold measure_limit, MAX_OPCODES; lia).
      rewrite lookup_ge_None_2 in Hc
        by (rewrite length_app; simpl; unfold measure_limit, MAX_OPCODES; lia).
      injection Hc as <-. reflexivity. }
    split; [rewrite H5; exact H11|].
    split; [|congruence].
    unfold evaluated in *. rewrite H4, H5, H6. exact Hev.
Qed.

(** ** Single steps from an arbitrary state *)

Lemma step_idle e s :
  ready_state s <> MEASURING -> ready_state s <> TESTING ->
  step e s = Some (poll_adc e s).
Proof.
  intros H2 H1. unfold step.
  destruct (poll_adc_fields e s) as (_ & _ & _ & _ & -> & _).
  unfold MEASURING, TESTING in *.
  destruct (ready_state s) as [|p|p]; try reflexivity.
  destruct p as [p|p|]; try reflexivity; [|contradiction].
  destruct p; try reflexivity. contradiction.
Qed.

Lemma measuring_fields e s s' :
  measuring e s = Some s' ->
  read_state s' = read_state s /\ adc_value s' = adc_value s /\
  ((ready_state s' = ready_state s /\ index s' = S (index s) /\
    S (index s) <> measure_limit)
   \/ (ready_state s' = TESTING /\ S (index s) = measure_limit)).
Proof.
  unfold measuring.
  destruct (advance e s) as [s1|] eqn:E; [simpl|discriminate].
  destruct (advance_fields _ _ _ E)
    as (_ & _ & A3 & A4 & A5 & _ & A7 & _).
  destruct (decide (index s1 = measure_limit)) as [Hlim|Hlim].
  - unfold evaluate.
    destruct (scan _ s1) as [s2|] eqn:E2; [simpl|discriminate].
    destruct (scan_frame _ _ _ E2) as (_ & _ & _ & F4 & _ & _ & F7 & _).
    intros E3.
    destruct (handoff_fields _ _ E3) as (H1 & _ & _ & _ & _ & _ & H7 & H8 & _).
    split; [congruence|]. split; [congruence|].
    right. split; [exact H1|congruence].
  - intros [= <-]. split; [exact A4|]. split; [exact A7|].
    left. split; [exact A5|]. split; [exact A3|congruence].
Qed.

(** The first switch acts on the ADC variables, the second leaves them. *)
Lemma step_adc e s s' :
  step e s = Some s' ->
  (read_state s', adc_value s') = adc_step e (read_state s) (adc_value s).
Proof.
  intros E.
  destruct (poll_adc_fields e s) as (<- & _).
  destruct (decide (ready_state s = MEASURING)) as [H2|H2].
  { rewrite (step_measuring _ _ H2) in E.
    destruct (measuring_fields _ _ _ E) as (-> & -> & _). reflexivity. }
  destruct (decide (ready_state s = TESTING)) as [H1|H1].
  { rewrite (step_testing _ _ H1) in E.
    destruct (testing_fields _ _ _ E) as (_ & _ & _ & _ & -> & -> & _).
    reflexivity. }
  rewrite (step_idle _ _ H2 H1) in E. injection E as <-. reflexivity.
Qed.

(** How the phase variable can change in one iteration, from any state. *)
Lemma step_phase e s s' :
  step e s = Some s' ->
  (ready_state s = MEASURING ->
   ready_state s' = MEASURING \/ ready_state s' = TESTING) /\
  (ready_state s = TESTING -> ready_state s' = BROADCASTING) /\
  (ready_state s = BROADCASTING -> ready_state s' = BROADCASTING) /\
  (ready_state s <> MEASURING ->
   ready_state s' <> MEASURING /\ index s' = index s /\
   opcodes s' = opcodes s).
Proof.
  intros E.
  destruct (poll_adc_fields e s) as (_ & P1 & _ & P3 & P4 & _).
  destruct (decide (ready_state s = MEASURING)) as [H2|H2].
  { rewrite (step_measuring _ _ H2) in E.
    destruct (measuring_fields _ _ _ E) as (_ & _ & [(M & _)|(M & _)]);
      unfold MEASURING, TESTING, BROADCASTING in *.
    - split; [intros _; left; congruence|].
      split; [intros ?; congruence|].
      split; [intros ?; congruence|]. intros ?; congruence.
    - split; [intros _; right; exact M|].
      split; [intros ?; congruence|].
      split; [intros ?; congruence|]. intros ?; congruence. }
  destruct (decide (ready_state s = TESTING)) as [H1|H1].
  { rewrite (step_testing _ _ H1) in E.
    destruct (testing_fields _ _ _ E) as (T1 & T2 & T3 & _).
    unfold MEASURING, TESTING, BROADCASTING in *.
    split; [intros ?; congruence|].
    split; [intros _; exact T1|].
    split; [intros ?; congruence|]. intros _.
    split; [rewrite T1; discriminate|]. split; congruence. }
  rewrite (step_idle _ _ H2 H1) in E. injection E as <-.
  split; [intros ?; contradiction|].
  split; [intros ?; contradiction|].
  split; [intros ?; congruence|]. intros _.
  split; [congruence|]. split; congruence.
Qed.

Lemma run_adc script s s' :
  run script s = Some s' ->
  (read_state s', adc_value s') = adc_run script (read_state s, adc_value s).
Proof.
  revert s. induction script as [|e script IH]; intros s; simpl.
  - intros [= <-]. reflexivity.
  - destruct (step e s) as [s1|] eqn:E; [simpl|discriminate].
    intros H. rewrite (IH _ H), (step_adc _ _ _ E). reflexivity.
Qed.

(** ** Whole runs *)

Lemma run_cases stack script s :
  run script (init stack) = Some s ->
  ((length script < measure_limit)%nat /\ measuring_inv stack script s) \/
  (length script = measure_limit /\ testing_inv stack script s) \/
  ((measure_limit < length script)%nat /\ broadcasting_inv stack script s).
Proof.
  revert s. induction script as [|e script IH] using rev_ind; intros s'.
  - intros [= <-]. left. split; [|apply measuring_inv_init].
    unfold measure_limit, MAX_OPCODES. simpl. lia.
  - rewrite run_snoc, length_app. simpl.
    destruct (run script (init stack)) as [s|] eqn:E; [simpl|discriminate].
    intros E'.
    destruct (IH s eq_refl) as [[Hlen Hinv]|[[Hlen Hinv]|[Hlen Hinv]]].
    + destruct (decide (S (length script) = measure_limit)) as [Heq|Hne].
      * destruct (handoff_step stack script e s Heq Hinv) as (s1 & E1 & Hinv1).
        rewrite E1 in E'. injection E' as <-.
        right. left. split; [lia|exact Hinv1].
      * destruct (measuring_inv_step stack script e s) as (s1 & E1 & Hinv1);
          [lia|exact Hinv|].
        rewrite E1 in E'. injection E' as <-.
        left. split; [lia|exact Hinv1].
    + right. right. split; [lia|].
      destruct Hinv as (T1 & Hrest).
      rewrite (step_testing _ _ T1) in E'.
      destruct (testing_fields _ _ _ E') as (B1 & B2 & B3 & _).
      destruct (poll_adc_fields e s) as (_ & P1 & _ & P3 & _).
      split; [exact B1|]. exists s.
      rewrite take_app_length' by (symmetry; exact Hlen).
      split; [exact E|]. split; [split; assumption|].
      split; congruence.
    + right. right. split; [lia|].
      destruct Hinv as (B1 & s0 & E0 & Hinv0 & B2 & B3).
      rewrite (step_broadcasting _ _ B1) in E'. injection E' as <-.
      destruct (poll_adc_fields e s) as (_ & P1 & _ & P3 & P4 & _).
      split; [congruence|]. exists s0.
      rewrite take_app_le by lia.
      split; [exact E0|]. split; [exact Hinv0|]. split; congruence.
Qed.

(** MEASURING and the hand-over are always defined. *)
Lemma run_defined_upto_testing stack script :
  (length script <= measure_limit)%nat ->
  is_Some (run script (init stack)).
Proof.
  intros Hlen.
  destruct (decide (length script = measure_limit)) as [Heq|Hne].
  - destruct script as [|e script _] using rev_ind; [discriminate|].
    rewrite length_app in Heq. simpl in Heq.
    destruct (run_measuring stack script) as (s & E & Hinv); [lia|].
    destruct (handoff_step stack script e s) as (s' & E' & _);
      [lia|exact Hinv|].
    exists s'. rewrite run_snoc, E. exact E'.
  - destruct (run_measuring stack script) as (s & E & _); [lia|].
    exists s. exact E.
Qed.

(** Once BROADCASTING, no later iteration is undefined. *)
Lemma run_defined_broadcasting stack script more :
  (measure_limit < length script)%nat ->
  is_Some (run script (init stack)) ->
  is_Some (run (script ++ more) (init stack)).
Proof.
  intros Hlen. induction more as [|e more IH] using rev_ind.
  - rewrite app_nil_r. exact id.
  - intros Hs. destruct (IH Hs) as [s E].
    destruct (run_cases _ _ _ E) as [[Hl _]|[[Hl _]|[_ (B & _)]]];
      try (rewrite length_app in Hl; lia).
    rewrite app_assoc, run_snoc, E. simpl.
    rewrite (step_broadcasting _ _ B). eexists. reflexivity.
Qed.

(** The TESTING iteration is defined exactly when its elapsed time is not
    zero. *)
Lemma testing_step_defined e s :
  ready_state s = TESTING -> periods s = 250000 ->
  is_Some (step e s) <-> elapsed e <> 0.
Proof.
  intros H1 Hp. rewrite (step_testing _ _ H1). unfold testing.
  destruct (poll_adc_fields e s) as (_ & _ & _ & _ & _ & -> & _).
  rewrite Hp, <- final_periods_defined_iff.
  destruct (final_periods _ sample_rate) as [p|]; simpl.
  - split; intros _; eexists; reflexivity.
  - split; intros [? ?]; discriminate.
Qed.

(** X2.  The loop is defined on a script exactly when the elapsed time of
    its TESTING iteration, the one after the 79 MEASURING iterations, is not
    zero (a script too short to reach TESTING is always defined). *)
Theorem loop_defined_iff (stack : nat -> Z) (script : list Env) :
  is_Some (run script (init stack))
  <-> (forall e, script !! measure_limit = Some e -> elapsed e <> 0).
Proof.
  destruct (script !! measure_limit) as [e|] eqn:Hl.
  - pose proof (take_drop_middle _ _ _ Hl) as Hsplit.
    pose proof (lookup_lt_Some _ _ _ Hl) as Hlen.
    assert (Htake : length (take measure_limit script) = measure_limit)
      by (rewrite length_take; lia).
    destruct (run_defined_upto_testing stack (take measure_limit script))
      as [s0 E0]; [lia|].
    destruct (run_cases _ _ _ E0) as [[Hc _]|[[_ Hinv]|[Hc _]]]; [lia| |lia].
    destruct Hinv as (T1 & T2 & _).
    rewrite <- Hsplit at 1.
    change (e :: drop (S measure_limit) script)
      with ([e] ++ drop (S measure_limit) script).
    rewrite app_assoc. split.
    + intros Hsome e' [= <-]. apply (testing_step_defined e s0 T1 T2).
      rewrite run_app, run_snoc, E0 in Hsome. simpl in Hsome.
      destruct (step e s0) as [s1|]; [eexists; reflexivity|].
      destruct Hsome as [? ?]. discriminate.
    + intros Hne.
      destruct (proj2 (testing_step_defined e s0 T1 T2) (Hne e eq_refl))
        as [s1 E1].
      apply run_defined_broadcasting.
      * rewrite length_app, Htake. simpl length. lia.
      * exists s1. rewrite run_snoc, E0. exact E1.
  - apply lookup_ge_None_1 in Hl. split; [intros _ e; discriminate|].
    intros _. apply run_defined_upto_testing. exact Hl.
Qed.

(** ** Evaluation of the bench script *)

Lemma bench_run_3 : run (bench_script 3) (init clean_stack) = Some bench_3.
Proof. vm_compute. reflexivity. Qed.

Lemma bench_step_4 : step (bench 3) bench_3 = Some bench_4.
Proof. vm_compute. reflexivity. Qed.

Lemma bench_run_79 : run (bench_script 79) (init clean_stack) = Some bench_79.
Proof. vm_compute. reflexivity. Qed.

Lemma bench_step_80 : step (bench 79) bench_79 = Some bench_80.
Proof. vm_compute. reflexivity. Qed.

Lemma bench_step_81 : step (bench 80) bench_80 = Some bench_81.
Proof. vm_compute. reflexivity. Qed.

Lemma bench_run_80 : run (bench_script 80) (init clean_stack) = Some bench_80.
Proof.
  change (bench_script 80) with (bench_script 79 ++ [bench 79]).
  rewrite run_snoc, bench_run_79. exact bench_step_80.
Qed.

Lemma bench_run_81 : run (bench_script 81) (init clean_stack) = Some bench_81.
Proof.
  change (bench_script 81) with (bench_script 80 ++ [bench 80]).
  rewrite run_snoc, bench_run_80. exact bench_step_81.
Qed.

(** ** The broadcast controller (claim C7) *)

(** C7.  The controller starts in MEASURING.  After any script on which the
    loop is defined, the phase is a function of the number of iterations
    alone: MEASURING for fewer than 79, TESTING after exactly 79 (the
    iteration in which [++index] reaches [measure_limit]), BROADCASTING from
    80 on, so TESTING runs exactly once and BROADCASTING is reached exactly
    after MEASURING completed and TESTING ran.  From the state reached a
    further iteration never enters MEASURING from another phase, leaves
    MEASURING only for TESTING and only when the incremented index equals
    [measure_limit], leaves TESTING only for BROADCASTING, and never leaves
    BROADCASTING.  An iteration is always defined in MEASURING and in
    BROADCASTING; the TESTING iteration is defined exactly when its
    elapsed time is not zero (a zero elapsed time makes the repeat count
    infinite, and its conversion to [int] undefined). *)
Theorem controller_phases (stack : nat -> Z) (script : list Env) (s : State) :
  run script (init stack) = Some s ->
  ready_state (init stack) = MEASURING /\
  ready_state s = phase_after (length script) /\
  (forall e s', step e s = Some s' ->
     (ready_state s = MEASURING ->
        (ready_state s' = TESTING <-> S (index s) = measure_limit) /\
        (ready_state s' = MEASURING <-> S (index s) <> measure_limit)) /\
     (ready_state s = TESTING -> ready_state s' = BROADCASTING) /\
     (ready_state s = BROADCASTING -> ready_state s' = BROADCASTING) /\
     (ready_state s <> MEASURING -> ready_state s' <> MEASURING)) /\
  (ready_state s = MEASURING -> forall e, is_Some (step e s)) /\
  (ready_state s = BROADCASTING -> forall e, is_Some (step e s)) /\
  (ready_state s = TESTING -> forall e,
     is_Some (step e s) <-> elapsed e <> 0).
Proof.
  intros E. split; [reflexivity|]. split; [|split; [|split; [|split]]].
  - unfold phase_after.
    destruct (run_cases _ _ _ E) as [[Hl (_&_&_&H&_)]|[[Hl (H&_)]|[Hl (H&_)]]];
      rewrite H.
    + apply Nat.ltb_lt in Hl. rewrite Hl. reflexivity.
    + rewrite Hl, Nat.ltb_irrefl, Nat.eqb_refl. reflexivity.
    + destruct (Nat.ltb_spec (length script) measure_limit); [lia|].
      destruct (Nat.eqb_spec (length script) measure_limit); [lia|].
      reflexivity.
  - intros e s' E'.
    destruct (step_phase _ _ _ E') as (_ & H1 & H0 & Hn).
    split; [|split; [exact H1|split; [exact H0|apply Hn]]].
    intros H2. rewrite (step_measuring _ _ H2) in E'.
    destruct (poll_adc_fields e s) as (_ & _ & _ & P3 & P4 & _).
    destruct (measuring_fields _ _ _ E') as (_ & _ & [(M & _ & Hne)|(M & Heq)]);
      rewrite P3 in *; rewrite ?P4, ?H2 in M; rewrite M;
      unfold MEASURING, TESTING; split; split; intros H;
      try discriminate; try contradiction; try reflexivity; try assumption.
  - intros H2 e.
    destruct (run_cases _ _ _ E) as [[Hl Hinv]|[[_ (H&_)]|[_ (H&_)]]];
      try (rewrite H in H2; discriminate).
    destruct (decide (S (length script) = measure_limit)) as [Heq|Hne].
    + destruct (handoff_step stack script e s Heq Hinv) as (s' & -> & _).
      eexists. reflexivity.
    + destruct (measuring_inv_step stack script e s) as (s' & -> & _);
        [lia|exact Hinv|]. eexists. reflexivity.
  - intros H0 e. rewrite (step_broadcasting _ _ H0). eexists. reflexivity.
  - intros H1 e.
    destruct (run_cases _ _ _ E) as [[_ (_&_&_&H&_)]|[[_ (_&Hp&_)]|[_ (H&_)]]];
      try (rewrite H in H1; discriminate).
    exact (testing_step_defined e s H1 Hp).
Qed.

Lemma controller_phases_witness :
  run (bench_script 81) (init clean_stack) = Some bench_81 /\
  ready_state bench_81 = phase_after 81 /\
  phase_after 81 = BROADCASTING.
Proof.
  split; [exact bench_run_81|]. split; [|reflexivity].
  exact (proj1 (proj2 (controller_phases clean_stack (bench_script 81) _
                         bench_run_81))).
Defined.

(** ** The opcode buffer along a run (claim C8) *)

(** C8.  At every iteration boundary the buffer has its 80 slots, exactly
    one of them holds the return word 0x4770, the 79 others hold the no-op
    word 0xBF00, and the return word sits at slot [index].  During
    measurement [index] is the number of iterations run, so it advances by
    one slot per iteration; from the hand-over on it is the winning offset
    [best_index] found by the evaluation pass and never changes again: an
    iteration outside MEASURING leaves [index] and the buffer as they are. *)
Theorem opcode_buffer_invariant (stack : nat -> Z) (script : list Env)
  (s : State) :
  run script (init stack) = Some s ->
  length (opcodes s) = MAX_OPCODES /\
  count_occ Z.eq_dec (opcodes s) RET = 1%nat /\
  count_occ Z.eq_dec (opcodes s) NOP = (MAX_OPCODES - 1)%nat /\
  opcodes s !! index s = Some RET /\
  ((length script < measure_limit)%nat -> index s = length script) /\
  ((measure_limit <= length script)%nat ->
   exists s0, run (take measure_limit script) (init stack) = Some s0 /\
              index s = best_index s0) /\
  (forall e s', step e s = Some s' ->
     (ready_state s <> MEASURING ->
        index s' = index s /\ opcodes s' = opcodes s) /\
     (ready_state s = MEASURING -> S (index s) <> measure_limit ->
        index s' = S (index s))).
Proof.
  intros E.
  assert (Hhot : opcodes s = one_hot (index s) /\ (index s < MAX_OPCODES)%nat).
  { unfold measure_limit, MAX_OPCODES in *.
    destruct (run_cases _ _ _ E)
      as [[Hl (H1&_&H3&_)]|[[Hl (_&_&_&H4&H5&_)]|[Hl (_&s0&_&Hinv&B2&B3)]]].
    - rewrite H3. split; [exact H1|]. unfold measure_limit, MAX_OPCODES in Hl. lia.
    - split; [exact H4|]. unfold measure_limit, MAX_OPCODES in H5. lia.
    - destruct Hinv as (_&_&_&H4&H5&_). rewrite B2, B3.
      split; [exact H4|]. unfold measure_limit, MAX_OPCODES in H5. lia. }
  destruct Hhot as [Hops Hidx].
  destruct (one_hot_counts _ Hidx) as [Hret Hnop].
  split; [rewrite Hops; apply one_hot_length|].
  split; [rewrite Hops; exact Hret|].
  split; [rewrite Hops; exact Hnop|].
  split.
  { rewrite Hops at 1. rewrite one_hot_lookup by assumption.
    rewrite decide_True by reflexivity. reflexivity. }
  split; [|split].
  - intros Hl.
    destruct (run_cases _ _ _ E) as [[_ (_&_&H3&_)]|[[Hl' _]|[Hl' _]]];
      [exact H3|lia|lia].
  - intros Hl.
    destruct (run_cases _ _ _ E)
      as [[Hl' _]|[[Hl' (_&_&H3&_)]|[_ (_&s0&E0&Hinv&B2&_)]]]; [lia| |].
    + exists s. rewrite take_ge by lia. split; [exact E|exact H3].
    + exists s0. destruct Hinv as (_&_&H3&_).
      split; [exact E0|congruence].
  - intros e s' E'. split.
    + intros Hne. apply (step_phase _ _ _ E'). exact Hne.
    + intros H2 Hne. rewrite (step_measuring _ _ H2) in E'.
      destruct (poll_adc_fields e s) as (_ & _ & _ & P3 & _).
      destruct (measuring_fields _ _ _ E') as (_ & _ & [(_ & M & _)|(_ & M)]);
        rewrite P3 in M; [exact M|contradiction].
Qed.

Lemma opcode_buffer_invariant_witness :
  run (bench_script 81) (init clean_stack) = Some bench_81 /\
  count_occ Z.eq_dec (opcodes bench_81) RET = 1%nat /\
  opcodes bench_81 !! index bench_81 = Some RET /\
  index bench_81 = 19%nat.
Proof.
  pose proof (opcode_buffer_invariant clean_stack (bench_script 81) _
                bench_run_81) as (_ & H1 & _ & H3 & _).
  split; [exact bench_run_81|]. split; [exact H1|]. split; [exact H3|].
  reflexivity.
Defined.

(** ** The ADC polling machine along a run (claim C9) *)

Lemma adc_step_range e rs v :
  0 <= rs <= 3 ->
  0 <= fst (adc_step e rs v) <= 3 /\ fst (adc_step e rs v) <= rs + 1.
Proof.
  intros H.
  assert (rs = 0 \/ rs = 1 \/ rs = 2 \/ rs = 3) as [-> | [-> | [-> | ->]]] by lia;
    simpl; [lia| | |lia].
  - destruct (adc_active e); simpl; lia.
  - destruct (adc_coco e); simpl; lia.
Qed.

Lemma adc_run_range script st :
  0 <= fst st <= 3 -> 0 <= fst (adc_run script st) <= 3.
Proof.
  revert st. induction script as [|e script IH]; intros st H; simpl;
    [exact H|].
  apply IH. apply adc_step_range. exact H.
Qed.

Lemma adc_value_kept e rs v : rs <> 3 -> snd (adc_step e rs v) = v.
Proof.
  intros H. unfold adc_step.
  destruct rs as [|p|p]; try reflexivity.
  destruct p as [p|p|]; try reflexivity.
  - destruct p; try reflexivity. contradiction.
  - destruct p; try reflexivity. destruct (adc_coco e); reflexivity.
  - destruct (negb (adc_active e)); reflexivity.
Qed.

Lemma adc_no_latch script st :
  ~ In 3 (adc_states script st) -> snd (adc_run script st) = snd st.
Proof.
  revert st. induction script as [|e script IH]; intros st H; simpl;
    [reflexivity|].
  simpl in H. rewrite IH by tauto. apply adc_value_kept. tauto.
Qed.

Lemma adc_states_early script st :
  0 <= fst st -> fst st + Z.of_nat (length script) <= 3 ->
  ~ In 3 (adc_states script st).
Proof.
  revert st. induction script as [|e script IH]; intros st H0 H; simpl;
    [tauto|].
  simpl length in H. intros [Heq|Hin]; [lia|].
  revert Hin. apply IH.
  - apply adc_step_range. lia.
  - pose proof (adc_step_range e (fst st) (snd st)). lia.
Qed.

(** C9.  In every iteration of the control loop the polling machine makes
    exactly one [adc_step]: it either stays in its state or moves to the
    next one in the cycle 0 (START_CONVERSION), 1 (WAIT_ACTIVE),
    2 (WAIT_COMPLETE), 3 (LATCH_VALUE), 0, whatever the peripheral flags of
    the script are.  The latest value changes only in an iteration that
    finds the machine in LATCH_VALUE, where it becomes the result register;
    START_CONVERSION is only ever entered from LATCH_VALUE; and as long as no
    iteration has found the machine in LATCH_VALUE (in particular during the
    first three iterations) the latest value is 0. *)
Theorem adc_machine (stack : nat -> Z) (script : list Env) (s : State)
  (e : Env) (s' : State) :
  run script (init stack) = Some s ->
  step e s = Some s' ->
  0 <= read_state s <= 3 /\
  (read_state s', adc_value s') = adc_step e (read_state s) (adc_value s) /\
  (read_state s' = read_state s \/ read_state s' = (read_state s + 1) mod 4) /\
  (read_state s = 0 -> read_state s' = 1) /\
  (read_state s = 1 -> read_state s' = if adc_active e then 1 else 2) /\
  (read_state s = 2 -> read_state s' = if adc_coco e then 3 else 2) /\
  (read_state s = 3 ->
     read_state s' = 0 /\ adc_value s' = wrap32 (adc_result e)) /\
  (read_state s <> 3 -> adc_value s' = adc_value s) /\
  (read_state s' = 0 -> read_state s = 3) /\
  (~ In 3 (adc_states script (0, 0)) -> adc_value s = 0) /\
  ((length script <= 3)%nat -> adc_value s = 0).
Proof.
  intros E E'.
  pose proof (run_adc _ _ _ E) as Hrun. simpl in Hrun.
  pose proof (step_adc _ _ _ E') as Hstep.
  assert (Hrange : 0 <= read_state s <= 3).
  { change (read_state s) with (fst (read_state s, adc_value s)).
    rewrite Hrun. apply adc_run_range. simpl. lia. }
  assert (Hlatch : ~ In 3 (adc_states script (0, 0)) -> adc_value s = 0).
  { intros H. change (adc_value s) with (snd (read_state s, adc_value s)).
    rewrite Hrun. exact (adc_no_latch _ _ H). }
  split; [exact Hrange|]. split; [exact Hstep|].
  assert (Hrs : read_state s' = fst (adc_step e (read_state s) (adc_value s)))
    by (rewrite <- Hstep; reflexivity).
  assert (Hv : adc_value s' = snd (adc_step e (read_state s) (adc_value s)))
    by (rewrite <- Hstep; reflexivity).
  repeat split.
  - assert (read_state s = 0 \/ read_state s = 1 \/ read_state s = 2
            \/ read_state s = 3) as [H | [H | [H | H]]] by lia;
      rewrite Hrs, H; simpl.
    + right. reflexivity.
    + destruct (adc_active e); simpl; [left|right]; reflexivity.
    + destruct (adc_coco e); simpl; [right|left]; reflexivity.
    + right. reflexivity.
  - intros H. rewrite Hrs, H. reflexivity.
  - intros H. rewrite Hrs, H. simpl. destruct (adc_active e); reflexivity.
  - intros H. rewrite Hrs, H. simpl. destruct (adc_coco e); reflexivity.
  - rewrite Hrs, H. reflexivity.
  - rewrite Hv, H. reflexivity.
  - intros H. rewrite Hv. apply adc_value_kept. exact H.
  - intros H0. rewrite Hrs in H0.
    assert (read_state s = 0 \/ read_state s = 1 \/ read_state s = 2
            \/ read_state s = 3) as [H | [H | [H | H]]] by lia;
      rewrite H in H0; simpl in H0; try discriminate; try assumption.
    + destruct (adc_active e); discriminate.
    + destruct (adc_coco e); discriminate.
  - exact Hlatch.
  - intros Hlen. apply Hlatch. apply adc_states_early; simpl; lia.
Qed.

Lemma adc_machine_witness :
  run (bench_script 3) (init clean_stack) = Some bench_3 /\
  step (bench 3) bench_3 = Some bench_4 /\
  read_state bench_3 = 3 /\
  adc_value bench_3 = 0 /\
  read_state bench_4 = 0 /\
  adc_value bench_4 = 40000.
Proof.
  pose proof (adc_machine clean_stack (bench_script 3) _ (bench 3) _
                bench_run_3 bench_step_4)
    as (_ & _ & _ & _ & _ & _ & Hl & _ & _ & _ & Hz).
  destruct (Hl eq_refl) as [H0 Hv].
  split; [exact bench_run_3|]. split; [exact bench_step_4|].
  split; [reflexivity|].
  split; [apply Hz; simpl; lia|]. split; [exact H0|].
  rewrite Hv. reflexivity.
Defined.

(** ** Rounding to nearest in [SpecFloat] *)

Lemma new_location_inbetween n q k :
  0 <= k < n -> inbetween (q * n + k) n q (new_location n k).
Proof.
  intros Hk. unfold new_location, new_location_even, new_location_odd.
  destruct (Z.even n) eqn:Ev.
  - destruct (Z.eqb_spec k 0) as [->|Hne]; simpl; [lia|].
    destruct (Z.compare_spec (2 * k) n); simpl; lia.
  - destruct (Z.eqb_spec k 0) as [->|Hne]; simpl; [lia|].
    assert (Hodd : Z.odd n = true) by (rewrite <- Z.negb_even, Ev; reflexivity).
    apply Z.odd_spec in Hodd as [c Hc].
    destruct (Z.compare_spec (2 * k + 1) n); simpl; lia.
Qed.

Lemma loc_of_shr_record_of_loc m l :
  loc_of_shr_record (shr_record_of_loc m l) = l.
Proof. destruct l as [|[ | | ]]; reflexivity. Qed.

Lemma shr_1_inbetween A B mrs :
  0 < B -> 0 <= shr_m mrs ->
  inbetween A B (shr_m mrs) (loc_of_shr_record mrs) ->
  inbetween A (2 * B) (shr_m (shr_1 mrs)) (loc_of_shr_record (shr_1 mrs)).
Proof.
  intros HB Hm. destruct mrs as [m r s]. cbn [shr_m] in *.
  destruct m as [|[p|p|]|p]; try lia;
    destruct r, s; cbn [shr_1 shr_m loc_of_shr_record orb inbetween];
    try (assert (E1 : Z.pos p~1 = 2 * Z.pos p + 1) by reflexivity;
         rewrite E1; clear E1);
    try (assert (E0 : Z.pos p~0 = 2 * Z.pos p) by reflexivity;
         rewrite E0; clear E0);
    intros H; lia.
Qed.

Lemma shr_iter_inbetween A p : forall B mrs,
  0 < B -> 0 <= shr_m mrs ->
  inbetween A B (shr_m mrs) (loc_of_shr_record mrs) ->
  inbetween A (2 ^ Zpos p * B)
    (shr_m (SpecFloat.iter_pos shr_1 p mrs))
    (loc_of_shr_record (SpecFloat.iter_pos shr_1 p mrs)).
Proof.
  induction p as [p IH|p IH|]; intros B mrs HB Hm H;
    cbn [SpecFloat.iter_pos].
  - assert (Hp : 0 < 2 ^ Zpos p) by (apply Z.pow_pos_nonneg; lia).
    pose proof (shr_1_inbetween A B mrs HB Hm H) as H1.
    assert (Hm1 : 0 <= shr_m (shr_1 mrs)).
    { rewrite shr_1_m by assumption. apply Z.div_pos; lia. }
    pose proof (IH (2 * B) (shr_1 mrs) ltac:(lia) Hm1 H1) as H2.
    assert (Hm2 : 0 <= shr_m (SpecFloat.iter_pos shr_1 p (shr_1 mrs))).
    { rewrite shr_iter_m by assumption. apply Z.div_pos; lia. }
    pose proof (IH (2 ^ Z.pos p * (2 * B)) _ ltac:(lia) Hm2 H2) as H3.
    rewrite pow2_xI.
    replace (2 * (2 ^ Z.pos p * 2 ^ Z.pos p) * B)
      with (2 ^ Z.pos p * (2 ^ Z.pos p * (2 * B))) by ring.
    exact H3.
  - assert (Hp : 0 < 2 ^ Zpos p) by (apply Z.pow_pos_nonneg; lia).
    pose proof (IH _ _ HB Hm H) as H2.
    assert (Hm2 : 0 <= shr_m (SpecFloat.iter_pos shr_1 p mrs)).
    { rewrite shr_iter_m by assumption. apply Z.div_pos; lia. }
    pose proof (IH (2 ^ Z.pos p * B) _ ltac:(lia) Hm2 H2) as H3.
    rewrite pow2_xO.
    replace (2 ^ Z.pos p * 2 ^ Z.pos p * B)
      with (2 ^ Z.pos p * (2 ^ Z.pos p * B)) by ring.
    exact H3.
  - change (2 ^ 1) with 2. apply shr_1_inbetween; assumption.
Qed.

Lemma round_nearest_even_near A B m l :
  0 < B -> inbetween A B m l ->
  - B <= 2 * (A - round_nearest_even m l * B) <= B.
Proof.
  intros HB. unfold round_nearest_even.
  destruct l as [|[ | | ]]; cbn [inbetween]; intros H; try lia.
  destruct (Z.even m); lia.
Qed.

Lemma shr_inbetween A B m l e n :
  0 <= n -> 0 < B -> 0 <= m -> inbetween A B m l ->
  snd (shr (shr_record_of_loc m l) e n) = e + n /\
  shr_m (fst (shr (shr_record_of_loc m l) e n)) = m / 2 ^ n /\
  inbetween A (2 ^ n * B) (m / 2 ^ n)
    (loc_of_shr_record (fst (shr (shr_record_of_loc m l) e n))).
Proof.
  intros Hn HB Hm H.
  pose proof (shr_spec (shr_record_of_loc m l) e n) as Hs.
  rewrite shr_record_of_loc_m in Hs. specialize (Hs Hm).
  rewrite Z.max_l in Hs by lia. destruct Hs as [Hs1 Hs2].
  split; [exact Hs2|]. split; [exact Hs1|].
  rewrite <- Hs1. unfold shr. destruct n as [|p|p]; cbn [fst]; [| |lia].
  - rewrite loc_of_shr_record_of_loc, shr_record_of_loc_m.
    change (2 ^ 0) with 1. rewrite Z.mul_1_l. exact H.
  - apply shr_iter_inbetween; [exact HB| |].
    + rewrite shr_record_of_loc_m. exact Hm.
    + rewrite loc_of_shr_record_of_loc, shr_record_of_loc_m. exact H.
Qed.

Lemma Zdigits2_24 z : 2 ^ 23 <= z < 2 ^ 24 -> Zdigits2 z = 24.
Proof.
  intros [H1 H2].
  pose proof (Zdigits2_upper z 24 ltac:(lia) ltac:(lia)).
  pose proof (Zdigits2_lower z 23 ltac:(lia) H1). lia.
Qed.

(** Rounding a number [A / B * 2^e] that lies in [[m, m + 1) * 2^e], with
    [m] of at least 24 digits and the result in the normal range: the
    result is the nearest float, its mantissa [mr0] has 24 digits (or is
    2^24, which is stored as 2^23 one exponent up). *)
Lemma round_aux_nearest s m e l A B :
  0 < B -> 0 < m -> inbetween A B m l ->
  24 <= Zdigits2 m -> -149 <= Zdigits2 m + e - 24 -> Zdigits2 m + e <= 127 ->
  exists mr0 : Z,
    2 ^ 23 <= mr0 <= 2 ^ 24 /\
    m / 2 ^ (Zdigits2 m - 24) <= mr0 <= m / 2 ^ (Zdigits2 m - 24) + 1 /\
    - (2 ^ (Zdigits2 m - 24) * B)
    <= 2 * (A - mr0 * (2 ^ (Zdigits2 m - 24) * B))
    <= 2 ^ (Zdigits2 m - 24) * B /\
    binary_round_aux prec emax s m e l
    = if decide (mr0 < 2 ^ 24)
      then S754_finite s (Z.to_pos mr0) (e + (Zdigits2 m - 24))
      else S754_finite s 8388608 (e + (Zdigits2 m - 24) + 1).
Proof.
  intros HB Hm Hin Hd Hlo Hhi.
  set (d := Zdigits2 m) in *. set (n := d - 24).
  assert (Hn : 0 <= n) by (unfold n; lia).
  pose proof (Zdigits2_bounds m Hm) as [Hml Hmu]. fold d in Hml, Hmu.
  assert (Hp : 0 < 2 ^ n) by (apply Z.pow_pos_nonneg; lia).
  assert (Hm1 : 2 ^ 23 <= m / 2 ^ n < 2 ^ 24).
  { split.
    - apply Z.div_le_lower_bound; [lia|].
      rewrite <- Z.pow_add_r by lia.
      replace (n + 23) with (d - 1) by (unfold n; lia). exact Hml.
    - apply Z.div_lt_upper_bound; [lia|].
      rewrite <- Z.pow_add_r by lia.
      replace (n + 24) with d by (unfold n; lia). exact Hmu. }
  unfold binary_round_aux, shr_fexp. fold d.
  rewrite fexp_eq. rewrite Z.max_l by lia.
  replace (d + e - 24 - e) with n by (unfold n; lia).
  pose proof (shr_inbetween A B m l e n Hn HB ltac:(lia) Hin)
    as (He1 & Hsm & Hin1).
  destruct (shr (shr_record_of_loc m l) e n) as [mrs1 e1].
  cbn [fst snd] in He1, Hsm, Hin1. subst e1. rewrite Hsm.
  set (l1 := loc_of_shr_record mrs1) in *.
  set (mr0 := round_nearest_even (m / 2 ^ n) l1).
  pose proof (round_nearest_even_bounds (m / 2 ^ n) l1) as Hb. fold mr0 in Hb.
  pose proof (round_nearest_even_near A (2 ^ n * B) (m / 2 ^ n) l1
                ltac:(lia) Hin1) as Hnear. fold mr0 in Hnear.
  exists mr0.
  split; [lia|]. split; [exact Hb|]. split; [exact Hnear|].
  destruct (decide (mr0 < 2 ^ 24)) as [Hlt|Hge].
  - rewrite (Zdigits2_24 mr0) by lia.
    rewrite fexp_eq. rewrite Z.max_l by lia.
    replace (24 + (e + n) - 24 - (e + n)) with 0 by lia.
    cbn [shr fst snd]. rewrite shr_record_of_loc_m.
    destruct mr0 as [|p|p] eqn:Emr; try lia.
    replace (e + n <=? emax - prec) with true
      by (symmetry; apply Z.leb_le; unfold emax, prec, n; lia).
    reflexivity.
  - assert (Emr : mr0 = 16777216) by (change (2 ^ 24) with 16777216 in *; lia).
    rewrite Emr. change (Zdigits2 16777216) with 25.
    rewrite fexp_eq. rewrite Z.max_l by lia.
    replace (25 + (e + n) - 24 - (e + n)) with 1 by lia.
    cbn [shr SpecFloat.iter_pos shr_record_of_loc shr_1 fst snd shr_m].
    replace (e + n + 1 <=? emax - prec) with true
      by (symmetry; apply Z.leb_le; unfold emax, prec, n; lia).
    reflexivity.
Qed.

Lemma iter_xO_value m d : Zpos (Pos.iter xO m d) = Zpos m * 2 ^ Zpos d.
Proof.
  induction d as [|d IH] using Pos.peano_ind.
  - simpl. lia.
  - rewrite Pos.iter_succ, Pos2Z.inj_succ, Z.pow_succ_r by lia.
    assert (E : forall p, Zpos p~0 = 2 * Zpos p) by reflexivity.
    rewrite E, IH. ring.
Qed.

(** Division of two normal positive floats whose quotient is in the
    normal range: the result is a normal float nearest to the quotient. *)
Lemma fdiv_nearest (mx my : positive) (ex ey : Z) :
  2 ^ 23 <= Zpos mx < 2 ^ 24 -> 2 ^ 23 <= Zpos my < 2 ^ 24 ->
  -149 <= ex - ey - 24 -> ex - ey + 1 <= 127 ->
  exists (mr : positive) (j : Z),
    fdiv (S754_finite false mx ex) (S754_finite false my ey)
    = S754_finite false mr (ex - ey - 24 + j) /\
    2 ^ 23 <= Zpos mr < 2 ^ 24 /\ 0 <= j <= 2 /\
    - (2 ^ j * Zpos my)
    <= 2 * (Zpos mx * 2 ^ 24 - Zpos mr * (2 ^ j * Zpos my))
    <= 2 ^ j * Zpos my /\
    (Zpos mx < Zpos my -> j = 0 \/ (j = 1 /\ Zpos mr = 2 ^ 23)) /\
    (Zpos my <= Zpos mx -> j = 1 \/ (j = 2 /\ Zpos mr = 2 ^ 23)).
Proof.
  intros Hx Hy Hlo Hhi.
  unfold fdiv, SFdiv, SFdiv_core_binary.
  rewrite (Zdigits2_24 (Zpos mx) Hx), (Zdigits2_24 (Zpos my) Hy).
  rewrite fexp_eq.
  replace (Z.min (Z.max (24 + ex - (24 + ey) - 24) (-149)) (ex - ey))
    with (ex - ey - 24) by lia.
  replace (ex - ey - (ex - ey - 24)) with 24 by lia.
  rewrite Z.shiftl_mul_pow2 by lia.
  set (m' := Zpos mx * 2 ^ 24).
  pose proof (Z.div_eucl_eq m' (Zpos my) ltac:(lia)) as Hdiv.
  pose proof (Z.mod_pos_bound m' (Zpos my) ltac:(lia)) as Hmod.
  assert (Hq : fst (Z.div_eucl m' (Zpos my)) = m' / Zpos my) by reflexivity.
  assert (Hr : snd (Z.div_eucl m' (Zpos my)) = m' mod Zpos my) by reflexivity.
  destruct (Z.div_eucl m' (Zpos my)) as [q r]. cbn [fst snd] in Hq, Hr.
  rewrite <- Hr in Hmod. clear Hq Hr.
  change (2 ^ 23) with 8388608 in *. change (2 ^ 24) with 16777216 in *.
  assert (Hqb : 8388608 <= q < 33554432) by (unfold m' in Hdiv; nia).
  assert (Hdq : 24 <= Zdigits2 q <= 25).
  { split.
    - apply (Zdigits2_lower q 23); [lia|]. change (2 ^ 23) with 8388608. lia.
    - apply Zdigits2_upper; [|lia]. change (2 ^ 25) with 33554432. lia. }
  assert (Hin : inbetween m' (Zpos my) q (new_location (Zpos my) r)).
  { rewrite Hdiv. replace (Zpos my * q + r) with (q * Zpos my + r) by ring.
    apply new_location_inbetween. exact Hmod. }
  destruct (round_aux_nearest (xorb false false) q (ex - ey - 24)
              (new_location (Zpos my) r) m' (Zpos my)
              ltac:(lia) ltac:(lia) Hin ltac:(lia) ltac:(lia) ltac:(lia))
    as (mr0 & Hr0 & _ & Hnear & ->).
  change (2 ^ 23) with 8388608 in *. change (2 ^ 24) with 16777216 in *.
  assert (Hn0 : Zpos mx < Zpos my -> Zdigits2 q - 24 = 0).
  { intros Hlt0. rewrite (Zdigits2_24 q); [lia|].
    change (2 ^ 23) with 8388608. change (2 ^ 24) with 16777216.
    unfold m' in Hdiv. nia. }
  assert (Hn1 : Zpos my <= Zpos mx -> Zdigits2 q - 24 = 1).
  { intros Hge0.
    pose proof (Zdigits2_lower q 24 ltac:(lia)) as Hl.
    change (2 ^ 24) with 16777216 in Hl.
    assert (16777216 <= q) by (unfold m' in Hdiv; nia). lia. }
  set (n := Zdigits2 q - 24) in *.
  assert (Hn : n = 0 \/ n = 1) by (unfold n; lia).
  destruct (decide (mr0 < 16777216)) as [Hlt|Hge].
  - exists (Z.to_pos mr0), n. rewrite Z2Pos.id by lia.
    split; [reflexivity|]. split; [lia|]. split; [lia|].
    split; [exact Hnear|]. split; intros Hc; left; auto.
  - exists 8388608%positive, (n + 1).
    split; [f_equal; lia|]. split; [lia|]. split; [lia|].
    assert (Emr : mr0 = 16777216) by lia. rewrite Emr in Hnear.
    split.
    + rewrite Z.pow_add_r by lia. change (2 ^ 1) with 2.
      destruct Hn as [-> | ->]; simpl in *; lia.
    + split; intros Hc; right; split;
        first [reflexivity | specialize (Hn0 Hc); lia
              | specialize (Hn1 Hc); lia].
Qed.

(** Multiplying a normal positive float by 0.5 is exact. *)
Lemma fmul_half_exact (mx : positive) (ex : Z) :
  2 ^ 23 <= Zpos mx < 2 ^ 24 -> -148 <= ex <= 104 ->
  fmul half (S754_finite false mx ex) = S754_finite false mx (ex - 1).
Proof.
  intros Hx He. rewrite half_repr. unfold fmul, SFmul.
  change (2 ^ 23) with 8388608 in *. change (2 ^ 24) with 16777216 in *.
  set (m := Zpos (8388608 * mx)).
  assert (Em : m = Zpos mx * 8388608) by (unfold m; lia).
  assert (Hd : Zdigits2 m = 47).
  { pose proof (Zdigits2_upper m 47) as Hu.
    pose proof (Zdigits2_lower m 46) as Hl.
    change (2 ^ 47) with 140737488355328 in Hu.
    change (2 ^ 46) with 70368744177664 in Hl. lia. }
  destruct (round_aux_nearest (xorb false false) m (-24 + ex) loc_Exact m 1
              ltac:(lia) ltac:(lia) ltac:(simpl; lia)
              ltac:(lia) ltac:(lia) ltac:(lia))
    as (mr0 & Hr0 & Hb & Hnear & ->).
  rewrite Hd in *. change (2 ^ (47 - 24)) with 8388608 in *.
  change (2 ^ 24) with 16777216 in *.
  assert (Emr : mr0 = Zpos mx) by lia.
  rewrite decide_True by lia.
  rewrite Emr. simpl Z.to_pos. f_equal. lia.
Qed.

(** An integer in [[1, 2^32)] converts to a normal float: exactly when it
    has at most 24 digits, to a nearest float otherwise. *)
Lemma of_Z_normal z :
  1 <= z < 2 ^ 32 ->
  exists (mz : positive) (ez : Z),
    of_Z z = S754_finite false mz ez /\
    2 ^ 23 <= Zpos mz < 2 ^ 24 /\
    Zdigits2 z - 24 <= ez <= Zdigits2 z - 23 /\
    (ez <= 0 -> Zpos mz = z * 2 ^ (- ez)) /\
    (0 <= ez -> - 2 ^ ez <= 2 * (z - Zpos mz * 2 ^ ez) <= 2 ^ ez).
Proof.
  intros [H1 H2]. destruct z as [|p|p]; try lia.
  unfold of_Z, binary_normalize, binary_round. cbn [Zdigits2].
  assert (Hd : 1 <= Zpos (digits2_pos p) <= 32).
  { pose proof (Zdigits2_upper (Zpos p) 32 ltac:(lia) ltac:(lia)) as Hu.
    cbn [Zdigits2] in Hu. lia. }
  set (d := Zpos (digits2_pos p)) in *.
  rewrite fexp_eq. rewrite Z.max_l by lia.
  replace (d + 0 - 24) with (d - 24) by lia.
  pose proof (digits2_pos_bounds p) as Hpb. fold d in Hpb.
  unfold shl_align. destruct (d - 24 - 0) as [|k|k] eqn:Ek.
  - (* exactly 24 digits *)
    assert (Ed : d = 24) by lia. rewrite Ed in Hpb.
    destruct (round_aux_nearest false (Zpos p) 0 loc_Exact (Zpos p) 1
                ltac:(lia) ltac:(lia) ltac:(simpl; lia))
      as (mr0 & Hr0 & Hb & Hnear & ->);
      cbn [Zdigits2]; fold d; rewrite ?Ed; try lia.
    cbn [Zdigits2] in Hb, Hnear. fold d in Hb, Hnear. rewrite Ed in Hb, Hnear.
    change (2 ^ (24 - 24)) with 1 in *.
    assert (Emr : mr0 = Zpos p) by lia.
    rewrite decide_True by lia. rewrite Emr. simpl Z.to_pos.
    exists p, 0. split; [f_equal|]. split; [exact Hpb|].
    split; [lia|]. split; intros _; simpl; lia.
  - (* more than 24 digits: rounding *)
    assert (Hn : 1 <= d - 24 <= 8) by lia.
    destruct (round_aux_nearest false (Zpos p) 0 loc_Exact (Zpos p) 1
                ltac:(lia) ltac:(lia) ltac:(simpl; lia))
      as (mr0 & Hr0 & Hb & Hnear & ->);
      cbn [Zdigits2]; fold d; try lia.
    cbn [Zdigits2] in Hb, Hnear. fold d in Hb, Hnear.
    set (n := d - 24) in *.
    assert (Hp : 0 < 2 ^ n) by (apply Z.pow_pos_nonneg; lia).
    change (2 ^ 23) with 8388608 in *. change (2 ^ 24) with 16777216 in *.
    destruct (decide (mr0 < 16777216)) as [Hlt|Hge].
    + exists (Z.to_pos mr0), n. rewrite Z2Pos.id by lia.
      split; [f_equal|]. split; [lia|]. split; [lia|].
      split; [intros; lia|]. intros _. lia.
    + exists 8388608%positive, (n + 1).
      assert (Emr : mr0 = 16777216) by lia. rewrite Emr in Hnear.
      split; [f_equal; lia|]. split; [lia|]. split; [lia|].
      split; [intros; lia|]. intros _.
      rewrite Z.pow_add_r by lia. change (2 ^ 1) with 2. lia.
  - (* fewer than 24 digits: shifted left, exact *)
    assert (Ek' : Zpos k = 24 - d) by lia.
    set (m := Pos.iter xO p k).
    assert (Em : Zpos m = Zpos p * 2 ^ Zpos k) by apply iter_xO_value.
    assert (Hdm : Zpos (digits2_pos m) = 24).
    { unfold m. rewrite digits2_pos_iter_xO. fold d. lia. }
    pose proof (digits2_pos_bounds m) as Hmb. rewrite Hdm in Hmb.
    change (24 - 1) with 23 in Hmb.
    destruct (round_aux_nearest false (Zpos m) (d - 24) loc_Exact (Zpos m) 1
                ltac:(lia) ltac:(lia) ltac:(simpl; lia))
      as (mr0 & Hr0 & Hb & Hnear & ->);
      cbn [Zdigits2]; rewrite ?Hdm; try lia.
    cbn [Zdigits2] in Hb, Hnear. rewrite Hdm in Hb, Hnear.
    change (2 ^ (24 - 24)) with 1 in *.
    assert (Emr : mr0 = Zpos m) by lia.
    rewrite decide_True by lia. rewrite Emr. simpl Z.to_pos.
    exists m, (d - 24). split; [f_equal; lia|]. split; [exact Hmb|].
    split; [lia|]. split.
    + intros _. rewrite Em. f_equal. f_equal. lia.
    + intros. lia.
Qed.

(** The arithmetic at the heart of the repeat count: a quotient by 44100
    that was rounded to nearest at a precision of at least 2^(14-j) binary
    places has the same integer part as the exact quotient. *)
Lemma floor_core mF mr j v :
  2 ^ 23 <= mF < 2 ^ 24 -> 2 ^ 23 <= mr < 2 ^ 24 -> 0 <= j <= 2 ->
  - 44100 <= 2 * (mF * 2 ^ (16 - j) - 44100 * mr) <= 44100 ->
  14 - j <= v ->
  mr / 2 ^ v = (mF * 2 ^ (16 - j)) / (44100 * 2 ^ v).
Proof.
  intros HF Hr Hj Hnear Hv.
  change (2 ^ 23) with 8388608 in *. change (2 ^ 24) with 16777216 in *.
  set (w := v - (14 - j)).
  assert (Hw : 0 <= w) by (unfold w; lia).
  assert (HW : 0 < 2 ^ w) by (apply Z.pow_pos_nonneg; lia).
  assert (EV : 2 ^ v = 2 ^ (14 - j) * 2 ^ w).
  { rewrite <- Z.pow_add_r by lia. f_equal. unfold w. lia. }
  assert (HV : 0 < 2 ^ v) by (apply Z.pow_pos_nonneg; lia).
  pose proof (Z.div_mod mr (2 ^ v) ltac:(lia)) as Hdm.
  pose proof (Z.mod_pos_bound mr (2 ^ v) HV) as Hmod.
  set (N := mr / 2 ^ v) in *. set (r := mr mod 2 ^ v) in *.
  set (P := 2 ^ v * N) in *.
  apply (Z.div_unique _ _ _ (mF * 2 ^ (16 - j) - 44100 * P)).
  - left. split.
    + destruct (Z.eq_dec r 0) as [Hr0|Hr0]; [|lia].
      assert (EP : P = 2 ^ (14 - j) * (2 ^ w * N)) by (unfold P; rewrite EV; ring).
      set (c := 2 ^ w * N) in *.
      assert (j = 0 \/ j = 1 \/ j = 2) as [-> | [-> | ->]] by lia;
        simpl in *; lia.
    + replace (44100 * 2 ^ v) with (44100 * 2 ^ v) by reflexivity.
      assert (44100 * mr + 22050 < 44100 * P + 44100 * 2 ^ v) by lia.
      lia.
  - unfold P. ring.
Qed.

Lemma Qfloor_half_div (a : Z) (b : positive) :
  Qfloor ((1 # 2) * (a # b) / inject_Z 22050) = a / (44100 * Zpos b).
Proof.
  unfold Qfloor, Qdiv, Qmult, Qinv, inject_Z. simpl.
  f_equal; lia.
Qed.

Lemma burst_constant :
  fmul (of_uint 250000) (of_Z 1000000) = S754_finite false 15258789 14.
Proof. vm_compute. reflexivity. Qed.

Lemma sample_rate_float :
  of_uint sample_rate = S754_finite false 11289600 (-9).
Proof. vm_compute. reflexivity. Qed.

(** The frequency TESTING computes is a normal float; its exponent tells
    how long the burst took. *)
Lemma achieved_normal E :
  1 <= E < 2 ^ 32 ->
  exists (mE mF : positive) (eE j : Z),
    of_Z E = S754_finite false mE eE /\
    2 ^ 23 <= Zpos mE < 2 ^ 24 /\
    Zdigits2 E - 24 <= eE <= Zdigits2 E - 23 /\
    (eE <= 0 -> Zpos mE = E * 2 ^ (- eE)) /\
    (0 <= eE -> - 2 ^ eE <= 2 * (E - Zpos mE * 2 ^ eE) <= 2 ^ eE) /\
    achieved 250000 E = S754_finite false mF (-10 - eE + j) /\
    2 ^ 23 <= Zpos mF < 2 ^ 24 /\ 0 <= j <= 2 /\
    - (2 ^ j * Zpos mE)
    <= 2 * (15258789 * 2 ^ 24 - Zpos mF * (2 ^ j * Zpos mE))
    <= 2 ^ j * Zpos mE /\
    (15258789 < Zpos mE -> j = 0 \/ (j = 1 /\ Zpos mF = 2 ^ 23)) /\
    (j = 2 -> Zpos mF = 2 ^ 23).
Proof.
  intros HE.
  destruct (of_Z_normal E HE) as (mE & eE & EE & HmE & HeE & Hex & Hnear).
  assert (Hdig : 1 <= Zdigits2 E <= 32).
  { split.
    - pose proof (Zdigits2_lower E 0 ltac:(lia) ltac:(simpl; lia)). lia.
    - apply Zdigits2_upper; lia. }
  unfold achieved, of_uint at 2.
  assert (Hw : wrap32 E = E) by (apply Z.mod_small; lia).
  rewrite Hw, burst_constant, EE.
  destruct (fdiv_nearest 15258789 mE 14 eE)
    as (mF & j & EF & HmF & Hj & HnF & Hj0 & Hj1);
    [simpl; lia|exact HmE|lia|lia|].
  exists mE, mF, eE, j.
  split; [reflexivity|]. split; [exact HmE|]. split; [exact HeE|].
  split; [exact Hex|]. split; [exact Hnear|].
  split; [rewrite EF; f_equal; lia|]. split; [exact HmF|].
  split; [exact Hj|]. split; [exact HnF|]. split; [exact Hj0|].
  intros ->. destruct (Z_lt_le_dec 15258789 (Zpos mE)) as [Hc|Hc].
  - destruct (Hj0 Hc) as [?|[? ?]]; lia.
  - destruct (Hj1 Hc) as [?|[_ ?]]; [lia|assumption].
Qed.

(** For a normal float below 2^26 the truncated float quotient
    [(int)(0.5f * f / sample_rate)] is the integer part of the exact
    quotient. *)
Lemma floor_below_2_26 (mF : positive) (eF : Z) :
  2 ^ 23 <= Zpos mF < 2 ^ 24 -> -19 <= eF <= 2 ->
  final_periods (S754_finite false mF eF) sample_rate
  = Some (Qfloor ((1 # 2) * to_Q (S754_finite false mF eF)
                  / inject_Z sample_rate)).
Proof.
  intros HmF HeF.
  unfold final_periods.
  rewrite fmul_half_exact by (try exact HmF; lia).
  rewrite sample_rate_float.
  destruct (fdiv_nearest mF 11289600 (eF - 1) (-9))
    as (mr & j & -> & Hmr & Hj & Hnear & _);
    [exact HmF|simpl; lia|lia|lia|].
  set (er := eF - 1 - -9 - 24 + j).
  assert (Her : er = - (16 - j - eF)) by (unfold er; lia).
  set (v := 16 - j - eF) in *.
  assert (Hv : 14 - j <= v) by (unfold v; lia).
  assert (Hcore : - 44100 <= 2 * (Zpos mF * 2 ^ (16 - j) - 44100 * Zpos mr)
                  <= 44100).
  { change (2 ^ 24) with 16777216 in Hnear.
    assert (j = 0 \/ j = 1 \/ j = 2) as [-> | [-> | ->]] by lia;
      simpl in *; lia. }
  pose proof (floor_core (Zpos mF) (Zpos mr) j v HmF Hmr Hj Hcore Hv) as Hfl.
  assert (HV : 0 < 2 ^ v) by (apply Z.pow_pos_nonneg; lia).
  assert (Ht : trunc (S754_finite false mr er) = Zpos mr / 2 ^ v).
  { unfold trunc, cond_Zopp. rewrite Her.
    rewrite Z.shiftl_div_pow2 by lia. f_equal. f_equal. lia. }
  assert (Hrange : 0 <= Zpos mr / 2 ^ v < 2 ^ 31).
  { split; [apply Z.div_pos; lia|].
    apply Z.div_lt_upper_bound; [lia|].
    change (2 ^ 24) with 16777216 in Hmr. change (2 ^ 31) with 2147483648.
    nia. }
  unfold to_int. rewrite Ht.
  replace ((- 2 ^ 31 <=? Zpos mr / 2 ^ v) && (Zpos mr / 2 ^ v <? 2 ^ 31))
    with true
    by (symmetry; apply andb_true_iff; split;
        [apply Z.leb_le|apply Z.ltb_lt]; lia).
  f_equal. rewrite Hfl.
  change (inject_Z sample_rate) with (inject_Z 22050).
  unfold to_Q, cond_Zopp.
  destruct eF as [|p|p] eqn:EeF.
  - change (inject_Z (Zpos mF * 2 ^ 0)) with ((Zpos mF * 1) # 1).
    rewrite Qfloor_half_div.
    replace (Zpos mF * 2 ^ (16 - j)) with (Zpos mF * 1 * 2 ^ v)
      by (unfold v; f_equal; [lia|f_equal; lia]).
    replace (44100 * 2 ^ v) with (44100 * 1 * 2 ^ v) by ring.
    rewrite Z.div_mul_cancel_r by lia. reflexivity.
  - change (inject_Z (Zpos mF * 2 ^ Zpos p)) with ((Zpos mF * 2 ^ Zpos p) # 1).
    rewrite Qfloor_half_div.
    replace (Zpos mF * 2 ^ (16 - j)) with (Zpos mF * 2 ^ Zpos p * 2 ^ v).
    2:{ rewrite <- Z.mul_assoc, <- Z.pow_add_r by lia.
        f_equal. f_equal. unfold v. lia. }
    replace (44100 * 2 ^ v) with (44100 * 1 * 2 ^ v) by ring.
    rewrite Z.div_mul_cancel_r by lia. reflexivity.
  - rewrite Qfloor_half_div.
    replace (44100 * 2 ^ v) with (44100 * Zpos (2 ^ p) * 2 ^ (16 - j)).
    2:{ rewrite Pos2Z.inj_pow. rewrite <- Z.mul_assoc, <- Z.pow_add_r by lia.
        f_equal. f_equal. unfold v. lia. }
    rewrite Z.div_mul_cancel_r by (try apply Z.pow_nonzero; lia).
    reflexivity.
Qed.

Lemma floor_at_2_26 :
  final_periods (S754_finite false 8388608 3) sample_rate
  = Some (Qfloor ((1 # 2) * to_Q (S754_finite false 8388608 3)
                  / inject_Z sample_rate)).
Proof. vm_compute. reflexivity. Qed.

(** For a burst of at least 3726 microseconds the frequency is at most
    2^26, and the truncated quotient is the integer part of the exact
    quotient. *)
Lemma tuned_floor_large E :
  3726 <= E < 2 ^ 32 ->
  final_periods (achieved 250000 E) sample_rate
  = Some (Qfloor ((1 # 2) * to_Q (achieved 250000 E) / inject_Z sample_rate)).
Proof.
  intros HE.
  destruct (achieved_normal E ltac:(lia))
    as (mE & mF & eE & j1 & _ & HmE & HeE & Hex & _ & -> & HmF & Hj1 & _
        & Hj0 & Hj2).
  pose proof (Zdigits2_lower E 11 ltac:(lia) ltac:(simpl; lia)) as Hd11.
  pose proof (Zdigits2_upper E 32 ltac:(lia) ltac:(lia)) as Hd32.
  change (2 ^ 23) with 8388608 in *. change (2 ^ 24) with 16777216 in *.
  assert (Hcase : -10 - eE + j1 <= 2
                  \/ (-10 - eE + j1 = 3 /\ Zpos mF = 8388608)).
  { destruct (Z_le_gt_dec (-10) eE) as [H10|H10]; [left; lia|].
    destruct (Z.eq_dec eE (-11)) as [H11|H11].
    - destruct (Z.eq_dec j1 2) as [H2|H2]; [right|left; lia].
      split; [lia|]. exact (Hj2 H2).
    - assert (H12 : eE = -12) by lia.
      specialize (Hex ltac:(lia)). rewrite H12 in Hex.
      change (2 ^ (- -12)) with 4096 in Hex.
      destruct (Hj0 ltac:(lia)) as [?|[? ?]]; [left; lia|right].
      split; [lia|assumption]. }
  destruct Hcase as [Hle|[He3 Hm3]].
  - apply floor_below_2_26; [lia|lia].
  - rewrite He3. assert (EmF : mF = 8388608%positive) by lia.
    rewrite EmF. exact floor_at_2_26.
Qed.

Lemma floor_agrees_short :
  forallb floor_agrees (map Z.of_nat (seq 1 (Z.to_nat 3725))) = true.
Proof. vm_compute. reflexivity. Qed.

Lemma tuned_floor_small E :
  1 <= E < 3726 ->
  final_periods (achieved 250000 E) sample_rate
  = Some (Qfloor ((1 # 2) * to_Q (achieved 250000 E) / inject_Z sample_rate)).
Proof.
  intros HE. pose proof floor_agrees_short as H.
  rewrite forallb_forall in H.
  assert (Hin : In E (map Z.of_nat (seq 1 (Z.to_nat 3725)))).
  { apply in_map_iff. exists (Z.to_nat E). split; [lia|].
    apply in_seq. lia. }
  specialize (H E Hin). unfold floor_agrees in H.
  unfold final_periods, achieved.
  assert (Hw : wrap32 E = E) by (apply Z.mod_small; lia).
  rewrite burst_constant, sample_rate_float.
  unfold of_uint. rewrite Hw.
  change (inject_Z sample_rate) with (inject_Z 22050).
  destruct (to_int _) as [p|]; [|discriminate].
  f_equal. apply Z.eqb_eq. exact H.
Qed.

Lemma tuned_floor E :
  1 <= E < 2 ^ 32 ->
  final_periods (achieved 250000 E) sample_rate
  = Some (Qfloor ((1 # 2) * to_Q (achieved 250000 E) / inject_Z sample_rate)).
Proof.
  intros HE. destruct (Z_lt_le_dec E 3726).
  - apply tuned_floor_small. lia.
  - apply tuned_floor_large. lia.
Qed.

(** ** The achieved frequency as a number *)

Local Ltac pow_norm :=
  repeat match goal with
    | |- context [Z.pow 2 ?k] =>
        let v := eval vm_compute in (Z.pow 2 k) in
        lazymatch v with Zpos _ => change (Z.pow 2 k) with v end
    | H : context [Z.pow 2 ?k] |- _ =>
        let v := eval vm_compute in (Z.pow 2 k) in
        lazymatch v with Zpos _ => change (Z.pow 2 k) with v in H end
    end.

(** The achieved frequency times the elapsed time is the burst length
    times 10^6, up to 2^15: three roundings of relative size 2^-24. *)
Lemma achieved_near_exact E mE mF eE j :
  1 <= E ->
  2 ^ 23 <= mE < 2 ^ 24 -> 2 ^ 23 <= mF < 2 ^ 24 ->
  -23 <= eE <= 0 -> 0 <= j <= 2 ->
  mE = E * 2 ^ (- eE) ->
  - (2 ^ j * mE) <= 2 * (15258789 * 2 ^ 24 - mF * (2 ^ j * mE)) <= 2 ^ j * mE ->
  (0 <= -10 - eE + j ->
   250000000000 - 32768 <= mF * 2 ^ (-10 - eE + j) * E
   <= 250000000000 + 32768) /\
  (-10 - eE + j < 0 ->
   (250000000000 - 32768) * 2 ^ (10 + eE - j) <= mF * E
   <= (250000000000 + 32768) * 2 ^ (10 + eE - j)).
Proof.
  intros HE HmE HmF HeE Hj Hex Hnear. rewrite Hex in Hnear, HmE. clear Hex mE.
  assert (HX : 8388608 * E <= mF * E) by (change (2 ^ 23) with 8388608 in HmF; nia).
  set (X := mF * E) in *.
  replace (mF * 2 ^ (-10 - eE + j) * E) with (X * 2 ^ (-10 - eE + j))
    by (unfold X; ring).
  replace (mF * (2 ^ j * (E * 2 ^ (- eE)))) with (2 ^ j * 2 ^ (- eE) * X)
    in Hnear by (unfold X; ring).
  assert (exists k : nat, eE = -23 + Z.of_nat k /\ (k <= 23)%nat) as (k & -> & Hk).
  { exists (Z.to_nat (eE + 23)). lia. }
  assert (j = 0 \/ j = 1 \/ j = 2) as [-> | [-> | ->]] by lia;
    do 24 (destruct k as [|k];
           [cbn [Z.of_nat Pos.of_succ_nat Pos.succ] in *;
            cbn [Z.add Z.sub Z.opp Z.pos_sub Pos.add Pos.succ Pos.pred_double
                 Z.double Z.succ_double Z.pred_double Pos.add_carry
                 Z.of_nat] in *;
            pow_norm; split; intros; lia|]);
    lia.
Qed.

Lemma achieved_near_rounded E mE mF eE j :
  2 ^ 23 <= mE < 2 ^ 24 -> 2 ^ 23 <= mF < 2 ^ 24 ->
  1 <= eE <= 9 -> 0 <= j <= 2 ->
  - 2 ^ eE <= 2 * (E - mE * 2 ^ eE) <= 2 ^ eE ->
  - (2 ^ j * mE) <= 2 * (15258789 * 2 ^ 24 - mF * (2 ^ j * mE)) <= 2 ^ j * mE ->
  (250000000000 - 32768) * 2 ^ (10 + eE - j) <= mF * E
  <= (250000000000 + 32768) * 2 ^ (10 + eE - j).
Proof.
  intros HmE HmF HeE Hj HnE Hnear.
  change (2 ^ 23) with 8388608 in *. change (2 ^ 24) with 16777216 in *.
  assert (HY1 : 8388608 * mE <= mF * mE) by nia.
  assert (HY2 : 8388608 * mF <= mF * mE) by nia.
  assert (HP : 0 < 2 ^ eE) by (apply Z.pow_pos_nonneg; lia).
  assert (HX1 : mF * (2 * (E - mE * 2 ^ eE)) <= mF * 2 ^ eE)
    by (apply Z.mul_le_mono_nonneg_l; lia).
  assert (HX2 : mF * (- 2 ^ eE) <= mF * (2 * (E - mE * 2 ^ eE)))
    by (apply Z.mul_le_mono_nonneg_l; lia).
  replace (mF * (2 * (E - mE * 2 ^ eE)))
    with (2 * (mF * E) - 2 * 2 ^ eE * (mF * mE)) in HX1, HX2 by ring.
  replace (mF * (2 ^ j * mE)) with (2 ^ j * (mF * mE)) in Hnear by ring.
  set (X := mF * E) in *. set (Y := mF * mE) in *.
  assert (exists k : nat, eE = 1 + Z.of_nat k /\ (k <= 8)%nat) as (k & -> & Hk).
  { exists (Z.to_nat (eE - 1)). lia. }
  assert (j = 0 \/ j = 1 \/ j = 2) as [-> | [-> | ->]] by lia;
    do 9 (destruct k as [|k];
          [cbn [Z.of_nat Pos.of_succ_nat Pos.succ] in *;
           cbn [Z.add Z.sub Z.opp Z.pos_sub Pos.add Pos.succ Pos.pred_double
                Z.double Z.succ_double Z.pred_double Pos.add_carry
                Z.of_nat] in *;
           pow_norm; lia|]);
    lia.
Qed.

Lemma achieved_near E :
  1 <= E < 2 ^ 32 ->
  (inject_Z (250000000000 - 32768)
   <= to_Q (achieved 250000 E) * inject_Z E
   <= inject_Z (250000000000 + 32768))%Q.
Proof.
  intros HE.
  destruct (achieved_normal E HE)
    as (mE & mF & eE & j & _ & HmE & HeE & Hex & HnE & -> & HmF & Hj & Hnear & _).
  assert (Hdig : 1 <= Zdigits2 E <= 32).
  { split.
    - pose proof (Zdigits2_lower E 0 ltac:(lia) ltac:(simpl; lia)). lia.
    - apply Zdigits2_upper; lia. }
  assert (Hint : (0 <= -10 - eE + j ->
                  250000000000 - 32768 <= Zpos mF * 2 ^ (-10 - eE + j) * E
                  <= 250000000000 + 32768) /\
                 (-10 - eE + j < 0 ->
                  (250000000000 - 32768) * 2 ^ (10 + eE - j) <= Zpos mF * E
                  <= (250000000000 + 32768) * 2 ^ (10 + eE - j))).
  { destruct (Z_le_gt_dec eE 0) as [H0|H0].
    - apply (achieved_near_exact E (Zpos mE)); try assumption; lia.
    - split; [intros; lia|]. intros _.
      apply (achieved_near_rounded E (Zpos mE)); try assumption; lia. }
  destruct Hint as [Hpos Hneg].
  unfold to_Q, cond_Zopp.
  destruct (-10 - eE + j) as [|p|p] eqn:EeF.
  - specialize (Hpos ltac:(lia)).
    unfold Qle, Qmult, inject_Z. cbn [Qnum Qden]. lia.
  - specialize (Hpos ltac:(lia)).
    unfold Qle, Qmult, inject_Z. cbn [Qnum Qden]. lia.
  - specialize (Hneg ltac:(lia)).
    replace (10 + eE - j) with (Zpos p) in Hneg by lia.
    unfold Qle, Qmult, inject_Z. cbn [Qnum Qden].
    rewrite Pos.mul_1_r, Pos2Z.inj_pow. lia.
Qed.

(** ** The tuned repeat count (claim C5) *)

(** C5.  In the TESTING iteration of a run, where it is defined, the
    elapsed time is the difference of the two timer readings modulo 2^32
    and is not zero;
    [freq] becomes the frequency achieved by the burst of 250000 periods,
    which times the elapsed microseconds is 250000 * 10^6 up to 2^15; and
    [periods] becomes the integer part of the exact quotient
    0.5 * freq / sample_rate, the roundings of the float computation
    notwithstanding.  The phase becomes BROADCASTING.  For an achieved
    frequency of 558000 and the sample rate 22050 the repeat count is 12. *)
Theorem testing_sets_periods_to_floor (stack : nat -> Z)
  (script : list Env) (s : State) (e : Env) (s' : State) :
  run script (init stack) = Some s ->
  ready_state s = TESTING ->
  step e s = Some s' ->
  elapsed e = (t_end e - t_start e) mod 2 ^ 32 /\
  elapsed e <> 0 /\
  freq s' = achieved 250000 (elapsed e) /\
  (inject_Z (250000000000 - 32768)
   <= to_Q (freq s') * inject_Z (elapsed e)
   <= inject_Z (250000000000 + 32768))%Q /\
  periods s' = Qfloor ((1 # 2) * to_Q (freq s') / inject_Z sample_rate) /\
  0 <= periods s' /\
  ready_state s' = BROADCASTING /\
  final_periods (of_Z 558000) 22050 = Some 12 /\
  Qfloor ((1 # 2) * inject_Z 558000 / inject_Z 22050) = 12.
Proof.
  intros E H1 E'.
  assert (Hp : periods s = 250000).
  { destruct (run_cases _ _ _ E)
      as [[_ (_&_&_&H2&_)]|[[_ (_&Hp&_)]|[_ (H0&_)]]];
      unfold MEASURING, TESTING, BROADCASTING in *; [congruence|exact Hp|congruence]. }
  pose proof (elapsed_range e) as Hr.
  assert (Hne : elapsed e <> 0).
  { apply (testing_step_defined e s H1 Hp). eexists. exact E'. }
  rewrite (step_testing _ _ H1) in E'.
  destruct (testing_fields _ _ _ E') as (B & _ & _ & _ & _ & _ & _ & Hf & Hfp).
  destruct (poll_adc_fields e s) as (_ & _ & _ & _ & _ & P5 & _).
  rewrite P5, Hp in Hf.
  assert (Hfl : periods s'
                = Qfloor ((1 # 2) * to_Q (freq s') / inject_Z sample_rate)).
  { rewrite Hf in Hfp |- *.
    rewrite (tuned_floor (elapsed e)) in Hfp by lia.
    injection Hfp as <-. reflexivity. }
  split; [unfold elapsed, wrap32; rewrite <- Zminus_mod; reflexivity|].
  split; [exact Hne|]. split; [exact Hf|].
  split; [rewrite Hf; apply achieved_near; lia|].
  split; [exact Hfl|].
  split.
  { rewrite Hf in Hfp.
    destruct (final_periods_floor _ _ _ (achieved_not_negative _ _) Hfp)
      as [_ [H0 _]]. exact H0. }
  split; [exact B|]. split; vm_compute; reflexivity.
Qed.

Lemma testing_sets_periods_to_floor_witness :
  run (bench_script 79) (init clean_stack) = Some bench_79 /\
  ready_state bench_79 = TESTING /\
  step (bench 79) bench_79 = Some bench_80 /\
  periods bench_80 = 30 /\
  Qfloor ((1 # 2) * to_Q (freq bench_80) / inject_Z sample_rate) = 30.
Proof.
  pose proof (testing_sets_periods_to_floor clean_stack (bench_script 79)
                bench_79 (bench 79) bench_80 bench_run_79 eq_refl
                bench_step_80)
    as (_ & _ & _ & _ & Hfloor & _).
  split; [exact bench_run_79|]. split; [reflexivity|].
  split; [exact bench_step_80|]. split; [reflexivity|].
  rewrite <- Hfloor. reflexivity.
Defined.

(** ** The calibration seed (claims C2 and C3) *)

Lemma some_pair_beats_false ms p bound rows :
  some_pair_beats ms p bound rows = false ->
  forall i j d,
    (i < rows)%nat -> candidate ms p i j = Some d -> flt d bound = false.
Proof.
  intros H i j d Hi Hc.
  destruct (flt d bound) eqn:T; [|reflexivity].
  rewrite <- H. symmetry. unfold some_pair_beats.
  apply existsb_exists. exists i. split; [apply in_seq; lia|].
  apply existsb_exists. exists j. split.
  - apply in_seq. pose proof (candidate_target_bound _ _ _ _ _ Hc). lia.
  - unfold beats. rewrite Hc. exact T.
Qed.

(** Every iteration of the evaluation pass computes the pair's difference
    into [diff] and accepts the pair exactly when [diff < best_diff]. *)
Lemma eval_body_accepts i j s1 s2 :
  eval_body i j s1 = Some s2 ->
  candidate (measurements s1) (periods s1) i j = Some (diff s2) /\
  if flt (diff s2) (best_diff s1)
  then best_diff s2 = diff s2 /\ best_index s2 = i /\ best_frequency s2 = j
  else best_diff s2 = best_diff s1 /\ best_index s2 = best_index s1 /\
       best_frequency s2 = best_frequency s1.
Proof.
  unfold eval_body, candidate.
  destruct (measurements s1 !! i) as [c|]; [simpl|discriminate].
  destruct (frequencies !! j) as [f|]; [simpl|discriminate].
  destruct (flt _ (best_diff s1)) eqn:T; intros [= <-]; simpl;
    rewrite T; repeat split.
Qed.

Lemma flat_run : run flat_script (init clean_stack) = Some flat_state.
Proof. vm_compute. reflexivity. Qed.

Lemma flat_unbeaten :
  some_pair_beats (measurements flat_state) 100000 seed (measure_limit - 1)
  = false.
Proof. vm_compute. reflexivity. Qed.

(** C2, as the specification has it, fails: the first table entry, once
    adjusted, is 519975, and the accumulator starts at 558000. *)
Lemma seed_differs_from_first_target :
  frequencies !! 0%nat = Some (of_Z 519975) /\
  best_diff (init clean_stack) = of_Z 558000 /\
  frequencies !! 0%nat <> Some (best_diff (init clean_stack)).
Proof.
  split; [vm_compute; reflexivity|]. split; [reflexivity|].
  vm_compute. discriminate.
Qed.

Lemma frequencies_miss_seed j f :
  frequencies !! j = Some f -> f <> of_Z 558000.
Proof.
  intros H.
  assert (Hall : forallb (fun f => flt f (of_Z 558000) || flt (of_Z 558000) f)
                   frequencies = true)
    by (vm_compute; reflexivity).
  rewrite forallb_forall in Hall.
  assert (Hin : In f frequencies).
  { apply list_elem_of_In. apply list_elem_of_lookup. exists j. exact H. }
  specialize (Hall f Hin). intros ->.
  rewrite flt_irrefl in Hall. discriminate.
Qed.

(** C2, amended.  The accumulator [best_diff] is seeded with the initial
    desired frequency, the literal 558000, and not with an entry of the
    adjusted table: the first adjusted entry is 519975 and no adjusted entry
    equals 558000, which the table lists as its fourth entry before the
    adjustment.  After the evaluation pass either no pair was accepted and
    the three result variables still hold their initial values, or they
    name a pair whose difference is strictly below that seed; and each
    iteration of the pass accepts its pair exactly when the pair's
    difference is strictly below the current [best_diff]. *)
Theorem seed_is_initial_desired (stack : nat -> Z) (script : list Env)
  (s : State) :
  length script = measure_limit ->
  run script (init stack) = Some s ->
  best_diff (init stack) = of_Z 558000 /\
  best_diff (init stack) = desired (init stack) /\
  frequencies !! 0%nat = Some (of_Z 519975) /\
  listed_frequencies !! 3%nat = Some 558000 /\
  (forall j f, frequencies !! j = Some f -> f <> best_diff (init stack)) /\
  ((best_diff s = of_Z 558000 /\ best_index s = 0%nat /\
    best_frequency s = 0%nat) \/
   (candidate (measurements s) 100000 (best_index s) (best_frequency s)
    = Some (best_diff s) /\
    flt (best_diff s) (of_Z 558000) = true)) /\
  (forall i j s1 s2,
      eval_body i j s1 = Some s2 ->
      if flt (diff s2) (best_diff s1)
      then best_diff s2 = diff s2 /\ best_index s2 = i /\
           best_frequency s2 = j
      else best_diff s2 = best_diff s1 /\ best_index s2 = best_index s1 /\
           best_frequency s2 = best_frequency s1).
Proof.
  intros Hlen E. split; [reflexivity|]. split; [reflexivity|].
  split; [vm_compute; reflexivity|]. split; [reflexivity|].
  split; [exact frequencies_miss_seed|]. split.
  - destruct (run_cases _ _ _ E) as [[Hl _]|[[_ Hinv]|[Hl _]]]; [lia| |lia].
    destruct Hinv as (_&_&_&_&_&Hms&_&_&(_ & Hev)&_). rewrite Hms.
    destruct Hev as [U|(_ & Hc & Hlt & _)]; [left; exact U|right].
    split; [exact Hc|exact Hlt].
  - intros i j s1 s2 H. apply (eval_body_accepts _ _ _ _ H).
Qed.

Lemma seed_is_initial_desired_witness :
  length (bench_script 79) = measure_limit /\
  run (bench_script 79) (init clean_stack) = Some bench_79 /\
  best_index bench_79 = 19%nat /\
  best_frequency bench_79 = 12%nat /\
  flt (best_diff bench_79) (of_Z 558000) = true.
Proof.
  pose proof (seed_is_initial_desired clean_stack (bench_script 79) bench_79
                eq_refl bench_run_79)
    as (_ & _ & _ & _ & _ & [(_ & H0 & _)|(_ & Hlt)] & _).
  - discriminate H0.
  - split; [reflexivity|]. split; [exact bench_run_79|].
    split; [reflexivity|]. split; [reflexivity|exact Hlt].
Defined.

(** C3, as the specification has it, fails: on [flat_script] no pair beats
    the seed, and after the hand-over the return word is at offset 0, not
    at the last offset measured (78), which holds a no-op. *)
Lemma unbeaten_seed_drops_last_offset :
  run flat_script (init clean_stack) = Some flat_state /\
  some_pair_beats (measurements flat_state) 100000 seed (measure_limit - 1)
  = false /\
  measurements flat_state !! 78%nat = Some (Recorded 1) /\
  index flat_state = 0%nat /\
  opcodes flat_state !! 0%nat = Some RET /\
  opcodes flat_state !! 78%nat = Some NOP.
Proof.
  split; [exact flat_run|]. split; [exact flat_unbeaten|].
  split; [reflexivity|]. split; [reflexivity|].
  split; reflexivity.
Qed.

(** C3, amended.  If no pair of the evaluation pass beats the seed, the
    result variables keep their initial values, so after the hand-over the
    active offset is 0, the first offset measured: the return word is at
    slot 0 and the desired frequency is the first (adjusted) table entry. *)
Theorem unbeaten_seed_selects_offset_zero (stack : nat -> Z)
  (script : list Env) (s : State) :
  length script = measure_limit ->
  run script (init stack) = Some s ->
  some_pair_beats (measurements s) 100000 seed (measure_limit - 1) = false ->
  index s = 0%nat /\ best_index s = 0%nat /\ best_diff s = seed /\
  opcodes s = one_hot 0 /\
  frequencies !! 0%nat = Some (desired s).
Proof.
  intros Hlen E Hnone.
  destruct (run_cases _ _ _ E) as [[Hl _]|[[_ Hinv]|[Hl _]]]; [lia| |lia].
  destruct Hinv as (_&_&Hidx&Hops&_&Hms&_&Hd&(_ & Hev)&_).
  rewrite <- Hms in Hev.
  destruct Hev as [(U1 & U2 & U3)|(Hbi & Hc & Hlt & _)].
  - rewrite U3 in Hd. rewrite Hidx, U2 in *.
    repeat split; assumption.
  - rewrite (some_pair_beats_false _ _ _ _ Hnone _ _ _ Hbi Hc) in Hlt.
    discriminate.
Qed.

Lemma unbeaten_seed_selects_offset_zero_witness :
  length flat_script = measure_limit /\
  run flat_script (init clean_stack) = Some flat_state /\
  some_pair_beats (measurements flat_state) 100000 seed (measure_limit - 1)
  = false /\
  index flat_state = 0%nat /\
  opcodes flat_state = one_hot 0.
Proof.
  pose proof (unbeaten_seed_selects_offset_zero clean_stack flat_script
                flat_state eq_refl flat_run flat_unbeaten) as (H1 & _ & _ & H4 & _).
  split; [reflexivity|]. split; [exact flat_run|].
  split; [exact flat_unbeaten|]. split; [exact H1|exact H4].
Defined.

(** ** The evaluation pass on a run (claim C1) *)

(** X1.  What the pass does: after the hand-over no pair with an offset below
    [measure_limit - 1] is strictly better than [best_diff]; and either no
    pair was accepted, or the result variables name a pair with an offset
    below [measure_limit - 1] whose difference is [best_diff], and every
    pair scanned before it (offsets ascending, then targets ascending) is
    strictly worse or incomparable.  The active offset is [best_index]. *)
Theorem evaluation_selects_first_minimum (stack : nat -> Z)
  (script : list Env) (s : State) :
  length script = measure_limit ->
  run script (init stack) = Some s ->
  (forall i j d,
      (i < measure_limit - 1)%nat ->
      candidate (measurements s) 100000 i j = Some d ->
      flt d (best_diff s) = false) /\
  ((best_diff s = seed /\ best_index s = 0%nat /\ best_frequency s = 0%nat) \/
   ((best_index s < measure_limit - 1)%nat /\
    candidate (measurements s) 100000 (best_index s) (best_frequency s)
    = Some (best_diff s) /\
    forall i j d,
      lex_before i j (best_index s) (best_frequency s) ->
      candidate (measurements s) 100000 i j = Some d ->
      fle d (best_diff s) = false)) /\
  index s = best_index s /\
  (index s < measure_limit - 1)%nat.
Proof.
  intros Hlen E.
  destruct (run_cases _ _ _ E) as [[Hl _]|[[_ Hinv]|[Hl _]]]; [lia| |lia].
  destruct Hinv as (_&_&Hidx&_&Hlt&Hms&_&_&(Hmin & Hev)&_).
  rewrite <- Hms in Hmin, Hev.
  split; [exact Hmin|]. split; [|split; [exact Hidx|exact Hlt]].
  destruct Hev as [U|(H1 & H2 & _ & H4)]; [left; exact U|right].
  split; [exact H1|]. split; [exact H2|exact H4].
Qed.

Lemma evaluation_selects_first_minimum_witness :
  length (bench_script 79) = measure_limit /\
  run (bench_script 79) (init clean_stack) = Some bench_79 /\
  index bench_79 = 19%nat /\
  flt (S754_finite false 14680064 (-24)) (best_diff bench_79) = true /\
  (forall d, candidate (measurements bench_79) 100000 7 3 = Some d ->
             flt d (best_diff bench_79) = false).
Proof.
  pose proof (evaluation_selects_first_minimum clean_stack (bench_script 79)
                bench_79 eq_refl bench_run_79) as (Hmin & _).
  split; [reflexivity|]. split; [exact bench_run_79|].
  split; [reflexivity|]. split; [reflexivity|].
  intros d. apply Hmin. unfold measure_limit, MAX_OPCODES. simpl. lia.
Defined.

(** C1, at the failing input [bench_script 79].  The burst at offset 78 was
    timed (182824 microseconds) and its distance to target 3 is 0.875 Hz,
    strictly below the distance of the pair the pass selected, (19, 12):
    offset 78 lies in [0, measure_limit) and was never compared. *)
Lemma last_offset_never_evaluated :
  run (bench_script 79) (init clean_stack) = Some bench_79 /\
  measurements bench_79 !! 78%nat = Some (Recorded 182824) /\
  best_index bench_79 = 19%nat /\ best_frequency bench_79 = 12%nat /\
  candidate (measurements bench_79) 100000 19 12 = Some (best_diff bench_79) /\
  candidate (measurements bench_79) 100000 78 3
  = Some (S754_finite false 14680064 (-24)) /\
  flt (S754_finite false 14680064 (-24)) (best_diff bench_79) = true.
Proof.
  split; [exact bench_run_79|]. split; [reflexivity|].
  split; [reflexivity|]. split; [reflexivity|].
  split; [vm_compute; reflexivity|].
  split; vm_compute; reflexivity.
Qed.

(** ** The burst length after the hand-over (claim C6) *)

(** C6, evaluated on every script of 79 iterations.  MEASURING runs with
    [periods = 100000]; the hand-over assigns 250000, which is larger. *)
Theorem tuning_burst_is_longer (stack : nat -> Z) (f : nat -> Env) :
  periods (init stack) = 100000 /\
  exists s,
    run (f <$> seq 0 measure_limit) (init stack) = Some s /\
    ready_state s = TESTING /\
    periods s = 250000 /\
    periods (init stack) < periods s.
Proof.
  split; [reflexivity|].
  assert (Hlen : length (f <$> seq 0 measure_limit) = measure_limit)
    by (rewrite length_fmap; apply length_seq).
  destruct (run_defined_upto_testing stack (f <$> seq 0 measure_limit))
    as [s E]; [lia|].
  exists s. split; [exact E|].
  destruct (run_cases _ _ _ E) as [[Hl _]|[[_ Hinv]|[Hl _]]]; [lia| |lia].
  destruct Hinv as (H1 & H2 & _).
  split; [exact H1|]. split; [exact H2|]. rewrite H2. reflexivity.
Qed.

(** ** Reads of the measurement array (claim C10) *)

(** C10, evaluated on every script of 79 iterations.  The iterations write
    slots 0 to 78; slot 79 still holds the stack residue when the
    hand-over reads [measurements[index]] with [index = measure_limit], and
    [freq] is computed from that residue. *)
Theorem handoff_reads_unwritten_slot (stack : nat -> Z) (f : nat -> Env) :
  exists s,
    run (f <$> seq 0 measure_limit) (init stack) = Some s /\
    (forall i, (i < measure_limit)%nat ->
               measurements s !! i = Some (Recorded (elapsed (f i)))) /\
    measurements s !! measure_limit
    = Some (Indeterminate (stack measure_limit)) /\
    freq s = achieved 100000 (stack measure_limit).
Proof.
  assert (Hlen : length (f <$> seq 0 measure_limit) = measure_limit)
    by (rewrite length_fmap; apply length_seq).
  destruct (run_defined_upto_testing stack (f <$> seq 0 measure_limit))
    as [s E]; [lia|].
  exists s. split; [exact E|].
  destruct (run_cases _ _ _ E) as [[Hl _]|[[_ Hinv]|[Hl _]]]; [lia| |lia].
  destruct Hinv as (_&_&_&_&_&Hms&Hf&_).
  split; [|split; [|exact Hf]].
  - intros i Hi. rewrite Hms.
    rewrite meas_after_lookup
      by (unfold measure_limit, MAX_OPCODES in *; simpl in *; lia).
    rewrite list_lookup_fmap, lookup_seq_lt by exact Hi. reflexivity.
  - rewrite Hms.
    rewrite meas_after_lookup by (unfold measure_limit, MAX_OPCODES; lia).
    rewrite lookup_ge_None_2 by lia. reflexivity.
Qed.

(** ** Zero elapsed times (claim C4) *)

Lemma frequencies_finite j f :
  frequencies !! j = Some f -> is_finite f = true.
Proof.
  intros H.
  assert (Hall : forallb is_finite frequencies = true)
    by (vm_compute; reflexivity).
  rewrite forallb_forall in Hall. apply Hall.
  apply list_elem_of_In. apply list_elem_of_lookup. exists j. exact H.
Qed.

Lemma flt_pinf x : flt pinf x = false.
Proof. destruct x as [s|s| |s m e]; try reflexivity; destruct s; reflexivity. Qed.

Lemma zero_run : run zero_script (init clean_stack) = Some zero_state.
Proof. vm_compute. reflexivity. Qed.

(** C4, as the specification has it, fails: on [zero_script] the elapsed
    time recorded for offset 77 is zero, the loop reaches TESTING all the
    same, and the infinite difference computed for the last pair of that
    offset is still in [diff]. *)
Lemma zero_elapsed_reaches_testing :
  run zero_script (init clean_stack) = Some zero_state /\
  measurements zero_state !! 77%nat = Some (Recorded 0) /\
  achieved 100000 0 = pinf /\
  diff zero_state = pinf /\
  ready_state zero_state = TESTING.
Proof.
  split; [exact zero_run|]. split; [reflexivity|].
  split; [exact achieved_zero_100000|]. split; reflexivity.
Qed.

(** C4, amended.  No zero elapsed time is guarded against.  With either
    burst length the division by a zero elapsed time is performed and
    yields +infinity.  In the evaluation pass a pair whose offset was timed
    at zero gets an infinite [freq] and [diff] and is not accepted, and the
    loop is defined up to TESTING whatever the elapsed times are.  In
    TESTING a zero elapsed time makes the conversion of the repeat count to
    [int] undefined. *)
Theorem zero_elapsed_gives_infinity :
  achieved 100000 0 = pinf /\
  achieved 250000 0 = pinf /\
  (forall i j s s',
      periods s = 100000 ->
      measurements s !! i = Some (Recorded 0) ->
      eval_body i j s = Some s' ->
      freq s' = pinf /\ diff s' = pinf /\
      best_diff s' = best_diff s /\ best_index s' = best_index s /\
      best_frequency s' = best_frequency s) /\
  (forall stack script,
      (length script <= measure_limit)%nat ->
      is_Some (run script (init stack))) /\
  (forall e s,
      ready_state s = TESTING -> periods s = 250000 -> elapsed e = 0 ->
      step e s = None).
Proof.
  split; [exact achieved_zero_100000|].
  split; [exact achieved_zero_250000|].
  split; [|split].
  - intros i j s s' Hp Hm. unfold eval_body. rewrite Hm, Hp. simpl.
    destruct (frequencies !! j) as [f|] eqn:Hf; [simpl|discriminate].
    rewrite achieved_zero_100000.
    pose proof (frequencies_finite _ _ Hf) as Hfin.
    destruct f as [?|?| |sf mf ef]; try discriminate.
    change (fabs (fsub pinf (S754_finite sf mf ef))) with pinf.
    rewrite flt_pinf. intros [= <-]. repeat split.
  - intros stack script. apply run_defined_upto_testing.
  - intros e s H1 Hp He. rewrite (step_testing _ _ H1). unfold testing.
    destruct (poll_adc_fields e s) as (_ & _ & _ & _ & _ & -> & _).
    rewrite Hp, He, achieved_zero_250000. reflexivity.
Qed.

(** ** The delay primitive (lines 11-12 and 63-90) *)

Lemma execute_returns (ops : list Z) (k : nat) :
  ops !! k = Some RET -> (forall i, (i < k)%nat -> ops !! i = Some NOP) ->
  execute ops = Some k.
Proof.
  revert k. induction ops as [|w rest IH]; intros k H0 Hn; simpl.
  - discriminate.
  - destruct k as [|k].
    + simpl in H0. injection H0 as ->. rewrite decide_True by reflexivity.
      reflexivity.
    + pose proof (Hn 0%nat ltac:(lia)) as Hw. simpl in Hw. injection Hw as ->.
      rewrite decide_False by discriminate.
      rewrite decide_True by reflexivity.
      rewrite (IH k); [reflexivity|exact H0|].
      intros i Hi. apply (Hn (S i)). lia.
Qed.

Lemma execute_one_hot (k : nat) :
  (k < MAX_OPCODES)%nat -> execute (one_hot k) = Some k.
Proof.
  intros Hk. apply execute_returns.
  - rewrite one_hot_lookup by lia. rewrite decide_True by reflexivity.
    reflexivity.
  - intros i Hi. rewrite one_hot_lookup by lia.
    rewrite decide_False by lia. reflexivity.
Qed.

Lemma transmit_times_defined (n : nat) (ops : list Z) (v : Z) (d : nat) :
  execute ops = Some d ->
  transmit_times n ops v
  = Some (concat (replicate n [Dac v; Delay d; Dac 0; Delay d])).
Proof.
  intros E. induction n as [|n IH]; simpl; [reflexivity|].
  unfold transmit. rewrite E. simpl. rewrite IH. reflexivity.
Qed.

(** ** Bursts along a run (lines 37-56, 167-170, 219-222, 240-242) *)

Lemma measuring_periods e s s' :
  measuring e s = Some s' -> periods s' = periods s \/ periods s' = 250000.
Proof.
  unfold measuring.
  destruct (advance e s) as [s1|] eqn:E; [simpl|discriminate].
  destruct (advance_fields _ _ _ E) as (_ & _ & _ & _ & _ & A6 & _).
  destruct (decide (index s1 = measure_limit)).
  - unfold evaluate.
    destruct (scan _ s1) as [s2|] eqn:E2; [simpl|discriminate].
    intros E3. right. apply (handoff_fields _ _ E3).
  - intros [= <-]. left. exact A6.
Qed.

Lemma step_periods_range e s s' :
  step e s = Some s' ->
  0 <= periods s < 2 ^ 32 -> 0 <= periods s' < 2 ^ 32.
Proof.
  intros E Hr.
  destruct (poll_adc_fields e s) as (_ & _ & _ & _ & _ & P5 & _).
  destruct (decide (ready_state s = MEASURING)) as [H2|H2].
  { rewrite (step_measuring _ _ H2) in E.
    destruct (measuring_periods _ _ _ E) as [-> | ->];
      [rewrite P5; exact Hr|].
    change (2 ^ 32) with 4294967296. lia. }
  destruct (decide (ready_state s = TESTING)) as [H1|H1].
  { rewrite (step_testing _ _ H1) in E.
    destruct (testing_fields _ _ _ E) as (_&_&_&_&_&_&_& Hf & Hp).
    apply (final_periods_floor (freq s') sample_rate); [|exact Hp].
    rewrite Hf. apply achieved_not_negative. }
  rewrite (step_idle _ _ H2 H1) in E. injection E as <-.
  rewrite P5. exact Hr.
Qed.

Lemma run_periods_range stack script s :
  run script (init stack) = Some s -> 0 <= periods s < 2 ^ 32.
Proof.
  revert s. induction script as [|e script IH] using rev_ind; intros s.
  - intros [= <-]. simpl. change (2 ^ 32) with 4294967296. lia.
  - rewrite run_snoc.
    destruct (run script (init stack)) as [s0|]; [simpl|discriminate].
    intros E. exact (step_periods_range _ _ _ E (IH s0 eq_refl)).
Qed.

Lemma run_buffer stack script s :
  run script (init stack) = Some s ->
  opcodes s = one_hot (index s) /\ (index s < MAX_OPCODES)%nat /\
  (ready_state s = 2 \/ ready_state s = 1 \/ ready_state s = 0) /\
  ((length script < measure_limit)%nat -> index s = length script).
Proof.
  intros E.
  destruct (run_cases _ _ _ E)
    as [[Hl (H1&_&H3&H4&_)]|[[Hl (H0&_&_&H4&H5&_)]|[Hl (H0&s0&_&Hinv&B2&B3)]]];
    unfold measure_limit, MAX_OPCODES in *; simpl in *.
  - rewrite H3. split; [exact H1|]. split; [lia|].
    split; [left; exact H4|]. intros _. reflexivity.
  - split; [exact H4|]. split; [lia|].
    split; [right; left; exact H0|]. lia.
  - destruct Hinv as (_&_&_&H4&H5&_). rewrite B2, B3.
    unfold measure_limit, MAX_OPCODES in H5. simpl in H5.
    split; [exact H4|]. split; [lia|].
    split; [right; right; exact H0|]. lia.
Qed.

Lemma run_emit stack script s e :
  run script (init stack) = Some s ->
  emit e s
  = Some (concat (replicate (Z.to_nat (periods s))
                    [Dac (sint32 (snd (adc_step e (read_state s) (adc_value s))));
                     Delay (index s); Dac 0; Delay (index s)])).
Proof.
  intros E.
  pose proof (run_periods_range _ _ _ E) as Hp.
  destruct (run_buffer _ _ _ E) as (Hops & Hidx & Hphase & _).
  assert (Hex : execute (opcodes s) = Some (index s))
    by (rewrite Hops at 1; apply execute_one_hot; exact Hidx).
  unfold emit.
  destruct (poll_adc_fields e s) as (Hadc & P1 & _ & _ & P4 & P5 & _).
  assert (Hv : adc_value (poll_adc e s)
               = snd (adc_step e (read_state s) (adc_value s)))
    by (rewrite <- Hadc; reflexivity).
  assert (Hb : burst (opcodes (poll_adc e s)) (periods (poll_adc e s))
                 (sint32 (adc_value (poll_adc e s)))
               = Some (concat (replicate (Z.to_nat (periods s))
                   [Dac (sint32 (snd (adc_step e (read_state s) (adc_value s))));
                    Delay (index s); Dac 0; Delay (index s)]))).
  { unfold burst. rewrite P1, P5, Hv.
    assert (Hw : wrap32 (periods s) = periods s)
      by (apply Z.mod_small; exact Hp).
    rewrite Hw. apply transmit_times_defined. exact Hex. }
  rewrite P4. destruct Hphase as [-> | [-> | ->]]; exact Hb.
Qed.

(** X4.  At every iteration boundary of a run, executing the opcode buffer
    returns, after exactly [index] no-ops; during measurement that is the
    number of iterations run so far, so the delay grows by one no-op per
    offset.  Whatever the next iteration observes, its burst is therefore
    defined: it is [periods] times the four events level, delay, zero,
    delay, the level being the ADC value as the iteration's ADC step leaves
    it and both delays being [index] no-ops. *)
Theorem burst_at_active_offset (stack : nat -> Z) (script : list Env)
  (s : State) :
  run script (init stack) = Some s ->
  execute (opcodes s) = Some (index s) /\
  ((length script < measure_limit)%nat ->
   execute (opcodes s) = Some (length script)) /\
  0 <= periods s < 2 ^ 32 /\
  forall e,
    emit e s
    = Some (concat (replicate (Z.to_nat (periods s))
                      [Dac (sint32 (snd (adc_step e (read_state s) (adc_value s))));
                       Delay (index s); Dac 0; Delay (index s)])).
Proof.
  intros E.
  destruct (run_buffer _ _ _ E) as (Hops & Hidx & _ & Hlen).
  assert (Hex : execute (opcodes s) = Some (index s))
    by (rewrite Hops at 1; apply execute_one_hot; exact Hidx).
  split; [exact Hex|].
  split; [intros Hl; rewrite Hex, (Hlen Hl); reflexivity|].
  split; [exact (run_periods_range _ _ _ E)|].
  intros e. exact (run_emit _ _ _ e E).
Qed.

Lemma burst_at_active_offset_witness :
  run (bench_script 3) (init clean_stack) = Some bench_3 /\
  execute (opcodes bench_3) = Some 3%nat /\
  emit (bench 3) bench_3
  = Some (concat (replicate (Z.to_nat 100000)
                    [Dac 40000; Delay 3; Dac 0; Delay 3])).
Proof.
  pose proof (burst_at_active_offset clean_stack (bench_script 3) bench_3
                bench_run_3) as (_ & H2 & _ & H4).
  split; [exact bench_run_3|]. split.
  - apply H2. unfold measure_limit, MAX_OPCODES. simpl. lia.
  - exact (H4 (bench 3)).
Defined.

(** ** What BROADCASTING leaves alone (lines 238-243) *)

Lemma same_calibration_refl s : same_calibration s s.
Proof. repeat split. Qed.

Lemma same_calibration_trans a b c :
  same_calibration a b -> same_calibration b c -> same_calibration a c.
Proof.
  unfold same_calibration. intros H1 H2.
  destruct H1 as (?&?&?&?&?&?&?&?&?&?&?&?&?).
  destruct H2 as (?&?&?&?&?&?&?&?&?&?&?&?&?).
  repeat split; congruence.
Qed.

Lemma poll_adc_same_calibration e s : same_calibration s (poll_adc e s).
Proof.
  unfold poll_adc. destruct (adc_step e (read_state s) (adc_value s)).
  repeat split.
Qed.

Lemma step_keeps_selection e s s' :
  ready_state s <> MEASURING -> step e s = Some s' ->
  desired s' = desired s /\ best_frequency s' = best_frequency s.
Proof.
  intros H2 E.
  destruct (poll_adc_fields e s) as (_&_&_&_&_&_&_& P7 & _ & P9).
  destruct (decide (ready_state s = TESTING)) as [H1|H1].
  - rewrite (step_testing _ _ H1) in E. unfold testing in E.
    destruct (final_periods _ sample_rate); [simpl in E|discriminate].
    injection E as <-. simpl. split; assumption.
  - rewrite (step_idle _ _ H2 H1) in E. injection E as <-.
    split; assumption.
Qed.

Lemma run_desired stack script s :
  run script (init stack) = Some s ->
  (measure_limit <= length script)%nat ->
  frequencies !! best_frequency s = Some (desired s).
Proof.
  revert s. induction script as [|e script IH] using rev_ind; intros s E Hl.
  - unfold measure_limit, MAX_OPCODES in Hl. simpl in Hl. lia.
  - destruct (run_cases _ _ _ E) as [[Hc _]|[[_ Hinv]|[Hc _]]]; [lia| |].
    + apply Hinv.
    + rewrite run_snoc in E. rewrite length_app in Hc. simpl in Hc.
      destruct (run script (init stack)) as [s0|] eqn:E0;
        [simpl in E|discriminate].
      assert (Hne : ready_state s0 <> MEASURING).
      { destruct (run_cases _ _ _ E0) as [[Hc0 _]|[[_ (H&_)]|[_ (H&_)]]];
          [lia|rewrite H; discriminate|rewrite H; discriminate]. }
      destruct (step_keeps_selection _ _ _ Hne E) as [-> ->].
      apply (IH s0 eq_refl). lia.
Qed.

(** X5.  Once BROADCASTING is reached nothing of the calibration changes
    any more.  Whatever further observations the loop makes, it stays
    defined and in BROADCASTING, and the opcode buffer, the active offset,
    the tuned repeat count, the measurement array, the selected offset and
    target, the desired frequency (an entry of the adjusted table) and the
    measured frequency all keep their values; only the two ADC variables
    move, as the polling machine moves them. *)
Theorem calibration_frozen (stack : nat -> Z) (script more : list Env)
  (s : State) :
  run script (init stack) = Some s ->
  (measure_limit < length script)%nat ->
  exists s',
    run (script ++ more) (init stack) = Some s' /\
    same_calibration s s' /\
    ready_state s' = BROADCASTING /\
    frequencies !! best_frequency s' = Some (desired s') /\
    (read_state s', adc_value s')
    = adc_run more (read_state s, adc_value s).
Proof.
  intros E Hl.
  assert (H0 : ready_state s = BROADCASTING).
  { destruct (run_cases _ _ _ E) as [[Hc _]|[[Hc _]|[_ (H&_)]]];
      [lia|lia|exact H]. }
  assert (Hgen : forall more s, ready_state s = BROADCASTING ->
            exists s', run more s = Some s' /\ same_calibration s s').
  { clear. induction more as [|e more IH]; intros s H0; simpl.
    - exists s. split; [reflexivity|apply same_calibration_refl].
    - rewrite (step_broadcasting _ _ H0). simpl.
      pose proof (poll_adc_same_calibration e s) as Hc.
      destruct (IH (poll_adc e s)) as (s' & E' & Hc').
      { destruct Hc as (_&_&_&->&_). exact H0. }
      exists s'. split; [exact E'|].
      exact (same_calibration_trans _ _ _ Hc Hc'). }
  destruct (Hgen more s H0) as (s' & E' & Hc).
  assert (Erun : run (script ++ more) (init stack) = Some s')
    by (rewrite run_app, E; exact E').
  exists s'. split; [exact Erun|]. split; [exact Hc|].
  split; [destruct Hc as (_&_&_&->&_); exact H0|].
  split.
  - apply (run_desired stack (script ++ more) s' Erun).
    rewrite length_app. lia.
  - exact (run_adc _ _ _ E').
Qed.

Lemma calibration_frozen_witness :
  run (bench_script 80) (init clean_stack) = Some bench_80 /\
  (measure_limit < length (bench_script 80))%nat /\
  exists s',
    run (bench_script 80 ++ [bench 80]) (init clean_stack) = Some s' /\
    periods s' = 30 /\ index s' = 19%nat.
Proof.
  destruct (calibration_frozen clean_stack (bench_script 80) [bench 80]
              bench_80 bench_run_80)
    as (s' & E & (_&_&Hi&_&Hp&_) & _).
  { unfold measure_limit, MAX_OPCODES. simpl. lia. }
  split; [exact bench_run_80|].
  split; [unfold measure_limit, MAX_OPCODES; simpl; lia|].
  exists s'. split; [exact E|]. split; [rewrite Hp|rewrite Hi]; reflexivity.
Defined.

(** ** Timer readings (lines 167-175 and 219-224) *)

(** X6.  The time recorded for a burst is the time the timer advanced
    between the two readings, also when the 32-bit microsecond counter
    wraps around in between: if the second reading is the first one plus
    [d] modulo 2^32, the slot of the current offset receives [d]. *)
Theorem measurement_survives_timer_wrap (e : Env) (s s' : State) (d : Z) :
  advance e s = Some s' ->
  0 <= d < 2 ^ 32 ->
  wrap32 (t_end e) = wrap32 (t_start e + d) ->
  elapsed e = d /\ measurements s' !! index s = Some (Recorded d).
Proof.
  intros E Hd Hw.
  assert (He : elapsed e = d).
  { unfold elapsed. rewrite Hw. unfold wrap32.
    rewrite <- Zminus_mod.
    replace (t_start e + d - t_start e) with d by lia.
    apply Z.mod_small. exact Hd. }
  split; [exact He|].
  pose proof (advance_fields _ _ _ E) as (_ & Hm & _).
  unfold advance in E.
  destruct (store (measurements s) _ _) as [ms|] eqn:E1; [|discriminate].
  apply store_inv in E1 as [Hlt _].
  rewrite Hm, He. apply list_lookup_insert_eq. exact Hlt.
Qed.

Lemma measurement_survives_timer_wrap_witness :
  advance (mkEnv false true 0 2147483643 (-2147483638)) (init clean_stack)
  = Some (default (init clean_stack)
            (advance (mkEnv false true 0 2147483643 (-2147483638))
               (init clean_stack))) /\
  0 <= 15 < 2 ^ 32 /\
  wrap32 (-2147483638) = wrap32 (2147483643 + 15) /\
  elapsed (mkEnv false true 0 2147483643 (-2147483638)) = 15 /\
  measurements
    (default (init clean_stack)
       (advance (mkEnv false true 0 2147483643 (-2147483638))
          (init clean_stack))) !! index (init clean_stack)
  = Some (Recorded 15).
Proof.
  assert (E : advance (mkEnv false true 0 2147483643 (-2147483638))
                (init clean_stack)
              = Some (default (init clean_stack)
                        (advance (mkEnv false true 0 2147483643 (-2147483638))
                           (init clean_stack))))
    by (vm_compute; reflexivity).
  assert (Hd : 0 <= 15 < 2 ^ 32) by (change (2 ^ 32) with 4294967296; lia).
  assert (Hw : wrap32 (-2147483638) = wrap32 (2147483643 + 15))
    by (vm_compute; reflexivity).
  split; [exact E|]. split; [exact Hd|]. split; [exact Hw|].
  exact (measurement_survives_timer_wrap _ _ _ 15 E Hd Hw).
Defined.

(** ** More on the ADC polling machine (lines 137-154) *)

Lemma adc_states_snoc script e st :
  adc_states (script ++ [e]) st
  = adc_states script st ++ [fst (adc_run script st)].
Proof.
  revert st. induction script as [|x script IH]; intros st; simpl;
    [reflexivity|]. rewrite IH. reflexivity.
Qed.

Lemma adc_states_length script st :
  length (adc_states script st) = length script.
Proof.
  revert st. induction script as [|x script IH]; intros st; simpl;
    [reflexivity|]. rewrite IH. reflexivity.
Qed.

(** X7.  The latest ADC value is never anything but what the result
    register held: it is 0 as long as no iteration found the machine in
    LATCH_VALUE, and otherwise it is the result register (as an unsigned
    int) observed by the most recent iteration that did. *)
Theorem adc_value_provenance (stack : nat -> Z) (script : list Env)
  (s : State) :
  run script (init stack) = Some s ->
  (adc_value s = 0 /\ ~ In 3 (adc_states script (0, 0))) \/
  exists i e,
    script !! i = Some e /\
    adc_states script (0, 0) !! i = Some 3 /\
    adc_value s = wrap32 (adc_result e) /\
    forall j, (i < j)%nat -> adc_states script (0, 0) !! j <> Some 3.
Proof.
  intros E. pose proof (run_adc _ _ _ E) as Hrun. simpl in Hrun.
  replace (adc_value s) with (snd (adc_run script (0, 0)))
    by (rewrite <- Hrun; reflexivity).
  clear. induction script as [|e script IH] using rev_ind.
  - left. simpl. split; [reflexivity|tauto].
  - rewrite adc_run_snoc, adc_states_snoc.
    pose proof (adc_states_length script (0, 0)) as Hlen.
    destruct (decide (fst (adc_run script (0, 0)) = 3)) as [H3|H3].
    + right. exists (length script), e.
      split; [rewrite lookup_app_r, Nat.sub_diag by lia; reflexivity|].
      split.
      { rewrite lookup_app_r by lia. rewrite Hlen, Nat.sub_diag.
        simpl. rewrite H3. reflexivity. }
      split; [rewrite H3; reflexivity|].
      intros j Hj. rewrite lookup_ge_None_2; [discriminate|].
      rewrite length_app, Hlen. simpl. lia.
    + rewrite adc_value_kept by exact H3.
      destruct IH as [[Hv Hno]|(i & x & Hi & Hs & Hv & Hlast)].
      * left. split; [exact Hv|]. rewrite in_app_iff. simpl.
        intros [Hin|[Heq|[]]]; [tauto|congruence].
      * right. exists i, x.
        pose proof (lookup_lt_Some _ _ _ Hi) as Hlt.
        split; [rewrite lookup_app_l by lia; exact Hi|].
        split; [rewrite lookup_app_l by lia; exact Hs|].
        split; [exact Hv|]. intros j Hj.
        destruct (decide (j < length script)%nat) as [Hjl|Hjl].
        -- rewrite lookup_app_l by lia. apply Hlast. exact Hj.
        -- rewrite lookup_app_r by lia. rewrite Hlen.
           destruct (j - length script)%nat as [|n]; simpl;
             [congruence|].
           rewrite lookup_nil. discriminate.
Qed.

Lemma adc_value_provenance_witness :
  run (bench_script 81) (init clean_stack) = Some bench_81 /\
  ((adc_value bench_81 = 0 /\
    ~ In 3 (adc_states (bench_script 81) (0, 0))) \/
   exists i e,
     bench_script 81 !! i = Some e /\
     adc_states (bench_script 81) (0, 0) !! i = Some 3 /\
     adc_value bench_81 = wrap32 (adc_result e) /\
     forall j, (i < j)%nat ->
       adc_states (bench_script 81) (0, 0) !! j <> Some 3).
Proof.
  split; [exact bench_run_81|].
  exact (adc_value_provenance clean_stack (bench_script 81) bench_81
           bench_run_81).
Defined.

Lemma adc_counts (script : list Env) :
  0 <= fst (adc_run script (0, 0)) <= 3 /\
  conversions_started script
  = Nat.add (values_latched script)
      (if decide (fst (adc_run script (0, 0)) = 0) then 0%nat else 1%nat) /\
  4 * Z.of_nat (values_latched script) + fst (adc_run script (0, 0))
  <= Z.of_nat (length script) /\
  (Forall responsive script ->
   4 * Z.of_nat (values_latched script) + fst (adc_run script (0, 0))
   = Z.of_nat (length script)).
Proof.
  unfold conversions_started, values_latched.
  induction script as [|e script IH] using rev_ind.
  - simpl. repeat split; lia.
  - rewrite adc_run_snoc, adc_states_snoc, !count_occ_app, length_app.
    destruct IH as (Hr & Hs & Hle & Heq).
    destruct (adc_run script (0, 0)) as [rs v]. cbn [fst snd] in *.
    assert (rs = 0 \/ rs = 1 \/ rs = 2 \/ rs = 3)
      as [-> | [-> | [-> | ->]]] by lia; simpl in *.
    + repeat split; try lia.
      intros HF. apply Forall_app in HF as [HF _]. specialize (Heq HF). lia.
    + destruct (adc_active e) eqn:Ea; simpl; repeat split; try lia.
      * intros HF. apply Forall_app in HF as [_ HF].
        apply Forall_inv in HF. destruct HF as [HF _]. congruence.
      * intros HF. apply Forall_app in HF as [HF _]. specialize (Heq HF). lia.
    + destruct (adc_coco e) eqn:Ec; simpl; repeat split; try lia.
      * intros HF. apply Forall_app in HF as [HF _]. specialize (Heq HF). lia.
      * intros HF. apply Forall_app in HF as [_ HF].
        apply Forall_inv in HF. destruct HF as [_ HF]. congruence.
    + repeat split; try lia.
      intros HF. apply Forall_app in HF as [HF _]. specialize (Heq HF). lia.
Qed.

(** X8.  The ADC value is refreshed at most once in four iterations of the
    control loop, and exactly once in four when the ADC always answers at
    once: four times the number of latched values, plus the polling state,
    is at most (then: equal to) the number of iterations.  Every
    conversion started is latched before the next one is started: the
    started ones are the latched ones plus the one in progress. *)
Theorem adc_refresh_rate (stack : nat -> Z) (script : list Env) (s : State) :
  run script (init stack) = Some s ->
  4 * Z.of_nat (values_latched script) + read_state s
  <= Z.of_nat (length script) /\
  conversions_started script
  = Nat.add (values_latched script)
      (if decide (read_state s = 0) then 0%nat else 1%nat) /\
  (Forall responsive script ->
   values_latched script = (length script / 4)%nat /\
   read_state s = Z.of_nat (length script mod 4)).
Proof.
  intros E. pose proof (run_adc _ _ _ E) as Hrun. simpl in Hrun.
  replace (read_state s) with (fst (adc_run script (0, 0)))
    by (rewrite <- Hrun; reflexivity).
  destruct (adc_counts script) as (Hr & Hs & Hle & Heq).
  split; [exact Hle|]. split; [exact Hs|].
  intros HF. specialize (Heq HF).
  pose proof (Nat.div_mod_eq (length script) 4) as Hdm.
  pose proof (Nat.mod_upper_bound (length script) 4 ltac:(lia)) as Hm.
  split; lia.
Qed.

Lemma bench_script_responsive n : Forall responsive (bench_script n).
Proof.
  unfold bench_script. apply Forall_fmap, Forall_forall.
  intros i _. split; reflexivity.
Qed.

Lemma adc_refresh_rate_witness :
  run (bench_script 81) (init clean_stack) = Some bench_81 /\
  values_latched (bench_script 81) = 20%nat /\
  read_state bench_81 = 1.
Proof.
  pose proof (adc_refresh_rate clean_stack (bench_script 81) bench_81
                bench_run_81) as (_ & _ & H).
  destruct (H (bench_script_responsive 81)) as [H1 H2].
  split; [exact bench_run_81|]. split; [exact H1|exact H2].
Defined.

Lemma stalled_never_latches (script : list Env) :
  (Forall (fun e => adc_active e = true) script ->
   fst (adc_run script (0, 0)) <= 1) /\
  (Forall (fun e => adc_active e = true) script \/
   Forall (fun e => adc_coco e = false) script ->
   0 <= fst (adc_run script (0, 0)) <= 2 /\
   ~ In 3 (adc_states script (0, 0))).
Proof.
  induction script as [|e script IH] using rev_ind.
  - simpl. split; [lia|]. intros _. split; [lia|tauto].
  - rewrite adc_run_snoc, adc_states_snoc.
    destruct IH as [IH1 IH2].
    split.
    + intros HF. apply Forall_app in HF as [HF He].
      apply Forall_inv in He. specialize (IH1 HF).
      destruct (IH2 (or_introl HF)) as [Hr _].
      destruct (adc_run script (0, 0)) as [rs v]. cbn [fst snd] in *.
      assert (rs = 0 \/ rs = 1) as [-> | ->] by lia; simpl; [lia|].
      rewrite He. simpl. lia.
    + intros HF.
      assert (HF' : Forall (fun e => adc_active e = true) script \/
                    Forall (fun e => adc_coco e = false) script).
      { destruct HF as [HF|HF]; apply Forall_app in HF as [HF _];
          [left|right]; exact HF. }
      destruct (IH2 HF') as [Hr Hno].
      split.
      * destruct HF as [HF|HF]; apply Forall_app in HF as [HF He];
          apply Forall_inv in He.
        -- specialize (IH1 HF).
           destruct (adc_run script (0, 0)) as [rs v]. cbn [fst snd] in *.
           assert (rs = 0 \/ rs = 1) as [-> | ->] by lia; simpl; [lia|].
           rewrite He. simpl. lia.
        -- destruct (adc_run script (0, 0)) as [rs v]. cbn [fst snd] in *.
           assert (rs = 0 \/ rs = 1 \/ rs = 2) as [-> | [-> | ->]] by lia;
             simpl; [lia| |rewrite He; simpl; lia].
           destruct (adc_active e); simpl; lia.
      * rewrite in_app_iff. simpl. intros [Hin|[Heq|[]]]; [tauto|lia].
Qed.

(** X9.  An ADC that is always seen converting, or never seen complete,
    does not stop the loop, but nothing is ever latched: one conversion at
    most is started, the machine never reaches LATCH_VALUE, the latest value
    stays 0, and the burst of the next iteration, whatever it observes,
    writes level 0 only. *)
Theorem stalled_adc_sends_zero (stack : nat -> Z) (script : list Env)
  (s : State) :
  run script (init stack) = Some s ->
  Forall (fun e => adc_active e = true) script \/
  Forall (fun e => adc_coco e = false) script ->
  values_latched script = 0%nat /\
  (conversions_started script <= 1)%nat /\
  0 <= read_state s <= 2 /\
  adc_value s = 0 /\
  forall e,
    emit e s
    = Some (concat (replicate (Z.to_nat (periods s))
                      [Dac 0; Delay (index s); Dac 0; Delay (index s)])).
Proof.
  intros E HF. pose proof (run_adc _ _ _ E) as Hrun. simpl in Hrun.
  destruct (stalled_never_latches script) as [_ H].
  destruct (H HF) as [Hr Hno]. clear H.
  destruct (adc_counts script) as (_ & Hs & _).
  assert (Hrs : read_state s = fst (adc_run script (0, 0)))
    by (rewrite <- Hrun; reflexivity).
  assert (Hv : adc_value s = 0).
  { replace (adc_value s) with (snd (adc_run script (0, 0)))
      by (rewrite <- Hrun; reflexivity).
    apply (adc_no_latch script (0, 0)). exact Hno. }
  assert (HL : values_latched script = 0%nat)
    by (apply count_occ_not_In; exact Hno).
  split; [exact HL|].
  split; [rewrite Hs, HL; destruct (decide _); lia|].
  split; [rewrite Hrs; exact Hr|].
  split; [exact Hv|].
  intros e. rewrite (run_emit _ _ _ e E).
  rewrite adc_value_kept by lia. rewrite Hv. reflexivity.
Qed.

Lemma stalled_run : run stalled_script (init clean_stack) = Some stalled_state.
Proof. vm_compute. reflexivity. Qed.

Lemma stalled_adc_sends_zero_witness :
  run stalled_script (init clean_stack) = Some stalled_state /\
  Forall (fun e => adc_coco e = false) stalled_script /\
  emit (bench 5) stalled_state
  = Some (concat (replicate (Z.to_nat 100000)
                    [Dac 0; Delay 5; Dac 0; Delay 5])).
Proof.
  assert (HF : Forall (fun e => adc_coco e = false) stalled_script)
    by (repeat constructor).
  split; [exact stalled_run|]. split; [exact HF|].
  exact (proj2 (proj2 (proj2 (proj2
           (stalled_adc_sends_zero clean_stack stalled_script stalled_state
              stalled_run (or_intror HF))))) (bench 5)).
Defined.

(** ** The size of the tuned repeat count (lines 219-225) *)

Lemma of_Z_big_digits z : 1 <= z < 2 ^ 32 -> big (Zdigits2 z) (of_Z z).
Proof.
  intros [H1 H2]. destruct z as [|p|p]; try lia.
  unfold of_Z, binary_normalize, binary_round.
  pose proof (shl_align_mag p 0 (fexp prec emax (Zpos (digits2_pos p) + 0)))
    as Hmag.
  destruct (shl_align p 0 _) as [mz ez]. cbn [fst snd] in Hmag.
  assert (Hd : 1 <= Zpos (digits2_pos p) <= 32).
  { split; [lia|]. apply (Zdigits2_upper (Zpos p)); lia. }
  apply (big_mono (Zdigits2 (Zpos mz) + ez)); [simpl; lia|].
  apply round_aux_big; simpl; lia.
Qed.

Lemma shiftl_below m e K :
  Zpos (digits2_pos m) + e <= K -> 0 <= K ->
  0 <= Z.shiftl (Zpos m) e < 2 ^ K.
Proof.
  intros H HK.
  pose proof (digits2_pos_bounds m) as [_ Hu].
  assert (Hd : 1 <= Zpos (digits2_pos m)) by lia.
  destruct (Z_le_gt_dec 0 e) as [He|He].
  - rewrite Z.shiftl_mul_pow2 by lia.
    assert (0 < 2 ^ e) by (apply Z.pow_pos_nonneg; lia).
    split; [lia|].
    apply Z.lt_le_trans with (2 ^ (Zpos (digits2_pos m) + e)).
    + rewrite Z.pow_add_r by lia. apply Z.mul_lt_mono_pos_r; lia.
    + apply Z.pow_le_mono_r; lia.
  - rewrite Z.shiftl_div_pow2 by lia.
    assert (0 < 2 ^ (- e)) by (apply Z.pow_pos_nonneg; lia).
    assert (Ht : 0 <= Zpos m / 2 ^ (- e)) by (apply Z.div_pos; lia).
    split; [exact Ht|].
    pose proof (Zdigits2_div_pow2_upper (Zpos m) (- e) ltac:(lia) ltac:(lia))
      as Hdt.
    cbn [Zdigits2] in Hdt.
    assert (0 < 2 ^ K) by (apply Z.pow_pos_nonneg; lia).
    destruct (Z.eq_dec (Zpos m / 2 ^ (- e)) 0) as [->|Hne]; [lia|].
    pose proof (Zdigits2_bounds (Zpos m / 2 ^ (- e)) ltac:(lia)) as [_ Hub].
    apply Z.lt_le_trans with (2 ^ Zdigits2 (Zpos m / 2 ^ (- e))); [exact Hub|].
    apply Z.pow_le_mono_r; lia.
Qed.

Lemma to_int_below K x t :
  small K x -> 0 <= K -> to_int x = Some t -> - 2 ^ K < t < 2 ^ K.
Proof.
  intros Hs HK.
  assert (0 < 2 ^ K) by (apply Z.pow_pos_nonneg; lia).
  destruct x as [s|s| |s m e]; cbn [small] in Hs; try contradiction.
  - intros [= <-]. lia.
  - unfold to_int, trunc. destruct (_ && _); [|discriminate].
    intros [= <-]. pose proof (shiftl_below m e K Hs HK).
    destruct s; simpl; lia.
Qed.

(** The quotient TESTING truncates is below 2^(26-k) when the burst took
    at least 2^k microseconds. *)
Lemma tuned_small elapsed k :
  0 <= k -> 2 ^ k <= elapsed < 2 ^ 32 ->
  small (26 - k)
    (fdiv (fmul half (achieved 250000 elapsed)) (of_uint sample_rate)).
Proof.
  intros Hk [Hlo Hhi].
  assert (0 < 2 ^ k) by (apply Z.pow_pos_nonneg; lia).
  assert (Hw : wrap32 elapsed = elapsed) by (apply Z.mod_small; lia).
  assert (k <= 31).
  { destruct (Z_le_gt_dec k 31); [assumption|exfalso].
    assert (2 ^ 32 <= 2 ^ k) by (apply Z.pow_le_mono_r; lia). lia. }
  pose proof (Zdigits2_lower elapsed k Hk Hlo) as Hdig.
  assert (H1 : small (39 - k) (achieved 250000 elapsed)).
  { unfold achieved. replace (39 - k) with (38 - (k + 1) + 2) by lia.
    apply fdiv_small.
    - vm_compute. discriminate.
    - unfold of_uint. rewrite Hw.
      apply (big_mono (Zdigits2 elapsed)); [exact Hdig|].
      apply of_Z_big_digits. lia.
    - lia. }
  replace (26 - k) with (39 - k - 15 + 2) by lia.
  apply fdiv_small.
  - apply fmul_half_small; [exact H1|lia].
  - vm_compute. discriminate.
  - lia.
Qed.

Lemma tuned_count_below elapsed k p :
  0 <= k <= 26 -> 2 ^ k <= elapsed < 2 ^ 32 ->
  final_periods (achieved 250000 elapsed) sample_rate = Some p ->
  0 <= p < 2 ^ (26 - k).
Proof.
  intros Hk He E.
  destruct (final_periods_floor _ _ _ (achieved_not_negative _ _) E)
    as [_ [H0 _]].
  split; [exact H0|].
  apply (to_int_below (26 - k) _ p (tuned_small elapsed k ltac:(lia) He));
    [lia|exact E].
Qed.

Lemma broadcasting_run more s :
  ready_state s = BROADCASTING ->
  exists s', run more s = Some s' /\ same_calibration s s'.
Proof.
  revert s. induction more as [|e more IH]; intros s H0; simpl.
  - exists s. split; [reflexivity|apply same_calibration_refl].
  - rewrite (step_broadcasting _ _ H0). simpl.
    pose proof (poll_adc_same_calibration e s) as Hc.
    destruct (IH (poll_adc e s)) as (s' & E' & Hc').
    { destruct Hc as (_&_&_&->&_). exact H0. }
    exists s'. split; [exact E'|].
    exact (same_calibration_trans _ _ _ Hc Hc').
Qed.

(** X10.  The repeat count TESTING computes is bounded by the time its
    burst took: the count times the elapsed microseconds stays below 2^27,
    so the count itself is below 2^27 and shrinks as the burst gets slower.
    A burst of 2^26 microseconds or more gives the count 0, and then the
    loop is defined on every continuation of the script, the count stays 0
    and the burst of every later iteration is empty: the transmitter stays
    silent. *)
Theorem tuned_count_bounded (stack : nat -> Z) (script : list Env)
  (s : State) (e : Env) (s' : State) :
  run script (init stack) = Some s ->
  length script = measure_limit ->
  step e s = Some s' ->
  0 <= periods s' /\
  periods s' * elapsed e < 2 ^ 27 /\
  (2 ^ 26 <= elapsed e ->
   periods s' = 0 /\
   forall more, exists s'',
     run (script ++ e :: more) (init stack) = Some s'' /\
     periods s'' = 0 /\
     forall e', emit e' s'' = Some []).
Proof.
  intros E Hlen E'.
  destruct (run_cases _ _ _ E) as [[Hl _]|[[_ Hinv]|[Hl _]]]; [lia| |lia].
  destruct Hinv as (H1 & Hp & _).
  pose proof (elapsed_range e) as Hr.
  assert (Hne : elapsed e <> 0).
  { apply (testing_step_defined e s H1 Hp). eexists. exact E'. }
  pose proof E' as Et. rewrite (step_testing _ _ H1) in Et.
  destruct (testing_fields _ _ _ Et) as (HB&_&_&_&_&_&_& Hf & Hfp).
  destruct (poll_adc_fields e s) as (_ & _ & _ & _ & _ & P5 & _).
  rewrite Hf, P5, Hp in Hfp.
  destruct (final_periods_floor _ _ _ (achieved_not_negative _ _) Hfp)
    as [_ [H0 _]].
  split; [exact H0|].
  assert (Hzero : 2 ^ 26 <= elapsed e -> periods s' = 0).
  { intros Hbig.
    pose proof (tuned_count_below (elapsed e) 26 (periods s')
                  ltac:(lia) ltac:(lia) Hfp) as Hb.
    change (2 ^ (26 - 26)) with 1 in Hb. lia. }
  split.
  - destruct (Z_le_gt_dec (2 ^ 26) (elapsed e)) as [Hbig|Hsmall].
    + rewrite (Hzero Hbig). simpl. lia.
    + pose proof (Z.log2_spec (elapsed e) ltac:(lia)) as [Hl2 Hu2].
      pose proof (Z.log2_nonneg (elapsed e)) as Hk0.
      assert (Hk26 : Z.log2 (elapsed e) <= 26).
      { destruct (Z_le_gt_dec (Z.log2 (elapsed e)) 26); [assumption|exfalso].
        assert (2 ^ 26 <= 2 ^ Z.log2 (elapsed e))
          by (apply Z.pow_le_mono_r; lia).
        lia. }
      pose proof (tuned_count_below (elapsed e) (Z.log2 (elapsed e))
                    (periods s') ltac:(lia) ltac:(lia) Hfp) as [_ Hb].
      replace 27 with ((26 - Z.log2 (elapsed e))
                       + Z.succ (Z.log2 (elapsed e))) by lia.
      rewrite Z.pow_add_r by lia.
      apply Z.mul_lt_mono_nonneg; lia.
  - intros Hbig. split; [exact (Hzero Hbig)|].
    intros more.
    destruct (broadcasting_run more s' HB) as (s'' & Em & Hc).
    assert (Erun : run (script ++ e :: more) (init stack) = Some s'').
    { rewrite run_app, E. simpl. rewrite E'. exact Em. }
    assert (Hp0 : periods s'' = 0).
    { destruct Hc as (_&_&_&_&->&_). exact (Hzero Hbig). }
    exists s''. split; [exact Erun|]. split; [exact Hp0|].
    intros e'. rewrite (run_emit _ _ _ e' Erun), Hp0. reflexivity.
Qed.

Lemma slow_step : step slow bench_79 = Some slow_state.
Proof. vm_compute. reflexivity. Qed.

Lemma tuned_count_bounded_witness :
  run (bench_script 79) (init clean_stack) = Some bench_79 /\
  length (bench_script 79) = measure_limit /\
  step slow bench_79 = Some slow_state /\
  2 ^ 26 <= elapsed slow /\
  0 <= periods slow_state /\
  periods slow_state * elapsed slow < 2 ^ 27 /\
  periods slow_state = 0 /\
  forall more, exists s'',
    run (bench_script 79 ++ slow :: more) (init clean_stack) = Some s'' /\
    periods s'' = 0 /\
    forall e', emit e' s'' = Some [].
Proof.
  assert (Hlen : length (bench_script 79) = measure_limit) by reflexivity.
  assert (Hbig : 2 ^ 26 <= elapsed slow) by (vm_compute; discriminate).
  destruct (tuned_count_bounded clean_stack (bench_script 79) bench_79 slow
              slow_state bench_run_79 Hlen slow_step) as (H0 & Hprod & Hz).
  split; [exact bench_run_79|]. split; [exact Hlen|].
  split; [exact slow_step|]. split; [exact Hbig|].
  split; [exact H0|]. split; [exact Hprod|]. exact (Hz Hbig).
Defined.

(** ** The two machines do not interfere (lines 137-243) *)

Lemma same_calibration_with_adc s s' :
  same_calibration s s' -> s' = with_adc (read_state s') (adc_value s') s.
Proof.
  destruct s, s'. unfold same_calibration, with_adc. simpl.
  intros (?&?&?&?&?&?&?&?&?&?&?&?&?). subst. reflexivity.
Qed.

Lemma with_adc_same_calibration r v s : same_calibration s (with_adc r v s).
Proof. repeat split. Qed.

Lemma poll_adc_with_adc e s :
  poll_adc e s
  = with_adc (fst (adc_step e (read_state s) (adc_value s)))
      (snd (adc_step e (read_state s) (adc_value s))) s.
Proof.
  unfold poll_adc. destruct (adc_step e (read_state s) (adc_value s)).
  reflexivity.
Qed.

Lemma for_each_commute {A} (g : A -> A) (body : nat -> A -> option A)
  (ixs : list nat) (a : A) :
  (forall i x, body i (g x) = g <$> body i x) ->
  for_each body ixs (g a) = g <$> for_each body ixs a.
Proof.
  intros H. revert a. induction ixs as [|i ixs IH]; intros a; simpl;
    [reflexivity|].
  rewrite H. destruct (body i a) as [a'|]; simpl; [apply IH|reflexivity].
Qed.

Lemma eval_body_with_adc r v i j s :
  eval_body i j (with_adc r v s) = with_adc r v <$> eval_body i j s.
Proof.
  unfold eval_body. cbn [with_adc measurements periods best_diff].
  destruct (measurements s !! i) as [c|]; [simpl|reflexivity].
  destruct (frequencies !! j) as [f|]; [simpl|reflexivity].
  destruct (flt _ (best_diff s)); reflexivity.
Qed.

Lemma evaluate_with_adc r v s :
  evaluate (with_adc r v s) = with_adc r v <$> evaluate s.
Proof.
  unfold evaluate, scan, for_range.
  apply for_each_commute. intros i x.
  apply for_each_commute. intros j y. apply eval_body_with_adc.
Qed.

Lemma handoff_with_adc r v s :
  handoff (with_adc r v s) = with_adc r v <$> handoff s.
Proof.
  unfold handoff. cbn [with_adc measurements index opcodes best_index
                       best_frequency periods].
  destruct (measurements s !! index s); [simpl|reflexivity].
  destruct (store (opcodes s) (index s) NOP) as [ops|]; [simpl|reflexivity].
  destruct (store ops (best_index s) RET); [simpl|reflexivity].
  destruct (frequencies !! best_frequency s); reflexivity.
Qed.

Lemma advance_with_adc r v e s :
  advance e (with_adc r v s) = with_adc r v <$> advance e s.
Proof.
  unfold advance. cbn [with_adc measurements index opcodes].
  destruct (store (measurements s) _ _); [simpl|reflexivity].
  destruct (store (opcodes s) (index s) NOP) as [ops|]; [simpl|reflexivity].
  destruct (store ops (S (index s)) RET); reflexivity.
Qed.

Lemma measuring_with_adc r v e s :
  measuring e (with_adc r v s) = with_adc r v <$> measuring e s.
Proof.
  unfold measuring. rewrite advance_with_adc.
  destruct (advance e s) as [s1|]; [simpl|reflexivity].
  destruct (decide (index s1 = measure_limit)); [|reflexivity].
  rewrite evaluate_with_adc.
  destruct (evaluate s1) as [s2|]; [simpl|reflexivity].
  apply handoff_with_adc.
Qed.

Lemma testing_with_adc r v e s :
  testing e (with_adc r v s) = with_adc r v <$> testing e s.
Proof.
  unfold testing. cbn [with_adc periods].
  destruct (final_periods _ sample_rate); reflexivity.
Qed.

Lemma same_timers_elapsed e e' : same_timers e e' -> elapsed e = elapsed e'.
Proof. intros [H1 H2]. unfold elapsed. rewrite H1, H2. reflexivity. Qed.

Lemma measuring_same_timers e e' s :
  same_timers e e' -> measuring e s = measuring e' s.
Proof.
  intros H. unfold measuring, advance.
  rewrite (same_timers_elapsed _ _ H). destruct H as [-> ->]. reflexivity.
Qed.

Lemma testing_same_timers e e' s :
  same_timers e e' -> testing e s = testing e' s.
Proof.
  intros H. unfold testing.
  rewrite (same_timers_elapsed _ _ H). destruct H as [-> ->]. reflexivity.
Qed.

Lemma step_with_adc e s :
  step e s
  = with_adc (fst (adc_step e (read_state s) (adc_value s)))
      (snd (adc_step e (read_state s) (adc_value s)))
    <$> match ready_state s with
        | 2 => measuring e s
        | 1 => testing e s
        | _ => Some s
        end.
Proof.
  unfold step. rewrite poll_adc_with_adc. cbn [with_adc ready_state].
  destruct (ready_state s) as [|p|p]; [reflexivity| |reflexivity].
  destruct p as [p|p|]; [reflexivity| |apply testing_with_adc].
  destruct p as [p|p|]; [reflexivity|reflexivity|apply measuring_with_adc].
Qed.

Lemma step_same_timers e e' s s' :
  same_timers e e' -> same_calibration s s' ->
  option_Forall2 same_calibration (step e s) (step e' s').
Proof.
  intros Ht Hc.
  rewrite (same_calibration_with_adc _ _ Hc).
  rewrite (step_with_adc e s), (step_with_adc e' (with_adc _ _ s)).
  cbn [with_adc ready_state read_state adc_value].
  assert (Hm : measuring e' (with_adc (read_state s') (adc_value s') s)
               = with_adc (read_state s') (adc_value s') <$> measuring e s)
    by (rewrite measuring_with_adc, (measuring_same_timers _ _ _ Ht);
        reflexivity).
  assert (Hte : testing e' (with_adc (read_state s') (adc_value s') s)
               = with_adc (read_state s') (adc_value s') <$> testing e s)
    by (rewrite testing_with_adc, (testing_same_timers _ _ _ Ht);
        reflexivity).
  assert (Hgen : forall (o : option State) r1 v1 r2 v2 r3 v3,
             option_Forall2 same_calibration (with_adc r1 v1 <$> o)
               (with_adc r2 v2 <$> (with_adc r3 v3 <$> o))).
  { intros [x|] *; simpl; constructor. repeat split. }
  assert (Hidle : forall r1 v1 r2 v2 r3 v3,
             option_Forall2 same_calibration (with_adc r1 v1 <$> Some s)
               (with_adc r2 v2 <$> Some (with_adc r3 v3 s)))
    by (intros; simpl; constructor; repeat split).
  destruct (ready_state s) as [|p|p]; [apply Hidle| |apply Hidle].
  destruct p as [p|p|]; [apply Hidle| |rewrite Hte; apply Hgen].
  destruct p as [p|p|]; [apply Hidle|apply Hidle|rewrite Hm; apply Hgen].
Qed.

Lemma run_same_timers script script' s s' :
  Forall2 same_timers script script' -> same_calibration s s' ->
  option_Forall2 same_calibration (run script s) (run script' s').
Proof.
  intros HF. revert s s'.
  induction HF as [|e e' script script' He _ IH]; intros s s' Hc; simpl.
  - constructor. exact Hc.
  - destruct (step_same_timers e e' s s' He Hc) as [a b Hab|];
      simpl; [apply IH; exact Hab|constructor].
Qed.

Lemma adc_run_same_adc script script' st :
  Forall2 same_adc script script' -> adc_run script st = adc_run script' st.
Proof.
  intros HF. revert st.
  induction HF as [|e e' script script' He _ IH]; intros st; simpl;
    [reflexivity|].
  rewrite IH. f_equal. destruct He as (H1 & H2 & H3).
  unfold adc_step. rewrite H1, H2, H3. reflexivity.
Qed.

(** X11.  The broadcast machine and the ADC machine do not interfere.  Two
    scripts with the same timer readings, whatever their ADC registers,
    are both defined or both undefined, and leave every variable but
    [read_state] and [adc_value] the same: the audio input has no influence
    on the calibration.  Two scripts with the same ADC registers, whatever
    their timer readings, leave [read_state] and [adc_value] the same
    wherever both are defined. *)
Theorem machines_do_not_interfere (stack : nat -> Z)
  (script script' : list Env) :
  (Forall2 same_timers script script' ->
   option_Forall2 same_calibration
     (run script (init stack)) (run script' (init stack))) /\
  (Forall2 same_adc script script' ->
   forall s s',
     run script (init stack) = Some s ->
     run script' (init stack) = Some s' ->
     read_state s' = read_state s /\ adc_value s' = adc_value s).
Proof.
  split.
  - intros HF. apply run_same_timers; [exact HF|].
    apply same_calibration_refl.
  - intros HF s s' E E'.
    pose proof (run_adc _ _ _ E) as H. pose proof (run_adc _ _ _ E') as H'.
    rewrite (adc_run_same_adc _ _ _ HF) in H. rewrite <- H' in H.
    injection H as -> ->. split; reflexivity.
Qed.

Lemma machines_do_not_interfere_witness :
  Forall2 same_timers stalled_script
    (replicate 5 (mkEnv false true 123 0 151624)) /\
  option_Forall2 same_calibration
    (run stalled_script (init clean_stack))
    (run (replicate 5 (mkEnv false true 123 0 151624)) (init clean_stack)).
Proof.
  assert (HF : Forall2 same_timers stalled_script
                 (replicate 5 (mkEnv false true 123 0 151624)))
    by (repeat constructor).
  split; [exact HF|].
  exact (proj1 (machines_do_not_interfere clean_stack stalled_script
                  (replicate 5 (mkEnv false true 123 0 151624))) HF).
Defined.

(** ** The signal LEDs (lines 133, 182, 212 and 236) *)

Lemma signal_step e s l :
  ready_state s = MEASURING \/ ready_state s = TESTING \/
  ready_state s = BROADCASTING ->
  l = colour (ready_state s) ->
  signal e s l = (fun s' => colour (ready_state s')) <$> step e s.
Proof.
  intros Hph ->. unfold signal, step.
  destruct (poll_adc_fields e s) as (_ & _ & _ & _ & P4 & _).
  rewrite P4.
  destruct Hph as [H | [H | H]]; rewrite H;
    unfold MEASURING, TESTING, BROADCASTING; cbv iota beta.
  - unfold measuring.
    destruct (advance e (poll_adc e s)) as [s1|] eqn:E; [simpl|reflexivity].
    destruct (advance_fields _ _ _ E) as (_ & _ & _ & _ & A5 & _).
    destruct (decide (index s1 = measure_limit)).
    + destruct (evaluate s1) as [s2|]; [simpl|reflexivity].
      destruct (handoff s2) as [s3|] eqn:E3; [simpl|reflexivity].
      destruct (handoff_fields _ _ E3) as (-> & _). reflexivity.
    + simpl. rewrite A5, P4, H. reflexivity.
  - destruct (testing e (poll_adc e s)) as [s1|] eqn:E; [simpl|reflexivity].
    destruct (testing_fields _ _ _ E) as (-> & _). reflexivity.
  - simpl. rewrite P4, H. reflexivity.
Qed.

Lemma run_leds_colour script s l :
  ready_state s = MEASURING \/ ready_state s = TESTING \/
  ready_state s = BROADCASTING ->
  l = colour (ready_state s) ->
  run_leds script s l
  = (fun s' => (s', colour (ready_state s'))) <$> run script s.
Proof.
  revert s l. induction script as [|e script IH]; intros s l Hph Hl; simpl.
  - rewrite Hl. reflexivity.
  - rewrite (signal_step e s l Hph Hl).
    destruct (step e s) as [s1|] eqn:E; [simpl|reflexivity].
    apply IH; [|reflexivity].
    destruct (step_phase _ _ _ E) as (S2 & S1 & S0 & _).
    destruct Hph as [H | [H | H]].
    + destruct (S2 H) as [-> | ->]; [left|right; left]; reflexivity.
    + right; right. exact (S1 H).
    + right; right. exact (S0 H).
Qed.

(** X12.  At every iteration boundary the LEDs tell the phase: the LEDs
    the loop leaves behind are those of a run of the program variables
    alone, coloured by [ready_state]: red while MEASURING, cyan in TESTING,
    green once BROADCASTING; and the LEDs are defined wherever the
    program variables are. *)
Theorem leds_tell_phase (stack : nat -> Z) (script : list Env) :
  run_leds script (init stack) leds_init
  = (fun s => (s, colour (ready_state s))) <$> run script (init stack).
Proof.
  apply run_leds_colour; [left|]; reflexivity.
Qed.
